(** * Order flow of the bar point-of-sale client (pages/Orders.tsx) and the
      occupancy figure of the dashboard (components/dashboard/StatsCards.tsx)

    The React component [Orders] keeps one piece of state, [orderStep], and
    changes it through handlers of the shape [setOrderStep(prev => ...)].
    Each handler is embedded as a function from the previous state to the next
    one; the read models the component polls ([ordersList], [tablesList],
    [creditClientsList]) are explicit arguments.  What a handler does to the
    outside world (a toast, one of the two mutations) is returned as a value
    of type [Effect]. *)

From Stdlib Require Import ZArith List String Ascii Bool Lia QArith Qround.
From Stdlib Require Import DecimalString.
Import ListNotations.

Local Open Scope string_scope.
Local Open Scope list_scope.
Local Open Scope Z_scope.

(** ** Numbers

    [calculateTotal] adds and multiplies JavaScript numbers obtained with
    [parseFloat].  The order flow never inspects them, so the arithmetic is an
    interface: what is proved of the flow holds for every implementation of
    it.  The implementation the engine has, IEEE 754 doubles, is [doubleArith]
    below; the totals are settled on it. *)

Class JsArith (number : Type) : Type := {
  num_zero : number;
  num_add : number -> number -> number;
  num_mul : number -> number -> number;
  num_of_int : Z -> number;
  parseFloat : string -> number
}.

(** ** Data model (the parts of [@shared/schema] the component reads) *)

Module Table.
Record t : Type := mk {
  id : Z;
  number : Z;
  capacity : Z;
  location : string;
  status : string
}.
End Table.

Module Product.
Record t : Type := mk {
  id : Z;
  name : string;
  price : string;
  stock : Z;
  minStock : Z
}.
End Product.

Module CreditClient.
Record t : Type := mk {
  id : Z;
  name : string;
  totalCredit : string
}.
End CreditClient.

Module OrderItem.
Record t : Type := mk {
  id : Z;
  quantity : Z;
  price : string;
  product : Product.t
}.
End OrderItem.

(** [OrderWithItems]: nullable columns are options. *)
Module Order.
Record t : Type := mk {
  id : Z;
  tableId : Z;
  creditClientId : option Z;
  clientName : option string;
  status : string;
  notes : option string;
  items : list OrderItem.t
}.
End Order.

(** One line of the cart, [{ product, quantity }]. *)
Module CartLine.
Record t : Type := mk {
  product : Product.t;
  quantity : Z
}.
End CartLine.

Inductive Step : Type := step_table | step_client | step_products | step_complete.

Inductive ClientType : Type := anonymous | credit | manager.

Module OrderStep.
Record t : Type := mk {
  step : Step;
  selectedTable : option Table.t;
  clientType : option ClientType;
  selectedClient : option CreditClient.t;
  anonymousName : string;
  managerName : string;
  orderItems : list CartLine.t;
  notes : string
}.
End OrderStep.

(** ** Effects *)

Module Toast.
Record t : Type := mk {
  title : string;
  description : string;
  variant : option string
}.
End Toast.

(** An element of the [items] array of both request bodies. *)
Module Item.
Record t : Type := mk {
  productId : Z;
  quantity : Z;
  price : string
}.
End Item.

Module OrderData.
Record t (number : Type) : Type := mk {
  tableId : Z;
  creditClientId : option Z;
  clientName : option string;
  totalAmount : number;
  notes : string;
  items : list Item.t
}.
Arguments mk {number}.
Arguments tableId {number}.
Arguments creditClientId {number}.
Arguments clientName {number}.
Arguments totalAmount {number}.
Arguments notes {number}.
Arguments items {number}.
End OrderData.

Inductive Effect (number : Type) : Type :=
| toast (t : Toast.t)
| createOrderMutation (orderData : OrderData.t number)
| addItemsToOrderMutation (orderId : Z) (items : list Item.t).

Arguments toast {number}.
Arguments createOrderMutation {number}.
Arguments addItemsToOrderMutation {number}.

(** A request that writes to the store, as opposed to a toast. *)
Definition isWrite {number : Type} (e : Effect number) : bool :=
  match e with
  | toast _ => false
  | createOrderMutation _ => true
  | addItemsToOrderMutation _ _ => true
  end.

(** ** JavaScript idioms *)

(** [Array.prototype.includes] on numbers. *)
Definition includes (l : list Z) (x : Z) : bool := existsb (Z.eqb x) l.

(** [x || d] on a nullable number: [null], [undefined] and [0] are falsy. *)
Definition orNumber (x : option Z) (d : Z) : Z :=
  match x with
  | Some v => if v =? 0 then d else v
  | None => d
  end.

(** Truthiness of a nullable number and of a nullable string. *)
Definition truthyNumber (x : option Z) : bool :=
  match x with
  | Some v => negb (v =? 0)
  | None => false
  end.

Definition truthyString (x : option string) : bool :=
  match x with
  | Some s => negb (s =? "")%string
  | None => false
  end.

(** ** Strings

    [String.prototype.toLowerCase] is the engine's: it follows the Unicode
    case mappings, which no table here reproduces (the Kelvin sign U+212A,
    for one, is lowered to the letter k).  The order flow only compares its
    result with two fixed names, so it is an interface, and the development
    holds for every implementation of it. *)
Class JsString : Type := {
  toLowerCase : string -> string
}.

(** What the Unicode mappings do on the ASCII range: the letters [A]-[Z]
    move to [a]-[z], every other character stays. *)
Definition lowerAscii (c : ascii) : ascii :=
  let n := nat_of_ascii c in
  if ((65 <=? n) && (n <=? 90))%nat then ascii_of_nat (n + 32) else c.

Fixpoint lowerAsciiString (s : string) : string :=
  match s with
  | EmptyString => EmptyString
  | String c rest => String (lowerAscii c) (lowerAsciiString rest)
  end.

(** A string of ASCII characters only (in UTF-8: no byte above 127). *)
Fixpoint isAscii (s : string) : bool :=
  match s with
  | EmptyString => true
  | String c rest => (nat_of_ascii c <? 128)%nat && isAscii rest
  end.

(** The one law of [toLowerCase] the development uses: on a string of ASCII
    characters it lowers the letters and nothing else. *)
Class JsStringAscii `{JsString} : Prop := {
  toLowerCase_ascii : forall s : string,
      isAscii s = true -> toLowerCase s = lowerAsciiString s
}.

(** A number inside a template literal. *)
Definition showZ (n : Z) : string := NilZero.string_of_int (Z.to_int n).


(** ** The handlers of [Orders] *)

Section OrderFlow.

Context {number : Type} `{JsArith number}.
Context {strings : JsString}.

(** The state [useState] starts from, and [resetOrder] returns to. *)
Definition initialOrderStep : OrderStep.t :=
  {| OrderStep.step := step_table;
     OrderStep.selectedTable := None;
     OrderStep.clientType := None;
     OrderStep.selectedClient := None;
     OrderStep.anonymousName := "";
     OrderStep.managerName := "";
     OrderStep.orderItems := [];
     OrderStep.notes := "" |}.

(** The predicate both [handleTableSelection] and [handleSubmitOrder] hand to
    [ordersList.find], and the table grid to [ordersList.some]. *)
Definition isPendingFor (tableId : Z) (order : Order.t) : bool :=
  (Order.tableId order =? tableId) && (Order.status order =? "pending")%string.

(** [existingOrder.clientName.toLowerCase() === s], under the guard
    [existingOrder.clientName && ...]. *)
Definition lowerNameIs (clientName : option string) (s : string) : bool :=
  match clientName with
  | Some name => (toLowerCase name =? s)%string
  | None => false
  end.

Definition isManagerName (clientName : option string) : bool :=
  truthyString clientName
  && (lowerNameIs clientName "carl malack" || lowerNameIs clientName "lucelle reis").

(** The [clientType] that [handleTableSelection] gives an existing order. *)
Definition inferClientType (existingOrder : Order.t) : ClientType :=
  if truthyNumber (Order.creditClientId existingOrder) then credit
  else if isManagerName (Order.clientName existingOrder) then manager
  else anonymous.

Definition handleTableSelection
    (ordersList : list Order.t) (creditClientsList : list CreditClient.t)
    (table : Table.t) (prev : OrderStep.t) : OrderStep.t * option Toast.t :=
  match find (isPendingFor (Table.id table)) ordersList with
  | Some existingOrder =>
      let clientName := Order.clientName existingOrder in
      ({| OrderStep.step := step_products;
          OrderStep.selectedTable := Some table;
          OrderStep.clientType := Some (inferClientType existingOrder);
          OrderStep.selectedClient :=
            match Order.creditClientId existingOrder with
            | Some cid =>
                if cid =? 0 then None
                else find (fun c => CreditClient.id c =? cid) creditClientsList
            | None => None
            end;
          OrderStep.anonymousName :=
            match clientName with
            | Some name =>
                if truthyString clientName
                   && negb (lowerNameIs clientName "carl malack")
                   && negb (lowerNameIs clientName "lucelle reis")
                then name else ""%string
            | None => ""%string
            end;
          OrderStep.managerName :=
            match clientName with
            | Some name => if isManagerName clientName then name else ""%string
            | None => ""%string
            end;
          OrderStep.orderItems :=
            map (fun item =>
                   {| CartLine.product := OrderItem.product item;
                      CartLine.quantity := OrderItem.quantity item |})
                (Order.items existingOrder);
          OrderStep.notes :=
            match Order.notes existingOrder with
            | Some n => n
            | None => ""%string
            end |},
       Some {| Toast.title := "Commande existante trouvée";
               Toast.description :=
                 "Vous pouvez ajouter des articles à la commande existante de la table "
                 ++ showZ (Table.number table);
               Toast.variant := None |})
  | None =>
      ({| OrderStep.step := step_client;
          OrderStep.selectedTable := Some table;
          OrderStep.clientType := OrderStep.clientType prev;
          OrderStep.selectedClient := OrderStep.selectedClient prev;
          OrderStep.anonymousName := OrderStep.anonymousName prev;
          OrderStep.managerName := OrderStep.managerName prev;
          OrderStep.orderItems := OrderStep.orderItems prev;
          OrderStep.notes := OrderStep.notes prev |},
       None)
  end.

Definition handleClientSelection
    (type : ClientType) (client : option CreditClient.t)
    (name managerName : string) (prev : OrderStep.t) : OrderStep.t :=
  {| OrderStep.step := step_products;
     OrderStep.selectedTable := OrderStep.selectedTable prev;
     OrderStep.clientType := Some type;
     OrderStep.selectedClient := client;
     OrderStep.anonymousName := name;
     OrderStep.managerName := managerName;
     OrderStep.orderItems := OrderStep.orderItems prev;
     OrderStep.notes := OrderStep.notes prev |}.

(** [{ ...prev, orderItems }]. *)
Definition withOrderItems (prev : OrderStep.t) (orderItems : list CartLine.t)
  : OrderStep.t :=
  {| OrderStep.step := OrderStep.step prev;
     OrderStep.selectedTable := OrderStep.selectedTable prev;
     OrderStep.clientType := OrderStep.clientType prev;
     OrderStep.selectedClient := OrderStep.selectedClient prev;
     OrderStep.anonymousName := OrderStep.anonymousName prev;
     OrderStep.managerName := OrderStep.managerName prev;
     OrderStep.orderItems := orderItems;
     OrderStep.notes := OrderStep.notes prev |}.

Definition lineIs (productId : Z) (item : CartLine.t) : bool :=
  Product.id (CartLine.product item) =? productId.

Definition handleProductAdd (product : Product.t) (prev : OrderStep.t)
  : OrderStep.t :=
  match find (lineIs (Product.id product)) (OrderStep.orderItems prev) with
  | Some _ =>
      withOrderItems prev
        (map (fun item =>
                if lineIs (Product.id product) item
                then {| CartLine.product := CartLine.product item;
                        CartLine.quantity := CartLine.quantity item + 1 |}
                else item)
             (OrderStep.orderItems prev))
  | None =>
      withOrderItems prev
        (OrderStep.orderItems prev
         ++ [{| CartLine.product := product; CartLine.quantity := 1 |}])
  end.

Definition handleProductRemove (productId : Z) (prev : OrderStep.t)
  : OrderStep.t :=
  withOrderItems prev
    (filter (fun item => negb (lineIs productId item)) (OrderStep.orderItems prev)).

Definition handleQuantityChange (productId quantity : Z) (prev : OrderStep.t)
  : OrderStep.t :=
  if quantity <=? 0 then handleProductRemove productId prev
  else
    withOrderItems prev
      (map (fun item =>
              if lineIs productId item
              then {| CartLine.product := CartLine.product item;
                      CartLine.quantity := quantity |}
              else item)
           (OrderStep.orderItems prev)).

Definition calculateTotal (orderStep : OrderStep.t) : number :=
  fold_left
    (fun total item =>
       num_add total
         (num_mul (parseFloat (Product.price (CartLine.product item)))
                  (num_of_int (CartLine.quantity item))))
    (OrderStep.orderItems orderStep) num_zero.

(** The element pushed on [itemsToAdd], and mapped into [orderData.items]. *)
Definition toItem (item : CartLine.t) : Item.t :=
  {| Item.productId := Product.id (CartLine.product item);
     Item.quantity := CartLine.quantity item;
     Item.price := Product.price (CartLine.product item) |}.

Definition existingProductIds (existingOrder : Order.t) : list Z :=
  map (fun item => Product.id (OrderItem.product item)) (Order.items existingOrder).

Definition newItems (existingOrder : Order.t) (orderItems : list CartLine.t)
  : list CartLine.t :=
  filter (fun item =>
            negb (includes (existingProductIds existingOrder)
                           (Product.id (CartLine.product item))))
         orderItems.

Definition updatedItems (existingOrder : Order.t) (orderItems : list CartLine.t)
  : list CartLine.t :=
  filter (fun item =>
            includes (existingProductIds existingOrder)
                     (Product.id (CartLine.product item)))
         orderItems.

(** [existingOrder.items.find(existing => existing.product.id === item.product.id)] *)
Definition findExisting (existingOrder : Order.t) (item : CartLine.t)
  : option OrderItem.t :=
  find (fun existing =>
          Product.id (OrderItem.product existing)
          =? Product.id (CartLine.product item))
       (Order.items existingOrder).

(** The two [for ... of] loops pushing on [itemsToAdd], in their order. *)
Definition itemsToAdd (existingOrder : Order.t) (orderItems : list CartLine.t)
  : list Item.t :=
  let itemsToAdd := [] in
  let itemsToAdd :=
    fold_left (fun acc item => acc ++ [toItem item])
              (newItems existingOrder orderItems) itemsToAdd in
  fold_left
    (fun acc item =>
       match findExisting existingOrder item with
       | Some existingItem =>
           if negb (CartLine.quantity item =? OrderItem.quantity existingItem)
           then acc ++ [toItem item]
           else acc
       | None => acc
       end)
    (updatedItems existingOrder orderItems) itemsToAdd.

(** The test of the second loop of [itemsToAdd]. *)
Definition quantityChanged (existingOrder : Order.t) (item : CartLine.t) : bool :=
  match findExisting existingOrder item with
  | Some existingItem =>
      negb (CartLine.quantity item =? OrderItem.quantity existingItem)
  | None => false
  end.

Definition validationToast : Toast.t :=
  {| Toast.title := "Erro";
     Toast.description := "Por favor, complete todos os campos obrigatórios";
     Toast.variant := Some "destructive" |}.

Definition nothingNewToast : Toast.t :=
  {| Toast.title := "Aviso";
     Toast.description := "Nenhum item novo para adicionar";
     Toast.variant := Some "default" |}.

Definition handleSubmitOrder (ordersList : list Order.t) (orderStep : OrderStep.t)
  : Effect number :=
  match OrderStep.selectedTable orderStep, OrderStep.clientType orderStep with
  | Some selectedTable, Some clientType =>
      if (List.length (OrderStep.orderItems orderStep) =? 0)%nat
      then toast validationToast
      else
        match find (isPendingFor (Table.id selectedTable)) ordersList with
        | Some existingOrder =>
            let itemsToAdd :=
              itemsToAdd existingOrder (OrderStep.orderItems orderStep) in
            if (0 <? List.length itemsToAdd)%nat
            then addItemsToOrderMutation (Order.id existingOrder) itemsToAdd
            else toast nothingNewToast
        | None =>
            createOrderMutation
              {| OrderData.tableId := Table.id selectedTable;
                 OrderData.creditClientId :=
                   match clientType with
                   | credit =>
                       option_map CreditClient.id
                                  (OrderStep.selectedClient orderStep)
                   | _ => None
                   end;
                 OrderData.clientName :=
                   match clientType with
                   | anonymous => Some (OrderStep.anonymousName orderStep)
                   | manager => Some (OrderStep.managerName orderStep)
                   | credit => None
                   end;
                 OrderData.totalAmount := calculateTotal orderStep;
                 OrderData.notes := OrderStep.notes orderStep;
                 OrderData.items :=
                   map toItem (OrderStep.orderItems orderStep) |}
        end
  | _, _ => toast validationToast
  end.

(** The submit button is disabled while the cart is empty or an order is being
    created; a disabled button does not call [onClick]. *)
Definition submitDisabled (orderStep : OrderStep.t) (createIsPending : bool) : bool :=
  (List.length (OrderStep.orderItems orderStep) =? 0)%nat || createIsPending.

Definition clickSubmit (ordersList : list Order.t) (orderStep : OrderStep.t)
    (createIsPending : bool) : option (Effect number) :=
  if submitDisabled orderStep createIsPending then None
  else Some (handleSubmitOrder ordersList orderStep).

(** [item.product.id] *)
Definition lineProductId (item : CartLine.t) : Z :=
  Product.id (CartLine.product item).

(** The items of the merge request an effect carries, if it is one. *)
Definition requestedItems (e : Effect number) : list Item.t :=
  match e with
  | addItemsToOrderMutation _ items => items
  | _ => []
  end.

(** *** The table grid (step 1) *)

Definition hasPendingOrder (ordersList : list Order.t) (table : Table.t) : bool :=
  existsb (isPendingFor (Table.id table)) ordersList.

(** The three looks of a table button, named after the legend above the grid:
    green "Livre", orange "Peut ajouter articles", red "Occupée". *)
Inductive TableLook : Type := look_free | look_addable | look_occupied.

Definition tableLook (ordersList : list Order.t) (table : Table.t) : TableLook :=
  if (Table.status table =? "free")%string then look_free
  else if hasPendingOrder ordersList table then look_addable
  else look_occupied.

Definition tableDisabled (ordersList : list Order.t) (table : Table.t) : bool :=
  negb (Table.status table =? "free")%string
  && negb (hasPendingOrder ordersList table).

(** A click on a table button: a disabled button does not call [onClick]. *)
Definition clickTable
    (ordersList : list Order.t) (creditClientsList : list CreditClient.t)
    (table : Table.t) (prev : OrderStep.t) : OrderStep.t * option Toast.t :=
  if tableDisabled ordersList table then (prev, None)
  else handleTableSelection ordersList creditClientsList table prev.

(** *** The product list (step 3) *)

Definition addDisabled (product : Product.t) : bool := Product.stock product <=? 0.

Definition clickProductAdd (product : Product.t) (prev : OrderStep.t)
  : OrderStep.t :=
  if addDisabled product then prev else handleProductAdd product prev.

End OrderFlow.

(** ** The occupancy figure of [StatsCards]

    The expression is read here in exact arithmetic, which settles when it is
    defined; [occupancyPercentDouble], further down, is the same expression on
    doubles. *)

Module SessionStats.
Record t : Type := mk {
  transactionCount : option Z;
  occupiedTables : option Z;
  totalTables : option Z
}.
End SessionStats.

(** The value of an arithmetic expression on integers: a rational, or one of
    the three values a division by zero produces. *)
Inductive JsValue : Type :=
| Finite (q : Q)
| PosInfinity
| NegInfinity
| NaN.

(** [a / b] on two integers. *)
Definition jsDiv (a b : Z) : JsValue :=
  if b =? 0 then
    if a =? 0 then NaN else if 0 <? a then PosInfinity else NegInfinity
  else Finite (inject_Z a / inject_Z b).

(** [x * 100]. *)
Definition jsTimes100 (x : JsValue) : JsValue :=
  match x with
  | Finite q => Finite (q * inject_Z 100)
  | other => other
  end.

(** [Math.round]: the nearest integer, halves rounded up. *)
Definition mathRound (x : JsValue) : JsValue :=
  match x with
  | Finite q => Finite (inject_Z (Qfloor (q + (1 # 2))))
  | other => other
  end.

(** [sessionStats?.field]. *)
Definition optField (sessionStats : option SessionStats.t)
    (field : SessionStats.t -> option Z) : option Z :=
  match sessionStats with
  | Some stats => field stats
  | None => None
  end.

Definition occupancyDenominator (sessionStats : option SessionStats.t) : Z :=
  orNumber (optField sessionStats SessionStats.totalTables) 1.

Definition occupancyPercent (sessionStats : option SessionStats.t) : JsValue :=
  mathRound
    (jsTimes100
       (jsDiv (orNumber (optField sessionStats SessionStats.occupiedTables) 0)
              (occupancyDenominator sessionStats))).

(** ** The merge behind [POST /api/orders/:id/items]

    The client only sends the request; the handler that applies it (the
    [mergeItems] operation of the Order Engine) lives in the server's routes
    and storage, which are not part of the sources at hand. *)

Section Merge.

Context {number : Type} `{JsArith number}.

Definition sameProduct (line it : Item.t) : bool :=
  Item.productId it =? Item.productId line.

(** Modelled from the spec: the server-side handling of one line of a merge
    request is missing from the sources.  Per the Order Engine's [mergeItems]:
    a product not yet on the order is appended at the cart quantity; a product
    already on it has its quantity replaced by the cart quantity, the price
    snapshot staying; a quantity of 0 or less removes the line entirely. *)
Definition mergeLine (items : list Item.t) (line : Item.t) : list Item.t :=
  if Item.quantity line <=? 0 then
    filter (fun it => negb (sameProduct line it)) items
  else if existsb (sameProduct line) items then
    map (fun it =>
           if sameProduct line it
           then {| Item.productId := Item.productId it;
                   Item.quantity := Item.quantity line;
                   Item.price := Item.price it |}
           else it)
        items
  else items ++ [line].

(** Modelled from the spec: the server-side [mergeItems] is missing from the
    sources; it treats the cart line by line ("for each cart line"). *)
Definition mergeItems (items cart : list Item.t) : list Item.t :=
  fold_left mergeLine cart items.

(** The sum of [price * quantity] over a set of lines, in the words of the
    data model: "the sum of item.price x item.quantity". *)
Fixpoint sumOfLines (items : list Item.t) : number :=
  match items with
  | [] => num_zero
  | it :: rest =>
      num_add (num_mul (parseFloat (Item.price it)) (num_of_int (Item.quantity it)))
              (sumOfLines rest)
  end.

(** The same sum accumulated from 0 and from left to right, the way
    [Array.prototype.reduce] walks an array. *)
Definition sumLeftToRight (items : list Item.t) : number :=
  fold_left
    (fun total it =>
       num_add total
         (num_mul (parseFloat (Item.price it)) (num_of_int (Item.quantity it))))
    items num_zero.

(** Modelled from the spec: the total the server stores after a merge is
    missing from the sources; [mergeItems] "recomputes totalAmount as the full
    sum over the merged item set". *)
Definition mergedTotalAmount (items cart : list Item.t) : number :=
  sumOfLines (mergeItems items cart).

(** The lines of an order as the server holds them. *)
Definition storedItem (item : OrderItem.t) : Item.t :=
  {| Item.productId := Product.id (OrderItem.product item);
     Item.quantity := OrderItem.quantity item;
     Item.price := OrderItem.price item |}.

Definition storedItems (order : Order.t) : list Item.t :=
  map storedItem (Order.items order).

(** The quantity an item set holds for a product, if any. *)
Definition quantityOf (productId : Z) (items : list Item.t) : option Z :=
  option_map Item.quantity
             (find (fun it => Item.productId it =? productId) items).

End Merge.

(** ** Exact decimal arithmetic

    An implementation of the arithmetic interface on the rationals, reading a
    price the way the [decimal] column prints it ([digits] or
    [digits.digits]). *)

Definition digitOf (c : ascii) : option Z :=
  let n := nat_of_ascii c in
  if ((48 <=? n) && (n <=? 57))%nat then Some (Z.of_nat (n - 48)) else None.

Fixpoint parseFraction (s : string) (num : Z) (den : positive) : Q :=
  match s with
  | String c rest =>
      match digitOf c with
      | Some d => parseFraction rest (10 * num + d) (10 * den)
      | None => num # den
      end
  | EmptyString => num # den
  end.

Fixpoint parseDecimal (s : string) (num : Z) : Q :=
  match s with
  | String c rest =>
      match digitOf c with
      | Some d => parseDecimal rest (10 * num + d)
      | None => if (c =? ".")%char then parseFraction rest num 1 else num # 1
      end
  | EmptyString => num # 1
  end.

#[export] Instance exactArith : JsArith Q := {
  num_zero := 0%Q;
  num_add := Qplus;
  num_mul := Qmult;
  num_of_int := inject_Z;
  parseFloat := fun s => parseDecimal s 0
}.

(** ** A lowercasing for the sample runs

    It lowers the ASCII letters and the Kelvin sign (U+212A, in UTF-8 the
    bytes 226 132 170) and leaves every other byte: what the engine does on a
    string made of ASCII characters and Kelvin signs. *)
Fixpoint lowerSample (s : string) : string :=
  match s with
  | String "226" (String "132" (String "170" rest)) => String "k" (lowerSample rest)
  | String c rest => String (lowerAscii c) (lowerSample rest)
  | EmptyString => EmptyString
  end.

(** The Kelvin sign, and a manager's name typed with it. *)
Definition kelvinSign : string := String "226" (String "132" (String "170" EmptyString)).

Definition carlWithKelvinSign : string := "Carl Malac" ++ kelvinSign.

#[export] Instance sampleStrings : JsString := {
  toLowerCase := lowerSample
}.

(** ** Sample data *)

Definition beer : Product.t := Product.mk 10 "Cerveja" "5.00" 24 6.
Definition wine : Product.t := Product.mk 11 "Vinho" "3.00" 12 3.
Definition juice : Product.t := Product.mk 12 "Sumo" "2.50" 0 2.

Definition table12 : Table.t := Table.mk 12 12 4 "main_hall" "occupied".
Definition table7 : Table.t := Table.mk 7 7 2 "terrace" "free".
Definition table9 : Table.t := Table.mk 9 9 6 "balcony" "occupied".

(** A pending order on table 12 holding five beers. *)
Definition order1 : Order.t :=
  Order.mk 1 12 None (Some "Ana") "pending" None
           [OrderItem.mk 100 5 "5.00" beer].

(** An order on table 9 that is already being prepared. *)
Definition order2 : Order.t :=
  Order.mk 2 9 None (Some "Carl Malack") "preparing" None
           [OrderItem.mk 101 1 "3.00" wine].

Definition sampleOrders : list Order.t := [order2; order1].

Definition table5 : Table.t := Table.mk 5 5 4 "main_hall" "occupied".

(** A pending order on table 5 holding five beers and a glass of wine. *)
Definition order3 : Order.t :=
  Order.mk 3 5 None (Some "Rui") "pending" None
           [OrderItem.mk 102 5 "5.00" beer; OrderItem.mk 103 1 "3.00" wine].

Definition line (product : Product.t) (quantity : Z) : CartLine.t :=
  {| CartLine.product := product; CartLine.quantity := quantity |}.

(** The state after a table and a client type were chosen, with a cart. *)
Definition atProducts (table : Table.t) (cart : list CartLine.t) : OrderStep.t :=
  {| OrderStep.step := step_products;
     OrderStep.selectedTable := Some table;
     OrderStep.clientType := Some anonymous;
     OrderStep.selectedClient := None;
     OrderStep.anonymousName := "Ana";
     OrderStep.managerName := "";
     OrderStep.orderItems := cart;
     OrderStep.notes := "" |}.

(** * More of the component *)

From Stdlib Require Import Sorted Permutation.

(** ** The cart as the summary shows it *)

(** The quantity the summary shows for a product: that of the first line
    [find] meets for it. *)
Definition cartQuantity (productId : Z) (orderItems : list CartLine.t) : option Z :=
  option_map CartLine.quantity (find (lineIs productId) orderItems).

(** The minus and plus buttons of a line of the summary:
    [handleQuantityChange(item.product.id, item.quantity -/+ 1)]. *)
Definition clickMinus (item : CartLine.t) (prev : OrderStep.t) : OrderStep.t :=
  handleQuantityChange (Product.id (CartLine.product item))
                       (CartLine.quantity item - 1) prev.

Definition clickPlus (item : CartLine.t) (prev : OrderStep.t) : OrderStep.t :=
  handleQuantityChange (Product.id (CartLine.product item))
                       (CartLine.quantity item + 1) prev.

(** ** Pre-selection of a table by the URL

    The effect that runs when [search] or [tablesList] change.  [tableIdParam]
    is [new URLSearchParams(search).get('table')]: [None] when [search] is
    empty (the effect returns at once) or holds no such parameter.  [parseInt]
    is JavaScript's, [None] standing for [NaN], which equals no table id. *)
Definition autoSelectTable (parseInt : string -> option Z)
    (tableIdParam : option string) (tablesList : list Table.t)
    (prev : OrderStep.t) : OrderStep.t :=
  match tableIdParam with
  | Some param =>
      if negb (param =? "")%string && (0 <? List.length tablesList)%nat then
        match parseInt param with
        | Some tableId =>
            match find (fun t => Table.id t =? tableId) tablesList with
            | Some selectedTable =>
                {| OrderStep.step := step_client;
                   OrderStep.selectedTable := Some selectedTable;
                   OrderStep.clientType := OrderStep.clientType prev;
                   OrderStep.selectedClient := OrderStep.selectedClient prev;
                   OrderStep.anonymousName := OrderStep.anonymousName prev;
                   OrderStep.managerName := OrderStep.managerName prev;
                   OrderStep.orderItems := OrderStep.orderItems prev;
                   OrderStep.notes := OrderStep.notes prev |}
            | None => prev
            end
        | None => prev
        end
      else prev
  | None => prev
  end.

(** [handleClientCreated], without the cache invalidation. *)
Definition handleClientCreated (client : CreditClient.t) (prev : OrderStep.t)
  : OrderStep.t :=
  handleClientSelection credit (Some client) "" "" prev.

(** ** The banner of the product step

    [orders] is the data of the query, [None] while it is [undefined];
    [ordersList] is [orders || []]. *)
Definition ordersListOf (orders : option (list Order.t)) : list Order.t :=
  match orders with
  | Some ordersList => ordersList
  | None => []
  end.

(** Whether the banner "Commande existante trouvée" is rendered.  The test
    reads [orders], not [ordersList]: on [undefined] the call of [some] throws
    a [TypeError], the [None] of the result. *)
Definition existingOrderBanner (orders : option (list Order.t))
    (orderStep : OrderStep.t) : option bool :=
  match orders with
  | Some orders =>
      Some (existsb
              (fun order =>
                 match OrderStep.selectedTable orderStep with
                 | Some selectedTable =>
                     (Order.tableId order =? Table.id selectedTable)
                     && (Order.status order =? "pending")%string
                 | None => false
                 end)
              orders)
  | None => None
  end.

(** ** Grouping into a plain object

    [groupTablesByLocation] and [groupProductsByCategory] fill a plain object
    [{}] whose keys are strings.  The object is the list of its own
    properties, in the order they were created. *)

(** The properties a plain object inherits from [Object.prototype]: on the
    empty object [acc[key]] is already truthy for these keys, so no array is
    created, and none of these values has a [push]. *)
Definition inheritedKeys : list string :=
  ["constructor"; "hasOwnProperty"; "isPrototypeOf"; "propertyIsEnumerable";
   "toLocaleString"; "toString"; "valueOf"; "__proto__";
   "__defineGetter__"; "__defineSetter__"; "__lookupGetter__"; "__lookupSetter__"]%string.

Definition isInherited (key : string) : bool :=
  existsb (String.eqb key) inheritedKeys.

(** [if (!acc[key]) acc[key] = []; acc[key].push(x)] on own properties. *)
Fixpoint pushAt {A : Type} (key : string) (x : A) (acc : list (string * list A))
  : list (string * list A) :=
  match acc with
  | [] => [(key, [x])]
  | (k, xs) :: rest =>
      if (k =? key)%string then (k, xs ++ [x]) :: rest
      else (k, xs) :: pushAt key x rest
  end.

(** The [reduce] of both functions; [None] is the [TypeError] of calling
    [push] on an inherited property. *)
Definition groupInto {A : Type} (key : A -> string) (l : list A)
  : option (list (string * list A)) :=
  fold_left
    (fun acc x =>
       match acc with
       | Some acc =>
           if isInherited (key x) then None else Some (pushAt (key x) x acc)
       | None => None
       end)
    l (Some []).

(** [grouped[key]], the empty list standing for [undefined]. *)
Definition groupAt {A : Type} (key : string) (grouped : list (string * list A))
  : list A :=
  match find (fun entry => (fst entry =? key)%string) grouped with
  | Some entry => snd entry
  | None => []
  end.

(** The elements of a list that go under a key. *)
Definition keyIs {A : Type} (key : A -> string) (k : string) (x : A) : bool :=
  (key x =? k)%string.

(** [sort((a, b) => a.number - b.number)].  [Array.prototype.sort] is stable,
    which leaves one possible result for this comparator; insertion computes
    it. *)
Fixpoint insertByNumber (table : Table.t) (sorted : list Table.t) : list Table.t :=
  match sorted with
  | [] => [table]
  | next :: rest =>
      if Table.number table <=? Table.number next then table :: next :: rest
      else next :: insertByNumber table rest
  end.

Definition sortByNumber (tables : list Table.t) : list Table.t :=
  fold_right insertByNumber [] tables.

(** Ascending table numbers. *)
Definition byNumber (a b : Table.t) : Prop := Table.number a <= Table.number b.

Definition numberIs (n : Z) (table : Table.t) : bool := Table.number table =? n.

Definition groupTablesByLocation (tables : list Table.t)
  : option (list (string * list Table.t)) :=
  option_map
    (map (fun entry => (fst entry, sortByNumber (snd entry))))
    (groupInto Table.location tables).

(** ** The product list of step 3 *)

Module Category.
Record t : Type := mk {
  id : Z;
  name : string
}.
End Category.

(** A product of the catalog with the two columns [Product.t] leaves out. *)
Module CatalogProduct.
Record t : Type := mk {
  product : Product.t;
  description : option string;
  categoryId : option Z
}.
End CatalogProduct.

(** [categoriesList.find(c => c.id === product.categoryId)?.name || 'Outros'] *)
Definition categoryNameOf (categoriesList : list Category.t)
    (product : CatalogProduct.t) : string :=
  match find (fun c =>
                match CatalogProduct.categoryId product with
                | Some categoryId => Category.id c =? categoryId
                | None => false
                end)
             categoriesList with
  | Some c => if (Category.name c =? "")%string then "Outros" else Category.name c
  | None => "Outros"
  end.

Definition groupProductsByCategory (categoriesList : list Category.t)
    (products : list CatalogProduct.t)
  : option (list (string * list CatalogProduct.t)) :=
  groupInto (categoryNameOf categoriesList) products.

(** [String.prototype.includes]. *)
Fixpoint startsWith (s prefix : string) : bool :=
  match prefix, s with
  | EmptyString, _ => true
  | String p prefix', String c s' => (c =? p)%char && startsWith s' prefix'
  | String _ _, EmptyString => false
  end.

Fixpoint stringIncludes (s part : string) : bool :=
  startsWith s part
  || match s with
     | EmptyString => false
     | String _ s' => stringIncludes s' part
     end.

(** [new Set(array)] turned back into an array: first occurrences, in order. *)
Fixpoint distinct (l : list string) : list string :=
  match l with
  | [] => []
  | s :: rest => s :: filter (fun other => negb (other =? s)%string) (distinct rest)
  end.

Section ProductList.

(** [String.prototype.trim] and [toLowerCase], and the order of the default
    [sort] (by UTF-16 code units), are the engine's. *)
Variable trim : string -> string.
Variable lowerCase : string -> string.
Variable codeUnitLeb : string -> string -> bool.

Definition matchesSearch (searchQuery : string) (product : CatalogProduct.t) : bool :=
  stringIncludes (lowerCase (Product.name (CatalogProduct.product product)))
                 (lowerCase searchQuery)
  || match CatalogProduct.description product with
     | Some description => stringIncludes (lowerCase description) (lowerCase searchQuery)
     | None => false
     end.

Definition filterProducts (categoriesList : list Category.t)
    (searchQuery selectedCategory : string) (products : list CatalogProduct.t)
  : list CatalogProduct.t :=
  let filtered := products in
  let filtered :=
    if negb (trim searchQuery =? "")%string
    then filter (matchesSearch searchQuery) filtered
    else filtered in
  if negb (selectedCategory =? "all")%string
  then filter (fun product =>
                 (categoryNameOf categoriesList product =? selectedCategory)%string)
              filtered
  else filtered.

Fixpoint insertString (s : string) (sorted : list string) : list string :=
  match sorted with
  | [] => [s]
  | next :: rest =>
      if codeUnitLeb s next then s :: next :: rest
      else next :: insertString s rest
  end.

Definition getCategoryOptions (categoriesList : list Category.t)
    (productsList : list CatalogProduct.t) : list string :=
  fold_right insertString []
             (distinct (map (categoryNameOf categoriesList) productsList)).

End ProductList.

(** The stock badge next to a product of the list. *)
Inductive StockBadge : Type := badge_red | badge_orange | badge_green.

Definition stockBadge (product : Product.t) : StockBadge :=
  if Product.stock product <=? Product.minStock product then badge_red
  else if Product.stock product <=? Product.minStock product * 2 then badge_orange
  else badge_green.

(** ** The routes of the application (App.tsx) *)

Module Page.
Inductive t : Type :=
| ManagerDashboard
| Dashboard
| Orders
| Tables
| Credits
| SalesHistory
| Inventory
| Login
| NotFound
| Loading.
End Page.

(** [cleanLocation]: the location without its single and double quote
    characters (code units 39 and 34), the [replace] with a global pattern. *)
Fixpoint cleanLocation (location : string) : string :=
  match location with
  | EmptyString => EmptyString
  | String c rest =>
      if ((c =? "039")%char || (c =? "034")%char)%bool then cleanLocation rest
      else String c (cleanLocation rest)
  end.

(** The page [AuthenticatedRoutes] renders for a user of the given role, and
    the path of the [window.location.replace] it schedules, if any. *)
Definition AuthenticatedRoutes (role : string) (location : string)
  : Page.t * option string :=
  let cleanLocation := cleanLocation location in
  let isManager := (role =? "manager")%string in
  let home := if isManager then Page.ManagerDashboard else Page.Dashboard in
  if ((cleanLocation =? "/") || (cleanLocation =? "/dashboard"))%string then
    (home, None)
  else if (cleanLocation =? "/manager")%string then
    if isManager then (Page.ManagerDashboard, None)
    else (Page.Dashboard, Some "/dashboard"%string)
  else if (cleanLocation =? "/login")%string then
    (home, Some (if isManager then "/manager" else "/dashboard")%string)
  else if (cleanLocation =? "/orders")%string then
    if isManager then (Page.ManagerDashboard, Some "/manager"%string)
    else (Page.Orders, None)
  else if (cleanLocation =? "/tables")%string then
    if isManager then (Page.ManagerDashboard, Some "/manager"%string)
    else (Page.Tables, None)
  else if (cleanLocation =? "/credits")%string then
    if isManager then (Page.ManagerDashboard, None) else (Page.Credits, None)
  else if (cleanLocation =? "/sales-history")%string then
    (Page.SalesHistory, None)
  else if (cleanLocation =? "/inventory")%string then
    if negb isManager then (Page.Dashboard, Some "/dashboard"%string)
    else (Page.Inventory, None)
  else if (cleanLocation =? "/payments")%string then
    (home, None)
  else if (cleanLocation =? "/stats")%string then
    if isManager then (Page.ManagerDashboard, None) else (Page.Dashboard, None)
  else (Page.NotFound, None).

(** What [useAuth] returns; [user] is the role of the loaded user. *)
Module Auth.
Record t : Type := mk {
  isAuthenticated : bool;
  isLoading : bool;
  user : option string
}.
End Auth.

(** [Router], then [AuthenticatedApp]. *)
Definition Router (auth : Auth.t) (location : string) : Page.t * option string :=
  if Auth.isLoading auth then (Page.Loading, None)
  else if negb (Auth.isAuthenticated auth) then
    (Page.Login,
     if negb (location =? "/login")%string then Some "/login"%string else None)
  else
    match Auth.user auth with
    | None => (Page.Loading, None)
    | Some role => AuthenticatedRoutes role location
    end.

(** ** The server (server/index.ts, server/db.ts) *)

(** The cut of a log line, a sequence of UTF-16 code units:
    [if (logLine.length > 80) logLine = logLine.slice(0, 79) + "…"]. *)
Definition truncateLogLine {unit : Type} (ellipsis : unit) (logLine : list unit)
  : list unit :=
  if (80 <? List.length logLine)%nat then firstn 79 logLine ++ [ellipsis]
  else logLine.

Module ServerError.
Record t : Type := mk {
  code : option string;
  name : option string;
  message : string
}.
End ServerError.

Module ErrorResponse.
Record t : Type := mk {
  status : Z;
  message : string;
  error : string
}.
End ErrorResponse.

Definition fieldIs (field : option string) (value : string) : bool :=
  match field with
  | Some s => (s =? value)%string
  | None => false
  end.

(** The error-handling middleware. *)
Definition errorHandler (isProduction : bool) (err : ServerError.t) : ErrorResponse.t :=
  if fieldIs (ServerError.code err) "ECONNREFUSED" then
    ErrorResponse.mk 503 "Database connection failed" "Service temporarily unavailable"
  else if fieldIs (ServerError.name err) "ValidationError" then
    ErrorResponse.mk 400 "Validation failed" (ServerError.message err)
  else
    ErrorResponse.mk 500 "Internal server error"
      (if isProduction then "Something went wrong"%string
       else ServerError.message err).

(** The module state of db.ts: the shutdown flag, and how often [pool.end]
    was called. *)
Module Db.
Record t : Type := mk {
  isShuttingDown : bool;
  endCalls : nat
}.
End Db.

Definition dbStart : Db.t := Db.mk false 0.

(** [getPool]: [None] is the thrown error. *)
Definition getPool (db : Db.t) : option unit :=
  if Db.isShuttingDown db then None else Some tt.

(** [shutdownPool]; [endFails] tells whether [pool.end()] rejects, in which
    case the error is thrown again: the [false] of the result. *)
Definition shutdownPool (endFails : bool) (db : Db.t) : Db.t * bool :=
  if Db.isShuttingDown db then (db, true)
  else (Db.mk true (S (Db.endCalls db)), negb endFails).

Inductive DbCall : Type :=
| callGetPool
| callShutdownPool (endFails : bool).

Definition dbStep (db : Db.t) (call : DbCall) : Db.t :=
  match call with
  | callGetPool => db
  | callShutdownPool endFails => fst (shutdownPool endFails db)
  end.

Definition dbRun (calls : list DbCall) : Db.t := fold_left dbStep calls dbStart.

(** ** The inventory page (pages/Inventory.tsx) *)

Module InventoryProduct.
Record t : Type := mk {
  id : Z;
  stock : option Z;
  minStock : option Z;
  maxStock : option Z
}.
End InventoryProduct.

Inductive StockStatus : Type := stock_unknown | stock_low | stock_high | stock_medium.

(** [getStockStatus]; [reachesFourFifths stock maxStock] is the floating-point
    test [stock >= maxStock * 0.8]. *)
Definition getStockStatus (reachesFourFifths : Z -> Z -> bool)
    (product : InventoryProduct.t) : StockStatus :=
  match InventoryProduct.stock product with
  | None => stock_unknown
  | Some stock =>
      if match InventoryProduct.minStock product with
         | Some minStock => stock <=? minStock
         | None => false
         end
      then stock_low
      else if match InventoryProduct.maxStock product with
              | Some maxStock => reachesFourFifths stock maxStock
              | None => false
              end
      then stock_high
      else stock_medium
  end.

Definition lowStockProducts (products : list InventoryProduct.t)
  : list InventoryProduct.t :=
  filter (fun product =>
            match InventoryProduct.stock product, InventoryProduct.minStock product with
            | Some stock, Some minStock => stock <=? minStock
            | _, _ => false
            end)
         products.

(** ** JavaScript numbers

    A JavaScript number is an IEEE 754 double.  [spec_float] at precision 53
    and maximal exponent 1024 is the standard library's executable
    specification of that format, with rounding to nearest, ties to even. *)

From Stdlib Require Import SpecFloat.

Definition double : Type := spec_float.

(** The double nearest to an integer (the integer itself below 2^53). *)
Definition doubleOfZ (z : Z) : double := binary_normalize 53 1024 z 0 false.

(** *** [parseFloat]

    Leading white space, an optional sign, then [Infinity] or the longest
    decimal literal ([digits], [digits.digits], [.digits], each with an
    optional exponent); [NaN] when there is none; what follows the literal is
    ignored.  The literal is rounded once, to the nearest double.  Only the
    ASCII white space is skipped. *)

Definition isWhiteSpace (c : ascii) : bool :=
  let n := nat_of_ascii c in
  ((9 <=? n) && (n <=? 13))%nat || (n =? 32)%nat.

Fixpoint skipWhiteSpace (s : string) : string :=
  match s with
  | String c rest => if isWhiteSpace c then skipWhiteSpace rest else s
  | EmptyString => s
  end.

(** The digits at the head of [s], appended to [value]: the new value, the
    number of digits read so far, and what follows them. *)
Fixpoint readDigits (s : string) (value : Z) (count : Z) : Z * Z * string :=
  match s with
  | String c rest =>
      match digitOf c with
      | Some d => readDigits rest (10 * value + d) (count + 1)
      | None => (value, count, s)
      end
  | EmptyString => (value, count, s)
  end.

(** The exponent part at the head of [s], 0 when there is none. *)
Definition readExponent (s : string) : Z :=
  match s with
  | String c rest =>
      if ((c =? "e") || (c =? "E"))%char then
        match rest with
        | String "-" rest' => let '(value, _, _) := readDigits rest' 0 0 in - value
        | String "+" rest' => let '(value, _, _) := readDigits rest' 0 0 in value
        | _ => let '(value, _, _) := readDigits rest 0 0 in value
        end
      else 0
  | EmptyString => 0
  end.

(** The double nearest to [mantissa * 10 ^ exponent]. *)
Definition decimalToDouble (negative : bool) (mantissa exponent : Z) : double :=
  match mantissa with
  | Zpos m =>
      match exponent with
      | Zneg e =>
          SFdiv 53 1024 (S754_finite negative m 0)
                        (S754_finite false (Pos.pow 10 e) 0)
      | _ => binary_normalize 53 1024
               (cond_Zopp negative (mantissa * 10 ^ exponent)) 0 negative
      end
  | _ => S754_zero negative
  end.

Definition readUnsigned (negative : bool) (s : string) : double :=
  if startsWith s "Infinity" then S754_infinity negative
  else
    let '(whole, wholeCount, rest) := readDigits s 0 0 in
    match rest with
    | String "." afterPoint =>
        let '(mantissa, count, rest') := readDigits afterPoint whole wholeCount in
        if count =? 0 then S754_nan
        else decimalToDouble negative mantissa
                             (readExponent rest' - (count - wholeCount))
    | _ =>
        if wholeCount =? 0 then S754_nan
        else decimalToDouble negative whole (readExponent rest)
    end.

Definition parseFloatDouble (s : string) : double :=
  match skipWhiteSpace s with
  | String "-" rest => readUnsigned true rest
  | String "+" rest => readUnsigned false rest
  | rest => readUnsigned false rest
  end.

#[export] Instance doubleArith : JsArith double := {
  num_zero := S754_zero false;
  num_add := SFadd 53 1024;
  num_mul := SFmul 53 1024;
  num_of_int := doubleOfZ;
  parseFloat := parseFloatDouble
}.

(** The rational a finite double stands for. *)
Definition doubleValue (x : double) : option Q :=
  match x with
  | S754_zero _ => Some 0%Q
  | S754_finite negative m e =>
      Some (inject_Z (cond_Zopp negative (Zpos m)) * Qpower 2 e)%Q
  | _ => None
  end.

(** *** Whole prices

    What the claims call "the sum of price x quantity", for lines whose price
    reads as a whole number of currency units: [priceOf] gives the units. *)
Definition exactSum (priceOf : string -> Z) (items : list Item.t) : Z :=
  fold_right Z.add 0
             (map (fun it => priceOf (Item.price it) * Item.quantity it) items).

Definition wholeLine (priceOf : string -> Z) (it : Item.t) : Prop :=
  parseFloat (Item.price it) = doubleOfZ (priceOf (Item.price it))
  /\ 0 <= priceOf (Item.price it) < 2 ^ 53
  /\ 0 <= Item.quantity it < 2 ^ 53.

(** *** The occupancy figure on doubles

    [Math.round(occupied / denominator * 100)] as the engine computes it:
    the quotient is rounded to a double, the product is rounded again, and
    [Math.round] takes the integer nearest to that double, halves going up. *)
Definition mathRoundDouble (x : double) : double :=
  match x with
  | S754_finite negative m e =>
      let rounded :=
        match e with
        | Zneg shift =>
            (2 * cond_Zopp negative (Zpos m) + 2 ^ Zpos shift) / 2 ^ (Zpos shift + 1)
        | _ => cond_Zopp negative (Zpos m) * 2 ^ e
        end in
      binary_normalize 53 1024 rounded 0 negative
  | other => other
  end.

Definition percentOnDoubles (occupied denominator : Z) : double :=
  mathRoundDouble
    (SFmul 53 1024
       (SFdiv 53 1024 (doubleOfZ occupied) (doubleOfZ denominator))
       (doubleOfZ 100)).

Definition occupancyPercentDouble (sessionStats : option SessionStats.t) : double :=
  percentOnDoubles (orNumber (optField sessionStats SessionStats.occupiedTables) 0)
                   (occupancyDenominator sessionStats).

(** The integer nearest to [100 * occupied / total], halves going up, and
    whether [100 * occupied / total] lies halfway between two integers. *)
Definition nearestPercent (occupied total : Z) : Z :=
  (200 * occupied + total) / (2 * total).

Definition halfwayPercent (occupied total : Z) : bool :=
  (200 * occupied + total) mod (2 * total) =? 0.

Definition sameDouble (x y : double) : bool :=
  match x, y with
  | S754_zero a, S754_zero b => Bool.eqb a b
  | S754_infinity a, S754_infinity b => Bool.eqb a b
  | S754_nan, S754_nan => true
  | S754_finite a m e, S754_finite b m' e' =>
      Bool.eqb a b && Pos.eqb m m' && Z.eqb e e'
  | _, _ => false
  end.

(** The percentage the doubles give, when it is the nearest integer or, on a
    halfway value, the integer below. *)
Definition percentShown (occupied total : Z) : option Z :=
  let shown := percentOnDoubles occupied total in
  let nearest := nearestPercent occupied total in
  if sameDouble shown (doubleOfZ nearest) then Some nearest
  else if halfwayPercent occupied total && sameDouble shown (doubleOfZ (nearest - 1))
       then Some (nearest - 1)
       else None.

(** Every room of at most [most] tables, at every occupancy. *)
Definition tablesChecked (most : nat) : bool :=
  forallb (fun total =>
             forallb (fun occupied =>
                        match percentShown (Z.of_nat occupied) (Z.of_nat (S total)) with
                        | Some _ => true
                        | None => false
                        end)
                     (seq 0 (S (S total))))
          (seq 0 most).

(** ** More sample data *)

(** A product sold for a tenth of a currency unit. *)
Definition gum : Product.t := Product.mk 13 "Pastilha" "0.10" 50 10.

Definition sampleCategories : list Category.t :=
  [Category.mk 1 "Bebidas"; Category.mk 2 ""].

Definition sampleCatalog : list CatalogProduct.t :=
  [CatalogProduct.mk beer None (Some 1);
   CatalogProduct.mk juice (Some "Sumo de laranja"%string) None;
   CatalogProduct.mk wine None (Some 1)].


(** * Properties *)

(** ** Arrays *)

Lemma find_existsb {A : Type} (p : A -> bool) (l : list A) :
  existsb p l = true <-> exists x, find p l = Some x.
Proof.
  induction l as [| y l IH]; simpl.
  - split; [discriminate | intros [x Hx]; discriminate].
  - destruct (p y) eqn:Hy; simpl.
    + split; [intros _; now exists y | reflexivity].
    + exact IH.
Qed.

Lemma find_None_existsb {A : Type} (p : A -> bool) (l : list A) :
  existsb p l = false <-> find p l = None.
Proof.
  induction l as [| y l IH]; simpl.
  - tauto.
  - destruct (p y); simpl; [split; discriminate | exact IH].
Qed.

Section OrderFlowFacts.

Context {number : Type} `{JsArith number}.

Lemma isPendingFor_spec (tableId : Z) (order : Order.t) :
  isPendingFor tableId order = true
  <-> Order.tableId order = tableId /\ Order.status order = "pending".
Proof.
  unfold isPendingFor. rewrite andb_true_iff, Z.eqb_eq, String.eqb_eq. tauto.
Qed.

(** *** What [handleSubmitOrder] puts in a merge request *)

Lemma first_loop (l : list CartLine.t) (acc : list Item.t) :
  fold_left (fun acc item => acc ++ [toItem item]) l acc = acc ++ map toItem l.
Proof.
  revert acc. induction l as [| item l IH]; intros acc; simpl.
  - now rewrite app_nil_r.
  - rewrite IH, <- app_assoc. reflexivity.
Qed.

Lemma second_loop (existingOrder : Order.t) (l : list CartLine.t) (acc : list Item.t) :
  fold_left
    (fun acc item =>
       match findExisting existingOrder item with
       | Some existingItem =>
           if negb (CartLine.quantity item =? OrderItem.quantity existingItem)
           then acc ++ [toItem item]
           else acc
       | None => acc
       end) l acc
  = acc ++ map toItem (filter (quantityChanged existingOrder) l).
Proof.
  revert acc. induction l as [| item l IH]; intros acc; simpl.
  - now rewrite app_nil_r.
  - rewrite IH. unfold quantityChanged at 2.
    destruct (findExisting existingOrder item) as [existingItem |];
      [ destruct (negb (CartLine.quantity item =? OrderItem.quantity existingItem)) | ];
      simpl; [now rewrite <- app_assoc | reflexivity | reflexivity].
Qed.

Lemma itemsToAdd_eq (existingOrder : Order.t) (orderItems : list CartLine.t) :
  itemsToAdd existingOrder orderItems
  = map toItem (newItems existingOrder orderItems)
    ++ map toItem (filter (quantityChanged existingOrder)
                          (updatedItems existingOrder orderItems)).
Proof.
  unfold itemsToAdd. rewrite first_loop, second_loop. reflexivity.
Qed.

End OrderFlowFacts.

Section MergeFacts.

Context {number : Type} `{JsArith number}.

Lemma quantityOf_cons (productId : Z) (it : Item.t) (items : list Item.t) :
  quantityOf productId (it :: items)
  = if Item.productId it =? productId then Some (Item.quantity it)
    else quantityOf productId items.
Proof.
  unfold quantityOf. simpl. now destruct (Item.productId it =? productId).
Qed.

Lemma quantityOf_None (productId : Z) (items : list Item.t) :
  quantityOf productId items = None
  <-> forall it, In it items -> Item.productId it <> productId.
Proof.
  induction items as [| it items IH].
  - split; [intros _ it [] | reflexivity].
  - rewrite quantityOf_cons. destruct (Z.eqb_spec (Item.productId it) productId) as [Heq | Hne].
    + split; [discriminate | intros Hall; exfalso; apply (Hall it); [now left | exact Heq]].
    + rewrite IH. split.
      * intros Hall it' [<- | Hin]; [exact Hne | now apply Hall].
      * intros Hall it' Hin. apply Hall. now right.
Qed.

Lemma quantityOf_app (productId : Z) (l1 l2 : list Item.t) :
  quantityOf productId (l1 ++ l2)
  = match quantityOf productId l1 with
    | Some q => Some q
    | None => quantityOf productId l2
    end.
Proof.
  induction l1 as [| it l1 IH]; [reflexivity |].
  simpl app. rewrite !quantityOf_cons.
  now destruct (Item.productId it =? productId).
Qed.

Lemma existsb_sameProduct (line : Item.t) (items : list Item.t) :
  existsb (sameProduct line) items = false
  <-> quantityOf (Item.productId line) items = None.
Proof.
  induction items as [| it items IH]; [simpl; tauto |].
  rewrite quantityOf_cons. simpl. unfold sameProduct at 1.
  destruct (Item.productId it =? Item.productId line); simpl;
    [split; discriminate | exact IH].
Qed.

(** After one line is merged, a line with a positive quantity holds exactly
    that quantity. *)
Lemma quantityOf_mergeLine_same (items : list Item.t) (line : Item.t) :
  0 < Item.quantity line ->
  quantityOf (Item.productId line) (mergeLine items line)
  = Some (Item.quantity line).
Proof.
  intros Hpos. unfold mergeLine.
  destruct (Z.leb_spec (Item.quantity line) 0) as [Hle | _]; [lia |].
  destruct (existsb (sameProduct line) items) eqn:Hex.
  - induction items as [| it items IH]; [discriminate |].
    simpl in Hex |- *. rewrite quantityOf_cons.
    destruct (sameProduct line it) eqn:Hs; simpl in Hex |- *.
    + unfold sameProduct in Hs. rewrite Hs. reflexivity.
    + unfold sameProduct in Hs. rewrite Hs. apply IH. exact Hex.
  - rewrite quantityOf_app. apply existsb_sameProduct in Hex. rewrite Hex.
    rewrite quantityOf_cons, Z.eqb_refl. reflexivity.
Qed.

(** A line with a quantity of 0 or less leaves no line for its product. *)
Lemma mergeLine_removes (items : list Item.t) (line it : Item.t) :
  Item.quantity line <= 0 ->
  In it (mergeLine items line) -> Item.productId it <> Item.productId line.
Proof.
  intros Hle. unfold mergeLine.
  destruct (Z.leb_spec (Item.quantity line) 0) as [_ | Hgt]; [| lia].
  rewrite filter_In. unfold sameProduct. intros [_ Hne].
  apply negb_true_iff, Z.eqb_neq in Hne. exact Hne.
Qed.

(** Merging a line does not touch the quantity of any other product. *)
Lemma quantityOf_mergeLine_other (items : list Item.t) (line : Item.t) (productId : Z) :
  productId <> Item.productId line ->
  quantityOf productId (mergeLine items line) = quantityOf productId items.
Proof.
  intros Hne. unfold mergeLine.
  destruct (Item.quantity line <=? 0); [| destruct (existsb (sameProduct line) items)].
  - induction items as [| it items IH]; [reflexivity |].
    simpl. unfold sameProduct at 1.
    destruct (Z.eqb_spec (Item.productId it) (Item.productId line)) as [Heq | Hne']; simpl.
    + rewrite IH, quantityOf_cons.
      destruct (Z.eqb_spec (Item.productId it) productId); [congruence | reflexivity].
    + rewrite !quantityOf_cons, IH. reflexivity.
  - induction items as [| it items IH]; [reflexivity |].
    simpl. rewrite !quantityOf_cons, IH. unfold sameProduct.
    destruct (Z.eqb_spec (Item.productId it) (Item.productId line)) as [Heq | Hne']; simpl.
    + destruct (Z.eqb_spec (Item.productId it) productId); [congruence | reflexivity].
    + reflexivity.
  - rewrite quantityOf_app. destruct (quantityOf productId items); [reflexivity |].
    rewrite quantityOf_cons.
    destruct (Z.eqb_spec (Item.productId line) productId); [congruence | reflexivity].
Qed.

Lemma quantityOf_mergeItems_other (cart items : list Item.t) (productId : Z) :
  (forall line, In line cart -> Item.productId line <> productId) ->
  quantityOf productId (mergeItems items cart) = quantityOf productId items.
Proof.
  unfold mergeItems. revert items.
  induction cart as [| line cart IH]; intros items Hall; simpl; [reflexivity |].
  rewrite IH.
  - apply quantityOf_mergeLine_other. intros Heq. apply (Hall line); [now left | now symmetry].
  - intros line' Hin. apply Hall. now right.
Qed.

(** With one line per product in the request, the merged order holds each
    requested product at the requested quantity. *)
Lemma quantityOf_mergeItems_same (cart items : list Item.t) (line : Item.t) :
  NoDup (map Item.productId cart) ->
  In line cart ->
  0 < Item.quantity line ->
  quantityOf (Item.productId line) (mergeItems items cart)
  = Some (Item.quantity line).
Proof.
  unfold mergeItems. revert items.
  induction cart as [| first cart IH]; intros items Hnodup Hin Hpos; [destruct Hin |].
  simpl in Hnodup |- *. inversion Hnodup as [| ? ? Hfresh Hrest]; subst.
  destruct Hin as [-> | Hin].
  - change (fold_left mergeLine cart (mergeLine items line))
      with (mergeItems (mergeLine items line) cart).
    rewrite quantityOf_mergeItems_other.
    + now apply quantityOf_mergeLine_same.
    + intros line' Hin' Heq. apply Hfresh. rewrite <- Heq. now apply in_map.
  - now apply IH.
Qed.

Lemma quantityOf_mergeItems_removed (cart items : list Item.t) (line : Item.t) :
  NoDup (map Item.productId cart) ->
  In line cart ->
  Item.quantity line <= 0 ->
  quantityOf (Item.productId line) (mergeItems items cart) = None.
Proof.
  unfold mergeItems. revert items.
  induction cart as [| first cart IH]; intros items Hnodup Hin Hle; [destruct Hin |].
  simpl in Hnodup |- *. inversion Hnodup as [| ? ? Hfresh Hrest]; subst.
  destruct Hin as [-> | Hin].
  - change (fold_left mergeLine cart (mergeLine items line))
      with (mergeItems (mergeLine items line) cart).
    rewrite quantityOf_mergeItems_other.
    + apply quantityOf_None. intros it Hit. now apply (mergeLine_removes items).
    + intros line' Hin' Heq. apply Hfresh. rewrite <- Heq. now apply in_map.
  - now apply IH.
Qed.

End MergeFacts.

Section SubmitFacts.

Context {number : Type} `{JsArith number}.

Lemma findExisting_includes (existingOrder : Order.t) (item : CartLine.t) :
  includes (existingProductIds existingOrder) (Product.id (CartLine.product item)) = true
  <-> exists existingItem, findExisting existingOrder item = Some existingItem.
Proof.
  unfold includes, existingProductIds, findExisting.
  induction (Order.items existingOrder) as [| e l IH]; simpl.
  - split; [discriminate | intros [e He]; discriminate].
  - rewrite (Z.eqb_sym (Product.id (CartLine.product item))).
    destruct (Product.id (OrderItem.product e) =? Product.id (CartLine.product item));
      simpl; [split; [intros _; now exists e | reflexivity] | exact IH].
Qed.

Lemma findExisting_same_product (existingOrder : Order.t) (item item' : CartLine.t) :
  Product.id (CartLine.product item) = Product.id (CartLine.product item') ->
  findExisting existingOrder item = findExisting existingOrder item'.
Proof. unfold findExisting. now intros ->. Qed.

(** Membership in the request body: exactly the new lines and the lines whose
    quantity differs from the stored one. *)
Lemma itemsToAdd_In (existingOrder : Order.t) (orderItems : list CartLine.t) (it : Item.t) :
  In it (itemsToAdd existingOrder orderItems)
  <-> exists item,
        In item orderItems /\ it = toItem item
        /\ (includes (existingProductIds existingOrder)
                     (Product.id (CartLine.product item)) = false
            \/ quantityChanged existingOrder item = true).
Proof.
  rewrite itemsToAdd_eq, in_app_iff, !in_map_iff. unfold newItems, updatedItems.
  split.
  - intros [[item [<- Hin]] | [item [<- Hin]]]; exists item.
    + apply filter_In in Hin. destruct Hin as [Hin Hnew].
      apply negb_true_iff in Hnew. auto.
    + apply filter_In in Hin. destruct Hin as [Hin Hch].
      apply filter_In in Hin. destruct Hin as [Hin _]. auto.
  - intros [item [Hin [-> [Hnew | Hch]]]].
    + left. exists item. split; [reflexivity |].
      apply filter_In. split; [exact Hin | now rewrite Hnew].
    + right. exists item. split; [reflexivity |].
      apply filter_In. split; [| exact Hch].
      apply filter_In. split; [exact Hin |].
      apply findExisting_includes. unfold quantityChanged in Hch.
      destruct (findExisting existingOrder item) as [e |]; [now exists e | discriminate].
Qed.

(** With a table and a client type chosen and a pending order found for the
    table, the request carries [itemsToAdd], or nothing is requested. *)
Lemma submit_on_existing (ordersList : list Order.t) (orderStep : OrderStep.t)
    (selectedTable : Table.t) (clientType : ClientType) (existingOrder : Order.t) :
  OrderStep.selectedTable orderStep = Some selectedTable ->
  OrderStep.clientType orderStep = Some clientType ->
  find (isPendingFor (Table.id selectedTable)) ordersList = Some existingOrder ->
  handleSubmitOrder ordersList orderStep
  = match OrderStep.orderItems orderStep with
    | [] => toast validationToast
    | _ :: _ =>
        match itemsToAdd existingOrder (OrderStep.orderItems orderStep) with
        | [] => toast nothingNewToast
        | _ :: _ =>
            addItemsToOrderMutation
              (Order.id existingOrder)
              (itemsToAdd existingOrder (OrderStep.orderItems orderStep))
        end
    end.
Proof.
  intros Htable Htype Hfind. unfold handleSubmitOrder.
  rewrite Htable, Htype, Hfind.
  destruct (OrderStep.orderItems orderStep) as [| item rest]; [reflexivity |].
  cbn [List.length Nat.eqb].
  now destruct (itemsToAdd existingOrder (item :: rest)).
Qed.

Lemma requestedItems_on_existing (ordersList : list Order.t) (orderStep : OrderStep.t)
    (selectedTable : Table.t) (clientType : ClientType) (existingOrder : Order.t) :
  OrderStep.selectedTable orderStep = Some selectedTable ->
  OrderStep.clientType orderStep = Some clientType ->
  find (isPendingFor (Table.id selectedTable)) ordersList = Some existingOrder ->
  requestedItems (handleSubmitOrder ordersList orderStep)
  = itemsToAdd existingOrder (OrderStep.orderItems orderStep).
Proof.
  intros Htable Htype Hfind.
  rewrite (submit_on_existing _ _ _ _ _ Htable Htype Hfind).
  destruct (OrderStep.orderItems orderStep) as [| item rest]; [reflexivity |].
  now destruct (itemsToAdd existingOrder (item :: rest)).
Qed.

(** Nothing is written unless a table, a client type and a cart line exist. *)
Lemma submit_write_inputs (ordersList : list Order.t) (orderStep : OrderStep.t) :
  isWrite (handleSubmitOrder ordersList orderStep) = true ->
  OrderStep.selectedTable orderStep <> None
  /\ OrderStep.clientType orderStep <> None
  /\ OrderStep.orderItems orderStep <> [].
Proof.
  unfold handleSubmitOrder.
  destruct (OrderStep.selectedTable orderStep) as [selectedTable |];
    [| discriminate].
  destruct (OrderStep.clientType orderStep) as [clientType |]; [| discriminate].
  destruct (OrderStep.orderItems orderStep) as [| item rest]; [discriminate |].
  intros _. repeat split; discriminate.
Qed.

End SubmitFacts.

(** ** Lists with one element per key *)

Section Keys.

Context {A K : Type} (key : A -> K).

Lemma filter_keeps_distinct_keys (keep : A -> bool) (items : list A) :
  NoDup (map key items) -> NoDup (map key (filter keep items)).
Proof.
  induction items as [| x items IH]; simpl; intros Hnd; [constructor |].
  inversion Hnd as [| ? ? Hfresh Hrest]; subst.
  destruct (keep x); simpl; [constructor |]; auto.
  intros Hin. apply Hfresh. apply in_map_iff in Hin.
  destruct Hin as [y [Hy Hin]]. apply filter_In in Hin.
  apply in_map_iff. exists y. tauto.
Qed.

Lemma distinct_keys_injective (items : list A) (x y : A) :
  NoDup (map key items) -> In x items -> In y items -> key x = key y -> x = y.
Proof.
  induction items as [| z items IH]; simpl; intros Hnd Hx Hy Heq; [destruct Hx |].
  inversion Hnd as [| ? ? Hfresh Hrest]; subst.
  destruct Hx as [-> | Hx], Hy as [-> | Hy]; auto.
  - exfalso. apply Hfresh. rewrite Heq. now apply in_map.
  - exfalso. apply Hfresh. rewrite <- Heq. now apply in_map.
Qed.

End Keys.

Section EndToEnd.

Context {number : Type} `{JsArith number}.

(** A cart with one line per product gives a request with one line per
    product. *)
Lemma itemsToAdd_NoDup (existingOrder : Order.t) (orderItems : list CartLine.t) :
  NoDup (map lineProductId orderItems) ->
  NoDup (map Item.productId (itemsToAdd existingOrder orderItems)).
Proof.
  intros Hnd. rewrite itemsToAdd_eq, map_app, !map_map.
  change (fun x : CartLine.t => Item.productId (toItem x)) with lineProductId.
  unfold newItems, updatedItems. apply NoDup_app.
  - now apply filter_keeps_distinct_keys.
  - now apply filter_keeps_distinct_keys, filter_keeps_distinct_keys.
  - intros a Hnew Hupd. apply in_map_iff in Hnew, Hupd.
    destruct Hnew as [x [<- Hx]], Hupd as [y [Hxy Hy]].
    apply filter_In in Hx. apply filter_In in Hy. destruct Hy as [Hy _].
    apply filter_In in Hy. destruct Hx as [_ Hx], Hy as [_ Hy].
    unfold lineProductId in Hxy. rewrite Hxy in Hy. rewrite Hy in Hx. discriminate.
Qed.

Lemma quantityOf_storedItems (existingOrder : Order.t) (item : CartLine.t) :
  quantityOf (lineProductId item) (storedItems existingOrder)
  = option_map OrderItem.quantity (findExisting existingOrder item).
Proof.
  unfold storedItems, findExisting, lineProductId.
  induction (Order.items existingOrder) as [| e l IH]; [reflexivity |].
  simpl map. rewrite quantityOf_cons. simpl.
  destruct (Product.id (OrderItem.product e) =? Product.id (CartLine.product item));
    [reflexivity | exact IH].
Qed.

(** The request, applied by the merge of the Order Engine, leaves every
    product of the cart at the cart's quantity. *)
Lemma merged_quantity_is_cart_quantity
    (existingOrder : Order.t) (orderItems : list CartLine.t) (item : CartLine.t) :
  NoDup (map lineProductId orderItems) ->
  In item orderItems ->
  0 < CartLine.quantity item ->
  quantityOf (lineProductId item)
             (mergeItems (storedItems existingOrder)
                         (itemsToAdd existingOrder orderItems))
  = Some (CartLine.quantity item).
Proof.
  intros Hnd Hin Hpos.
  destruct (includes (existingProductIds existingOrder) (lineProductId item)) eqn:Hinc.
  - destruct (proj1 (findExisting_includes existingOrder item) Hinc) as [e He].
    destruct (Z.eqb_spec (CartLine.quantity item) (OrderItem.quantity e)) as [Heq | Hne].
    + (* unchanged: not sent, and the stored line already has the quantity *)
      rewrite quantityOf_mergeItems_other.
      * rewrite quantityOf_storedItems, He. simpl. now rewrite Heq.
      * intros it Hit Hpid. apply itemsToAdd_In in Hit.
        destruct Hit as [item' [Hin' [-> [Hnew | Hch]]]]; simpl in Hpid.
        -- unfold lineProductId in *. rewrite Hpid in Hnew. congruence.
        -- assert (item' = item) as ->
             by (apply (distinct_keys_injective lineProductId orderItems); assumption).
           unfold quantityChanged in Hch. rewrite He in Hch.
           apply negb_true_iff, Z.eqb_neq in Hch. contradiction.
    + apply (quantityOf_mergeItems_same _ _ (toItem item)).
      * now apply itemsToAdd_NoDup.
      * apply itemsToAdd_In. exists item. repeat split; [assumption |].
        right. unfold quantityChanged. rewrite He.
        now apply negb_true_iff, Z.eqb_neq.
      * exact Hpos.
  - apply (quantityOf_mergeItems_same _ _ (toItem item)).
    + now apply itemsToAdd_NoDup.
    + apply itemsToAdd_In. exists item. repeat split; [assumption |]. now left.
    + exact Hpos.
Qed.

(** C1 (amended). When a cart is submitted against a table that already has
    a pending order, the merge request carries, at the cart's quantity taken as
    the new absolute quantity, every cart line whose product is not yet on the
    order and every cart line whose product is on the order at a different
    quantity; a line whose quantity equals the stored one is not sent.  Every
    line sent is a cart line, verbatim (never a difference), and once the
    request is merged each product of the cart stands at the cart's quantity:
    a cart with P at 3 against an order with P at 5 gives P at 3. *)
Theorem merge_request_carries_absolute_quantities
    (ordersList : list Order.t) (orderStep : OrderStep.t)
    (selectedTable : Table.t) (clientType : ClientType) (existingOrder : Order.t) :
  OrderStep.selectedTable orderStep = Some selectedTable ->
  OrderStep.clientType orderStep = Some clientType ->
  find (isPendingFor (Table.id selectedTable)) ordersList = Some existingOrder ->
  let sent := requestedItems (handleSubmitOrder ordersList orderStep) in
  (forall item,
      In item (OrderStep.orderItems orderStep) ->
      includes (existingProductIds existingOrder) (lineProductId item) = false ->
      In (toItem item) sent)
  /\ (forall item existingItem,
         In item (OrderStep.orderItems orderStep) ->
         findExisting existingOrder item = Some existingItem ->
         CartLine.quantity item <> OrderItem.quantity existingItem ->
         In (toItem item) sent)
  /\ (forall item existingItem,
         In item (OrderStep.orderItems orderStep) ->
         findExisting existingOrder item = Some existingItem ->
         CartLine.quantity item = OrderItem.quantity existingItem ->
         ~ In (toItem item) sent)
  /\ (forall it, In it sent ->
         exists item, In item (OrderStep.orderItems orderStep) /\ it = toItem item)
  /\ (sent <> [] ->
      handleSubmitOrder ordersList orderStep
      = addItemsToOrderMutation (Order.id existingOrder) sent)
  /\ (NoDup (map lineProductId (OrderStep.orderItems orderStep)) ->
      forall item,
        In item (OrderStep.orderItems orderStep) ->
        0 < CartLine.quantity item ->
        quantityOf (lineProductId item)
                   (mergeItems (storedItems existingOrder) sent)
        = Some (CartLine.quantity item)).
Proof.
  intros Htable Htype Hfind sent. subst sent.
  rewrite (requestedItems_on_existing _ _ _ _ _ Htable Htype Hfind).
  repeat split.
  - intros item Hin Hnew. apply itemsToAdd_In. exists item. auto.
  - intros item e Hin He Hne. apply itemsToAdd_In. exists item.
    repeat split; [assumption |]. right. unfold quantityChanged. rewrite He.
    now apply negb_true_iff, Z.eqb_neq.
  - intros item e Hin He Heq Hsent. apply itemsToAdd_In in Hsent.
    destruct Hsent as [item' [Hin' [Hitem [Hnew | Hch]]]].
    + assert (Hpid : lineProductId item = lineProductId item')
        by (unfold lineProductId;
            change (Item.productId (toItem item) = Item.productId (toItem item'));
            now rewrite Hitem).
      unfold lineProductId in Hpid. rewrite <- Hpid in Hnew.
      assert (Hinc : includes (existingProductIds existingOrder)
                              (Product.id (CartLine.product item)) = true)
        by (apply findExisting_includes; now exists e).
      congruence.
    + assert (Hpid : Product.id (CartLine.product item') = Product.id (CartLine.product item))
        by (change (Item.productId (toItem item') = Item.productId (toItem item)); now rewrite Hitem).
      assert (Hq : CartLine.quantity item' = CartLine.quantity item)
        by (change (Item.quantity (toItem item') = Item.quantity (toItem item)); now rewrite Hitem).
      unfold quantityChanged in Hch.
      rewrite (findExisting_same_product _ _ _ Hpid), He, Hq in Hch.
      apply negb_true_iff, Z.eqb_neq in Hch. contradiction.
  - intros it Hit. apply itemsToAdd_In in Hit.
    destruct Hit as [item [Hin [-> _]]]. now exists item.
  - intros Hsent. rewrite (submit_on_existing _ _ _ _ _ Htable Htype Hfind).
    destruct (OrderStep.orderItems orderStep) as [| item rest].
    + exfalso. apply Hsent. reflexivity.
    + destruct (itemsToAdd existingOrder (item :: rest)); [now exfalso | reflexivity].
  - intros Hnd item Hin Hpos. now apply merged_quantity_is_cart_quantity.
Qed.

End EndToEnd.

(** ** Routing, removal and the no-op merge *)

Section Routing.

Context {number : Type} `{JsArith number}.
Context {strings : JsString}.

(** A merge request names an order of the list that is pending for the
    selected table. *)
Lemma merge_targets_pending_order (ordersList : list Order.t) (orderStep : OrderStep.t)
    (selectedTable : Table.t) (orderId : Z) (items : list Item.t) :
  OrderStep.selectedTable orderStep = Some selectedTable ->
  handleSubmitOrder ordersList orderStep = addItemsToOrderMutation orderId items ->
  exists order,
    In order ordersList /\ Order.id order = orderId
    /\ Order.tableId order = Table.id selectedTable
    /\ Order.status order = "pending"
    /\ items = itemsToAdd order (OrderStep.orderItems orderStep)
    /\ items <> [].
Proof.
  intros Htable. unfold handleSubmitOrder. rewrite Htable.
  destruct (OrderStep.clientType orderStep) as [clientType |]; [| discriminate].
  destruct (List.length (OrderStep.orderItems orderStep) =? 0)%nat; [discriminate |].
  destruct (find (isPendingFor (Table.id selectedTable)) ordersList)
    as [existingOrder |] eqn:Hfind; [| discriminate].
  destruct (itemsToAdd existingOrder (OrderStep.orderItems orderStep))
    as [| it rest] eqn:Hitems; [discriminate |].
  cbn [List.length Nat.ltb Nat.leb]. intros Heq. inversion Heq; subst.
  apply find_some in Hfind. destruct Hfind as [Hin Hpending].
  apply isPendingFor_spec in Hpending. destruct Hpending as [Htid Hstatus].
  exists existingOrder. repeat split; auto. discriminate.
Qed.

(** An order is created only when no order of the list is pending for the
    selected table. *)
Lemma create_needs_no_pending_order (ordersList : list Order.t) (orderStep : OrderStep.t)
    (orderData : OrderData.t number) :
  handleSubmitOrder ordersList orderStep = createOrderMutation orderData ->
  exists selectedTable clientType,
    OrderStep.selectedTable orderStep = Some selectedTable
    /\ OrderStep.clientType orderStep = Some clientType
    /\ find (isPendingFor (Table.id selectedTable)) ordersList = None
    /\ OrderData.tableId orderData = Table.id selectedTable
    /\ OrderData.items orderData = map toItem (OrderStep.orderItems orderStep)
    /\ OrderData.totalAmount orderData = calculateTotal orderStep.
Proof.
  unfold handleSubmitOrder.
  destruct (OrderStep.selectedTable orderStep) as [selectedTable |]; [| discriminate].
  destruct (OrderStep.clientType orderStep) as [clientType |]; [| discriminate].
  destruct (List.length (OrderStep.orderItems orderStep) =? 0)%nat; [discriminate |].
  destruct (find (isPendingFor (Table.id selectedTable)) ordersList)
    as [existingOrder |] eqn:Hfind.
  - destruct (0 <? List.length _)%nat; discriminate.
  - intros Heq. inversion Heq; subst. exists selectedTable, clientType.
    repeat split; auto.
Qed.

Lemma hasPendingOrder_spec (ordersList : list Order.t) (table : Table.t) :
  hasPendingOrder ordersList table = true
  <-> exists order,
        In order ordersList /\ Order.tableId order = Table.id table
        /\ Order.status order = "pending".
Proof.
  unfold hasPendingOrder. rewrite existsb_exists.
  split; intros [order [Hin Hp]]; exists order; split; auto;
    now apply isPendingFor_spec.
Qed.

(** C2. Selecting a table for which some order is pending routes the flow
    into add-items mode against that order: the cart is pre-populated with its
    items and the step is product selection.  Only when no order is pending for
    the table does the client step begin.  With a pending order for the
    selected table, submitting never creates an order; a merge request names a
    pending order of that table. *)
Theorem table_selection_routes_to_pending_order
    (ordersList : list Order.t) (creditClientsList : list CreditClient.t)
    (table : Table.t) (prev : OrderStep.t) :
  let next := fst (handleTableSelection ordersList creditClientsList table prev) in
  (hasPendingOrder ordersList table = true ->
   exists existingOrder,
     find (isPendingFor (Table.id table)) ordersList = Some existingOrder
     /\ In existingOrder ordersList
     /\ Order.tableId existingOrder = Table.id table
     /\ Order.status existingOrder = "pending"
     /\ OrderStep.step next = step_products
     /\ OrderStep.selectedTable next = Some table
     /\ OrderStep.clientType next = Some (inferClientType existingOrder)
     /\ OrderStep.orderItems next
        = map (fun item => {| CartLine.product := OrderItem.product item;
                              CartLine.quantity := OrderItem.quantity item |})
              (Order.items existingOrder))
  /\ (hasPendingOrder ordersList table = false ->
      OrderStep.step next = step_client
      /\ OrderStep.selectedTable next = Some table
      /\ OrderStep.clientType next = OrderStep.clientType prev
      /\ OrderStep.orderItems next = OrderStep.orderItems prev)
  /\ (OrderStep.step next = step_client <-> hasPendingOrder ordersList table = false)
  /\ (forall (orderStep : OrderStep.t) (orderData : OrderData.t number),
         OrderStep.selectedTable orderStep = Some table ->
         hasPendingOrder ordersList table = true ->
         handleSubmitOrder ordersList orderStep <> createOrderMutation orderData)
  /\ (forall (orderStep : OrderStep.t) (orderId : Z) (items : list Item.t),
         OrderStep.selectedTable orderStep = Some table ->
         handleSubmitOrder (number := number) ordersList orderStep
         = addItemsToOrderMutation orderId items ->
         exists order,
           In order ordersList /\ Order.id order = orderId
           /\ Order.tableId order = Table.id table
           /\ Order.status order = "pending").
Proof.
  intros next. subst next. unfold handleTableSelection, hasPendingOrder.
  destruct (find (isPendingFor (Table.id table)) ordersList)
    as [existingOrder |] eqn:Hfind.
  - assert (Hex : existsb (isPendingFor (Table.id table)) ordersList = true)
      by (apply find_existsb; now exists existingOrder).
    rewrite Hex. simpl. repeat split; try discriminate.
    + intros _. destruct (find_some _ _ Hfind) as [Hin Hp].
      apply isPendingFor_spec in Hp. destruct Hp as [Htid Hstatus].
      exists existingOrder. repeat split; auto.
    + intros orderStep orderData Htable _ Hcreate.
      apply create_needs_no_pending_order in Hcreate.
      destruct Hcreate as (t & ct & Ht & _ & Hnone & _).
      rewrite Htable in Ht. inversion Ht; subst. congruence.
    + intros orderStep orderId items Htable Hmerge.
      destruct (merge_targets_pending_order _ _ _ _ _ Htable Hmerge)
        as (order & Hin & Hid & Htid & Hstatus & _).
      exists order. auto.
  - assert (Hex : existsb (isPendingFor (Table.id table)) ordersList = false)
      by now apply find_None_existsb.
    rewrite Hex. simpl. repeat split; try discriminate.
    + intros orderStep orderId items Htable Hmerge.
      destruct (merge_targets_pending_order _ _ _ _ _ Htable Hmerge)
        as (order & Hin & Hid & Htid & Hstatus & _).
      exists order. auto.
Qed.

(** The product of a request line is the product of its cart line. *)
Lemma itemsToAdd_products (existingOrder : Order.t) (orderItems : list CartLine.t)
    (productId : Z) :
  (forall item, In item orderItems -> lineProductId item <> productId) ->
  forall it, In it (itemsToAdd existingOrder orderItems) ->
             Item.productId it <> productId.
Proof.
  intros Hcart it Hin. apply itemsToAdd_In in Hin.
  destruct Hin as (item & Hitem & -> & _). exact (Hcart item Hitem).
Qed.

(** A cart line is sent when the order holds its product at another quantity
    or not at all. *)
Lemma changed_line_is_sent (existingOrder : Order.t) (orderItems : list CartLine.t)
    (line : CartLine.t) :
  In line orderItems ->
  quantityOf (lineProductId line) (storedItems existingOrder)
  <> Some (CartLine.quantity line) ->
  In (toItem line) (itemsToAdd existingOrder orderItems).
Proof.
  intros Hin Hdiffers. apply itemsToAdd_In. exists line.
  refine (conj Hin (conj eq_refl _)).
  rewrite quantityOf_storedItems in Hdiffers. unfold quantityChanged.
  destruct (findExisting existingOrder line) as [existingItem |] eqn:Hfind.
  - right. apply negb_true_iff, Z.eqb_neq. intros Heq. apply Hdiffers.
    simpl. now rewrite Heq.
  - left. destruct (includes (existingProductIds existingOrder)
                             (Product.id (CartLine.product line))) eqn:Hinc;
      [| reflexivity].
    apply findExisting_includes in Hinc. destruct Hinc as [existingItem Hsome].
    congruence.
Qed.

(** C3. Driving a product's quantity to 0 or less removes that product's
    line from the cart, and from the cart only: [handleQuantityChange] with a
    quantity of 0 or less leaves the cart without a line for the product and
    keeps every other line; the submission that follows sends no line for the
    product, so the pending order it is merged into holds the product exactly
    as before.  A cart line of quantity 0 or less for the product, where the
    cart holds one and the pending order does not hold the product at that
    very quantity, is sent, and merging it leaves the order without the
    product. *)
Theorem quantity_zero_or_less_removes_cart_line
    (productId quantity : Z) (prev : OrderStep.t) :
  quantity <= 0 ->
  let next := handleQuantityChange productId quantity prev in
  (forall item, In item (OrderStep.orderItems next) -> lineProductId item <> productId)
  /\ (forall item,
         In item (OrderStep.orderItems prev) -> lineProductId item <> productId ->
         In item (OrderStep.orderItems next))
  /\ OrderStep.orderItems next
     = filter (fun item => negb (lineIs productId item)) (OrderStep.orderItems prev)
  /\ (forall (ordersList : list Order.t) (it : Item.t),
         In it (requestedItems (handleSubmitOrder ordersList next)) ->
         Item.productId it <> productId)
  /\ (forall (ordersList : list Order.t) (selectedTable : Table.t)
             (orderId : Z) (items : list Item.t),
         OrderStep.selectedTable next = Some selectedTable ->
         handleSubmitOrder ordersList next = addItemsToOrderMutation orderId items ->
         exists order,
           In order ordersList
           /\ Order.id order = orderId
           /\ isPendingFor (Table.id selectedTable) order = true
           /\ quantityOf productId (mergeItems (storedItems order) items)
              = quantityOf productId (storedItems order))
  /\ (forall (ordersList : list Order.t) (orderStep : OrderStep.t)
             (selectedTable : Table.t) (clientType : ClientType)
             (existingOrder : Order.t) (line : CartLine.t),
         OrderStep.selectedTable orderStep = Some selectedTable ->
         OrderStep.clientType orderStep = Some clientType ->
         find (isPendingFor (Table.id selectedTable)) ordersList = Some existingOrder ->
         NoDup (map lineProductId (OrderStep.orderItems orderStep)) ->
         In line (OrderStep.orderItems orderStep) ->
         lineProductId line = productId ->
         CartLine.quantity line <= 0 ->
         quantityOf productId (storedItems existingOrder)
         <> Some (CartLine.quantity line) ->
         exists items,
           handleSubmitOrder ordersList orderStep
           = addItemsToOrderMutation (Order.id existingOrder) items
           /\ In (toItem line) items
           /\ quantityOf productId (mergeItems (storedItems existingOrder) items)
              = None).
Proof.
  intros Hle next.
  assert (Hcart : forall item,
             In item (OrderStep.orderItems next) -> lineProductId item <> productId).
  { subst next. unfold handleQuantityChange.
    destruct (Z.leb_spec quantity 0) as [_ | Hgt]; [| lia].
    unfold handleProductRemove, withOrderItems. cbn [OrderStep.orderItems].
    intros item Hin. apply filter_In in Hin. destruct Hin as [_ Hne].
    unfold lineIs in Hne. now apply negb_true_iff, Z.eqb_neq in Hne. }
  refine (conj Hcart (conj _ (conj _ (conj _ (conj _ _))))).
  - subst next. unfold handleQuantityChange.
    destruct (Z.leb_spec quantity 0) as [_ | Hgt]; [| lia].
    unfold handleProductRemove, withOrderItems. cbn [OrderStep.orderItems].
    intros item Hin Hne. apply filter_In. split; [exact Hin |].
    unfold lineIs. now apply negb_true_iff, Z.eqb_neq.
  - subst next. unfold handleQuantityChange.
    destruct (Z.leb_spec quantity 0) as [_ | Hgt]; [| lia]. reflexivity.
  - intros ordersList it.
    destruct (handleSubmitOrder ordersList next) as [t | orderData | orderId items]
      eqn:Hsubmit; cbn [requestedItems]; try contradiction.
    destruct (OrderStep.selectedTable next) as [selectedTable |] eqn:Htable.
    + destruct (merge_targets_pending_order _ _ _ _ _ Htable Hsubmit)
        as (order & _ & _ & _ & _ & -> & _).
      now apply itemsToAdd_products.
    + unfold handleSubmitOrder in Hsubmit. rewrite Htable in Hsubmit. discriminate.
  - intros ordersList selectedTable orderId items Htable Hsubmit.
    destruct (merge_targets_pending_order _ _ _ _ _ Htable Hsubmit)
      as (order & Hin & Hid & Htid & Hstatus & -> & _).
    exists order. refine (conj Hin (conj Hid (conj _ _))).
    + now apply isPendingFor_spec.
    + apply quantityOf_mergeItems_other. now apply itemsToAdd_products.
  - intros ordersList orderStep selectedTable clientType existingOrder line
           Htable Htype Hfind Hnd Hin Hproduct Hline Hdiffers.
    exists (itemsToAdd existingOrder (OrderStep.orderItems orderStep)).
    assert (Hsent : In (toItem line)
                       (itemsToAdd existingOrder (OrderStep.orderItems orderStep))).
    { apply changed_line_is_sent; [exact Hin | now rewrite Hproduct]. }
    refine (conj _ (conj Hsent _)).
    + rewrite (submit_on_existing _ _ _ _ _ Htable Htype Hfind).
      destruct (OrderStep.orderItems orderStep); [contradiction |].
      destruct (itemsToAdd existingOrder (t :: l)); [contradiction | reflexivity].
    + rewrite <- Hproduct.
      apply (quantityOf_mergeItems_removed _ _ (toItem line));
        [now apply itemsToAdd_NoDup | exact Hsent | exact Hline].
Qed.

(** C4. When the cart holds no new product and no line whose quantity
    differs from the pending order's, submitting issues no merge request and
    shows the warning toast, not the error toast; and a merge request is never
    issued with an empty item list. *)
Theorem unchanged_cart_gives_warning_without_request
    (ordersList : list Order.t) (orderStep : OrderStep.t)
    (selectedTable : Table.t) (clientType : ClientType) (existingOrder : Order.t) :
  OrderStep.selectedTable orderStep = Some selectedTable ->
  OrderStep.clientType orderStep = Some clientType ->
  OrderStep.orderItems orderStep <> [] ->
  find (isPendingFor (Table.id selectedTable)) ordersList = Some existingOrder ->
  (forall item,
      In item (OrderStep.orderItems orderStep) ->
      exists existingItem,
        findExisting existingOrder item = Some existingItem
        /\ CartLine.quantity item = OrderItem.quantity existingItem) ->
  handleSubmitOrder (number := number) ordersList orderStep = toast nothingNewToast
  /\ isWrite (handleSubmitOrder (number := number) ordersList orderStep) = false
  /\ Toast.title nothingNewToast = "Aviso"
  /\ Toast.variant nothingNewToast = Some "default"
  /\ Toast.variant nothingNewToast <> Toast.variant validationToast
  /\ (forall (orders : list Order.t) (st : OrderStep.t) (orderId : Z),
         handleSubmitOrder (number := number) orders st
         <> addItemsToOrderMutation orderId []).
Proof.
  intros Htable Htype Hcart Hfind Hsame.
  assert (Hnone : itemsToAdd existingOrder (OrderStep.orderItems orderStep) = []).
  { destruct (itemsToAdd existingOrder (OrderStep.orderItems orderStep))
      as [| it rest] eqn:Hitems; [reflexivity |].
    exfalso.
    assert (Hit : In it (itemsToAdd existingOrder (OrderStep.orderItems orderStep)))
      by (rewrite Hitems; now left).
    apply itemsToAdd_In in Hit. destruct Hit as [item [Hin [_ Hwhy]]].
    destruct (Hsame item Hin) as [e [He Hq]].
    destruct Hwhy as [Hnew | Hch].
    - assert (Hinc : includes (existingProductIds existingOrder)
                              (Product.id (CartLine.product item)) = true)
        by (apply findExisting_includes; now exists e).
      congruence.
    - unfold quantityChanged in Hch. rewrite He in Hch.
      apply negb_true_iff, Z.eqb_neq in Hch. contradiction. }
  assert (Hsubmit : handleSubmitOrder (number := number) ordersList orderStep
                    = toast nothingNewToast).
  { rewrite (submit_on_existing _ _ _ _ _ Htable Htype Hfind), Hnone.
    destruct (OrderStep.orderItems orderStep); [now exfalso | reflexivity]. }
  rewrite Hsubmit. repeat split; try reflexivity; try discriminate.
  intros orders st orderId Hmerge. unfold handleSubmitOrder in Hmerge.
  destruct (OrderStep.selectedTable st) as [t |]; [| discriminate].
  destruct (OrderStep.clientType st) as [ct |]; [| discriminate].
  destruct (List.length (OrderStep.orderItems st) =? 0)%nat; [discriminate |].
  destruct (find (isPendingFor (Table.id t)) orders) as [eo |]; [| discriminate].
  destruct (itemsToAdd eo (OrderStep.orderItems st)); discriminate.
Qed.

End Routing.

Section Totals.

Context {number : Type} `{JsArith number}.

Lemma fold_left_toItem (cart : list CartLine.t) (start : number) :
  fold_left
    (fun total item =>
       num_add total
         (num_mul (parseFloat (Product.price (CartLine.product item)))
                  (num_of_int (CartLine.quantity item))))
    cart start
  = fold_left
      (fun total it =>
         num_add total
           (num_mul (parseFloat (Item.price it)) (num_of_int (Item.quantity it))))
      (map toItem cart) start.
Proof.
  revert start. induction cart as [| item cart IH]; intros start; simpl;
    [reflexivity | apply IH].
Qed.

Lemma calculateTotal_sumLeftToRight (orderStep : OrderStep.t) :
  calculateTotal orderStep
  = sumLeftToRight (map toItem (OrderStep.orderItems orderStep)).
Proof. unfold calculateTotal, sumLeftToRight. apply fold_left_toItem. Qed.

End Totals.

(** ** Whole numbers on doubles

    Below 2^53 every whole number is a double, and sums, products and whole
    quotients of such numbers that stay below 2^53 are computed without
    rounding. *)

Lemma digits2_pos_size (p : positive) : digits2_pos p = Pos.size p.
Proof. induction p; simpl; now rewrite ?IHp. Qed.

Lemma Zdigits2_log2 (n : Z) : 0 < n -> Zdigits2 n = Z.log2 n + 1.
Proof.
  destruct n as [| p | p]; try lia. intros _. simpl Zdigits2.
  rewrite digits2_pos_size. destruct p; simpl; lia.
Qed.

Lemma shr_1_double (m : Z) :
  0 < m ->
  shr_1 {| shr_m := 2 * m; shr_r := false; shr_s := false |}
  = {| shr_m := m; shr_r := false; shr_s := false |}.
Proof. destruct m; try lia. reflexivity. Qed.

Lemma iter_shr_1_pow2 (p : positive) :
  forall m, 0 < m ->
    iter_pos shr_1 p {| shr_m := m * 2 ^ Zpos p; shr_r := false; shr_s := false |}
    = {| shr_m := m; shr_r := false; shr_s := false |}.
Proof.
  induction p as [p IH | p IH |]; intros m Hm.
  - assert (E : m * 2 ^ Z.pos p~1 = 2 * (m * 2 ^ Z.pos p * 2 ^ Z.pos p)).
    { replace (Z.pos p~1) with (Z.pos p + Z.pos p + 1) by lia.
      rewrite !Z.pow_add_r by lia. ring. }
    cbn [iter_pos]. rewrite E.
    rewrite shr_1_double by (apply Z.mul_pos_pos; [apply Z.mul_pos_pos |]; lia).
    rewrite IH by (apply Z.mul_pos_pos; lia). now apply IH.
  - assert (E : m * 2 ^ Z.pos p~0 = m * 2 ^ Z.pos p * 2 ^ Z.pos p).
    { replace (Z.pos p~0) with (Z.pos p + Z.pos p) by lia.
      rewrite !Z.pow_add_r by lia. ring. }
    cbn [iter_pos]. rewrite E.
    rewrite IH by (apply Z.mul_pos_pos; lia). now apply IH.
  - cbn [iter_pos]. replace (m * 2 ^ 1) with (2 * m) by lia. now apply shr_1_double.
Qed.

(** Rounding a mantissa of 53 + k bits whose k low bits are zero. *)
Lemma binary_round_aux_exact (sx : bool) (mx q k e : Z) :
  0 < q -> Z.log2 q = 52 -> 0 <= k -> mx = q * 2 ^ k ->
  -1074 <= e + k <= 971 ->
  binary_round_aux 53 1024 sx mx e loc_Exact = S754_finite sx (Z.to_pos q) (e + k).
Proof.
  intros Hq Hlog Hk -> Hrange.
  assert (Hpos : 0 < q * 2 ^ k) by (apply Z.mul_pos_pos; lia).
  unfold binary_round_aux, shr_fexp.
  rewrite (Zdigits2_log2 _ Hpos), Z.log2_mul_pow2, Hlog by lia.
  assert (Hfexp : forall x, -1074 <= x -> fexp 53 1024 (x + 53) = x).
  { intros x Hx. unfold fexp, emin. lia. }
  replace (k + 52 + 1 + e) with (e + k + 53) by lia. rewrite Hfexp by lia.
  replace (e + k - e) with k by lia.
  assert (Hshift : shr (shr_record_of_loc (q * 2 ^ k) loc_Exact) e k
                   = ({| shr_m := q; shr_r := false; shr_s := false |}, e + k)).
  { unfold shr, shr_record_of_loc. destruct k as [| p | p]; try lia.
    - now rewrite Z.mul_1_r, Z.add_0_r.
    - now rewrite iter_shr_1_pow2. }
  rewrite Hshift. cbn [shr_m loc_of_shr_record round_nearest_even].
  rewrite (Zdigits2_log2 _ Hq), Hlog.
  replace (52 + 1 + (e + k)) with (e + k + 53) by lia. rewrite Hfexp by lia.
  rewrite Z.sub_diag. cbn [shr shr_record_of_loc shr_m].
  destruct q as [| qp | qp]; try lia.
  replace (e + k <=? 1024 - 53) with true by (symmetry; apply Z.leb_le; lia).
  reflexivity.
Qed.

Lemma mul_pow2_pow2 (x y z : Z) :
  0 <= y -> 0 <= z -> x * 2 ^ y * 2 ^ z = x * 2 ^ (y + z).
Proof. intros Hy Hz. rewrite Z.pow_add_r by lia. ring. Qed.

Lemma iter_xO_pow2 (p d : positive) :
  Zpos (Pos.iter xO p d) = Zpos p * 2 ^ Zpos d.
Proof.
  induction d as [| d IH] using Pos.peano_ind.
  - cbn [Pos.iter]. lia.
  - rewrite Pos.iter_succ, Pos2Z.inj_xO, IH, Pos2Z.inj_succ, Z.pow_succ_r by lia. ring.
Qed.

Lemma shl_align_le (p : positive) (e e' : Z) :
  e' <= e -> shl_align p e e' = (Z.to_pos (Zpos p * 2 ^ (e - e')), e').
Proof.
  intros Hle. unfold shl_align.
  destruct (e' - e) as [| d | d] eqn:Hd; try lia.
  - replace (e - e') with 0 by lia. replace e' with e by lia.
    now rewrite Z.mul_1_r.
  - replace (e - e') with (Zpos d) by lia. rewrite <- iter_xO_pow2. reflexivity.
Qed.

Lemma shl_align_ge (p : positive) (e e' : Z) :
  e <= e' -> shl_align p e e' = (p, e).
Proof.
  intros Hle. unfold shl_align. destruct (e' - e) as [| d | d] eqn:Hd; try lia; reflexivity.
Qed.

Lemma log2_whole (n : Z) : 0 < n < 2 ^ 53 -> 0 <= Z.log2 n <= 52.
Proof.
  intros [Hpos Hlt]. split; [apply Z.log2_nonneg |].
  apply Z.log2_lt_pow2 in Hlt; lia.
Qed.

(** Rounding the mantissa of a whole number below 2^53 loses nothing. *)
Lemma round_whole (sx : bool) (mx e n : Z) :
  0 < n < 2 ^ 53 ->
  e <= Z.log2 n - 52 ->
  mx = n * 2 ^ (- e) ->
  binary_round_aux 53 1024 sx mx e loc_Exact
  = S754_finite sx (Z.to_pos (n * 2 ^ (52 - Z.log2 n))) (Z.log2 n - 52).
Proof.
  intros Hn He ->. assert (Hlog := log2_whole n Hn).
  rewrite (binary_round_aux_exact sx _ (n * 2 ^ (52 - Z.log2 n))
                                  (Z.log2 n - 52 - e) e).
  - f_equal. lia.
  - apply Z.mul_pos_pos; lia.
  - rewrite Z.log2_mul_pow2 by lia. lia.
  - lia.
  - rewrite mul_pow2_pow2 by lia. f_equal. f_equal. lia.
  - lia.
Qed.

Lemma doubleOfZ_whole (n : Z) :
  0 < n < 2 ^ 53 ->
  doubleOfZ n = S754_finite false (Z.to_pos (n * 2 ^ (52 - Z.log2 n))) (Z.log2 n - 52).
Proof.
  intros Hn. assert (Hlog := log2_whole n Hn).
  unfold doubleOfZ, binary_normalize. destruct n as [| p | p]; try lia.
  unfold binary_round.
  assert (Hfexp : fexp 53 1024 (Z.pos (digits2_pos p) + 0) = Z.log2 (Z.pos p) - 52).
  { change (Z.pos (digits2_pos p)) with (Zdigits2 (Z.pos p)).
    rewrite Zdigits2_log2 by lia. unfold fexp, emin. lia. }
  rewrite Hfexp, shl_align_le by lia.
  apply round_whole; [exact Hn | lia |].
  rewrite Z2Pos.id by (apply Z.mul_pos_pos; lia). repeat f_equal; lia.
Qed.

Lemma doubleOfZ_add (a b : Z) :
  0 <= a -> 0 <= b -> a + b < 2 ^ 53 ->
  SFadd 53 1024 (doubleOfZ a) (doubleOfZ b) = doubleOfZ (a + b).
Proof.
  intros Ha Hb Hsum.
  destruct (Z.eq_dec a 0) as [-> | Ha0].
  { rewrite Z.add_0_l. destruct (Z.eq_dec b 0) as [-> | Hb0]; [reflexivity |].
    now rewrite (doubleOfZ_whole b) by lia. }
  destruct (Z.eq_dec b 0) as [-> | Hb0].
  { rewrite Z.add_0_r. now rewrite (doubleOfZ_whole a) by lia. }
  assert (Hla := log2_whole a ltac:(lia)). assert (Hlb := log2_whole b ltac:(lia)).
  assert (Hlc := log2_whole (a + b) ltac:(lia)).
  assert (Hmono_a : Z.log2 a <= Z.log2 (a + b)) by (apply Z.log2_le_mono; lia).
  assert (Hmono_b : Z.log2 b <= Z.log2 (a + b)) by (apply Z.log2_le_mono; lia).
  rewrite !doubleOfZ_whole by lia. unfold SFadd.
  set (ea := Z.log2 a - 52). set (eb := Z.log2 b - 52).
  cbv zeta. set (ez := Z.min ea eb).
  rewrite !shl_align_le by (subst ez ea eb; lia). cbn [fst cond_Zopp].
  rewrite !Z2Pos.id by (repeat apply Z.mul_pos_pos; subst ez ea eb; lia).
  rewrite !mul_pow2_pow2 by (subst ez ea eb; lia).
  replace (52 - Z.log2 a + (ea - ez)) with (- ez) by (subst ea; lia).
  replace (52 - Z.log2 b + (eb - ez)) with (- ez) by (subst eb; lia).
  rewrite <- Z.mul_add_distr_r.
  assert (Hpos : 0 < (a + b) * 2 ^ (- ez))
    by (apply Z.mul_pos_pos; subst ez ea eb; lia).
  unfold binary_normalize.
  destruct ((a + b) * 2 ^ (- ez)) as [| sp | sp] eqn:Hsp; try lia.
  unfold binary_round.
  assert (Hfexp : fexp 53 1024 (Z.pos (digits2_pos sp) + ez) = Z.log2 (a + b) - 52).
  { change (Z.pos (digits2_pos sp)) with (Zdigits2 (Z.pos sp)).
    rewrite Zdigits2_log2 by lia. rewrite <- Hsp.
    rewrite Z.log2_mul_pow2 by (subst ez ea eb; lia). unfold fexp, emin. lia. }
  rewrite Hfexp, shl_align_ge by (subst ez ea eb; lia).
  apply round_whole; [lia | subst ez ea eb; lia | now rewrite Hsp].
Qed.

Lemma doubleOfZ_mul (a b : Z) :
  0 <= a < 2 ^ 53 -> 0 <= b < 2 ^ 53 -> a * b < 2 ^ 53 ->
  SFmul 53 1024 (doubleOfZ a) (doubleOfZ b) = doubleOfZ (a * b).
Proof.
  intros Ha Hb Hprod.
  destruct (Z.eq_dec a 0) as [-> | Ha0].
  { rewrite Z.mul_0_l. destruct (Z.eq_dec b 0) as [-> | Hb0]; [reflexivity |].
    now rewrite (doubleOfZ_whole b) by lia. }
  destruct (Z.eq_dec b 0) as [-> | Hb0].
  { rewrite Z.mul_0_r. now rewrite (doubleOfZ_whole a) by lia. }
  assert (Hab : 0 < a * b) by (apply Z.mul_pos_pos; lia).
  assert (Hla := log2_whole a ltac:(lia)). assert (Hlb := log2_whole b ltac:(lia)).
  assert (Hlc := log2_whole (a * b) ltac:(lia)).
  assert (Hmono : Z.log2 a <= Z.log2 (a * b)) by (apply Z.log2_le_mono; nia).
  rewrite !doubleOfZ_whole by lia. unfold SFmul. cbn [xorb].
  apply round_whole; [lia | lia |].
  rewrite Pos2Z.inj_mul, !Z2Pos.id by (apply Z.mul_pos_pos; lia).
  replace (- (Z.log2 a - 52 + (Z.log2 b - 52)))
    with ((52 - Z.log2 a) + (52 - Z.log2 b)) by lia.
  rewrite Z.pow_add_r by lia. ring.
Qed.

Lemma doubleOfZ_div_one (a : Z) :
  0 <= a < 2 ^ 53 ->
  SFdiv 53 1024 (doubleOfZ a) (doubleOfZ 1) = doubleOfZ a.
Proof.
  intros Ha. destruct (Z.eq_dec a 0) as [-> | Ha0]; [reflexivity |].
  assert (Hla := log2_whole a ltac:(lia)).
  rewrite (doubleOfZ_whole a) by lia.
  change (doubleOfZ 1) with (S754_finite false 4503599627370496 (-52)).
  unfold SFdiv, SFdiv_core_binary.
  set (ma := Z.to_pos (a * 2 ^ (52 - Z.log2 a))).
  assert (Hma : Zpos ma = a * 2 ^ (52 - Z.log2 a)).
  { subst ma. apply Z2Pos.id. apply Z.mul_pos_pos; lia. }
  assert (Hda : Zdigits2 (Zpos ma) = 53).
  { rewrite Zdigits2_log2, Hma, Z.log2_mul_pow2 by lia. lia. }
  rewrite Hda. change (Zdigits2 4503599627370496) with 53.
  assert (He : Z.min (fexp 53 1024 (53 + (Z.log2 a - 52) - (53 + -52)))
                     (Z.log2 a - 52 - -52)
               = Z.log2 a - 53).
  { unfold fexp, emin. lia. }
  rewrite He.
  replace (Z.log2 a - 52 - -52 - (Z.log2 a - 53)) with 53 by lia.
  cbv iota.
  assert (Hdiv : Z.div_eucl (Z.shiftl (Z.pos ma) 53) 4503599627370496
                 = (2 * Z.pos ma, 0)).
  { rewrite Z.shiftl_mul_pow2 by lia.
    assert (Hq := Z.div_eucl_eq (Z.pos ma * 2 ^ 53) 4503599627370496 ltac:(lia)).
    assert (Hr := Z.mod_pos_bound (Z.pos ma * 2 ^ 53) 4503599627370496 ltac:(lia)).
    unfold Z.modulo in Hr.
    destruct (Z.div_eucl (Z.pos ma * 2 ^ 53) 4503599627370496) as [q r].
    change (2 ^ 53) with (2 * 4503599627370496) in Hq.
    assert (r = 0) by lia. subst r. f_equal. lia. }
  rewrite Hdiv. cbn [xorb]. change (new_location 4503599627370496 0) with loc_Exact.
  apply round_whole; [lia | lia |].
  rewrite Hma. replace (- (Z.log2 a - 53)) with ((52 - Z.log2 a) + 1) by lia.
  rewrite Z.pow_add_r by lia. ring.
Qed.

Lemma mathRoundDouble_whole (n : Z) :
  0 <= n < 2 ^ 53 -> mathRoundDouble (doubleOfZ n) = doubleOfZ n.
Proof.
  intros Hn. destruct (Z.eq_dec n 0) as [-> | Hn0]; [reflexivity |].
  assert (Hl := log2_whole n ltac:(lia)).
  rewrite (doubleOfZ_whole n) by lia. unfold mathRoundDouble.
  fold (doubleOfZ n). 
  assert (Hm : Zpos (Z.to_pos (n * 2 ^ (52 - Z.log2 n))) = n * 2 ^ (52 - Z.log2 n)).
  { apply Z2Pos.id. apply Z.mul_pos_pos; lia. }
  cbn [cond_Zopp]. rewrite Hm.
  change (binary_normalize 53 1024 ?z 0 false) with (doubleOfZ z).
  destruct (Z.log2 n - 52) as [| e | e] eqn:He; try lia.
  - replace (52 - Z.log2 n) with 0 by lia. rewrite !Z.mul_1_r.
    rewrite (doubleOfZ_whole n) by lia. replace (52 - Z.log2 n) with 0 by lia.
    now rewrite He, Z.mul_1_r.
  - replace (52 - Z.log2 n) with (Zpos e) by lia.
    replace ((2 * (n * 2 ^ Z.pos e) + 2 ^ Z.pos e) / 2 ^ (Z.pos e + 1)) with n.
    + rewrite (doubleOfZ_whole n), He by lia. repeat f_equal; lia.
    + rewrite Z.pow_add_r, Z.pow_1_r by lia.
      apply Z.div_unique with (r := 2 ^ Z.pos e).
      * left. assert (0 < 2 ^ Z.pos e) by (apply Z.pow_pos_nonneg; lia). lia.
      * ring.
Qed.

Lemma new_location_zero (steps : Z) : new_location steps 0 = loc_Exact.
Proof. unfold new_location. now destruct (Z.even steps). Qed.

(** A quotient that is a whole number below 2^53 is computed exactly. *)
Lemma whole_quotient (negative : bool) (m1 m2 : positive) (w : Z) :
  0 < w < 2 ^ 53 ->
  Zpos m1 = w * Zpos m2 ->
  SFdiv 53 1024 (S754_finite negative m1 0) (S754_finite false m2 0)
  = S754_finite negative (Z.to_pos (w * 2 ^ (52 - Z.log2 w))) (Z.log2 w - 52).
Proof.
  intros Hw Hm1. assert (Hlw := log2_whole w Hw).
  unfold SFdiv, SFdiv_core_binary.
  rewrite !Zdigits2_log2 by lia. rewrite !Z.add_0_r, Z.sub_0_r.
  assert (Hbelow := Z.log2_mul_below w (Zpos m2) ltac:(lia) ltac:(lia)).
  assert (Habove := Z.log2_mul_above w (Zpos m2) ltac:(lia) ltac:(lia)).
  rewrite <- Hm1 in Hbelow, Habove.
  set (e' := Z.min (fexp 53 1024 (Z.log2 (Z.pos m1) + 1 - (Z.log2 (Z.pos m2) + 1))) 0).
  assert (He' : e' = Z.log2 (Z.pos m1) - Z.log2 (Z.pos m2) - 53).
  { subst e'. unfold fexp, emin. lia. }
  assert (Hshift : match 0 - e' with
                   | 0 => Z.pos m1
                   | Z.pos _ => Z.shiftl (Z.pos m1) (0 - e')
                   | Z.neg _ => 0
                   end = Z.pos m1 * 2 ^ (- e')).
  { destruct (0 - e') as [| s | s] eqn:Hs; try lia.
    - replace (- e') with 0 by lia. lia.
    - rewrite Z.shiftl_mul_pow2 by lia. f_equal. f_equal. lia. }
  rewrite Z.sub_0_l in Hshift. rewrite Z.sub_0_l, Hshift.
  assert (Hdiv : Z.div_eucl (Z.pos m1 * 2 ^ (- e')) (Z.pos m2) = (w * 2 ^ (- e'), 0)).
  { assert (Hq := Z.div_eucl_eq (Z.pos m1 * 2 ^ (- e')) (Z.pos m2) ltac:(lia)).
    assert (Hr := Z.mod_pos_bound (Z.pos m1 * 2 ^ (- e')) (Z.pos m2) ltac:(lia)).
    unfold Z.modulo in Hr.
    destruct (Z.div_eucl (Z.pos m1 * 2 ^ (- e')) (Z.pos m2)) as [q r].
    rewrite Hm1 in Hq.
    assert (Hrq : r = Z.pos m2 * (w * 2 ^ (- e') - q)) by lia.
    assert (Hzero : w * 2 ^ (- e') - q = 0) by nia.
    f_equal; [lia | nia]. }
  rewrite Hdiv, new_location_zero, xorb_false_r.
  apply round_whole; [exact Hw | lia | reflexivity].
Qed.

Lemma decimalToDouble_whole (negative : bool) (w : Z) (places : positive) :
  0 < w < 2 ^ 53 ->
  decimalToDouble negative (w * 10 ^ Zpos places) (Zneg places)
  = (if negative then SFopp else (fun x => x)) (doubleOfZ w).
Proof.
  intros Hw. unfold decimalToDouble.
  assert (Hpow : 0 < 10 ^ Zpos places) by (apply Z.pow_pos_nonneg; lia).
  destruct (w * 10 ^ Zpos places) as [| m | m] eqn:Hm; try nia.
  rewrite (whole_quotient negative m (Pos.pow 10 places) w Hw).
  - rewrite (doubleOfZ_whole w Hw). now destruct negative.
  - rewrite Pos2Z.inj_pow. exact (eq_sym Hm).
Qed.

(** The totals of lines with whole prices. *)
Lemma exactSum_nonneg (priceOf : string -> Z) (items : list Item.t) :
  (forall it, In it items -> wholeLine priceOf it) ->
  0 <= exactSum priceOf items.
Proof.
  induction items as [| it items IH]; intros Hwhole; [reflexivity |].
  unfold exactSum in *. cbn [map fold_right].
  destruct (Hwhole it (or_introl eq_refl)) as (_ & Hprice & Hquantity).
  assert (0 <= fold_right Z.add 0
                  (map (fun it => priceOf (Item.price it) * Item.quantity it) items))
    by (apply IH; intros it' Hit'; apply Hwhole; now right).
  nia.
Qed.

Lemma wholeLine_product (priceOf : string -> Z) (it : Item.t) (room : Z) :
  wholeLine priceOf it ->
  priceOf (Item.price it) * Item.quantity it <= room -> room < 2 ^ 53 ->
  num_mul (parseFloat (Item.price it)) (num_of_int (Item.quantity it))
  = doubleOfZ (priceOf (Item.price it) * Item.quantity it).
Proof.
  intros (Hparse & Hprice & Hquantity) Hroom Hsmall. rewrite Hparse.
  apply doubleOfZ_mul; [exact Hprice | exact Hquantity | lia].
Qed.

Lemma sumLeftToRight_whole (priceOf : string -> Z) (items : list Item.t) :
  (forall it, In it items -> wholeLine priceOf it) ->
  forall start : Z,
    0 <= start -> start + exactSum priceOf items < 2 ^ 53 ->
    fold_left
      (fun total it =>
         num_add total
           (num_mul (parseFloat (Item.price it)) (num_of_int (Item.quantity it))))
      items (doubleOfZ start)
    = doubleOfZ (start + exactSum priceOf items).
Proof.
  induction items as [| it items IH]; intros Hwhole start Hstart Hsmall.
  - unfold exactSum. cbn [map fold_right fold_left]. now rewrite Z.add_0_r.
  - assert (Hrest : forall it', In it' items -> wholeLine priceOf it')
      by (intros it' Hit'; apply Hwhole; now right).
    assert (Hnonneg := exactSum_nonneg priceOf items Hrest).
    assert (Hline := Hwhole it (or_introl eq_refl)).
    assert (Hprod : 0 <= priceOf (Item.price it) * Item.quantity it)
      by (destruct Hline as (_ & ? & ?); nia).
    change (exactSum priceOf (it :: items))
      with (priceOf (Item.price it) * Item.quantity it + exactSum priceOf items)
      in Hsmall |- *.
    cbn [fold_left].
    rewrite (wholeLine_product priceOf it (start + (priceOf (Item.price it)
                                                     * Item.quantity it
                                                     + exactSum priceOf items)))
      by (try exact Hline; lia).
    change (num_add ?x ?y) with (SFadd 53 1024 x y).
    rewrite doubleOfZ_add by lia.
    rewrite IH by (try exact Hrest; lia). f_equal. lia.
Qed.

Lemma sumOfLines_whole (priceOf : string -> Z) (items : list Item.t) :
  (forall it, In it items -> wholeLine priceOf it) ->
  exactSum priceOf items < 2 ^ 53 ->
  sumOfLines items = doubleOfZ (exactSum priceOf items).
Proof.
  induction items as [| it items IH]; intros Hwhole Hsmall; [reflexivity |].
  assert (Hrest : forall it', In it' items -> wholeLine priceOf it')
    by (intros it' Hit'; apply Hwhole; now right).
  assert (Hnonneg := exactSum_nonneg priceOf items Hrest).
  assert (Hline := Hwhole it (or_introl eq_refl)).
  assert (Hprod : 0 <= priceOf (Item.price it) * Item.quantity it)
    by (destruct Hline as (_ & ? & ?); nia).
  change (exactSum priceOf (it :: items))
    with (priceOf (Item.price it) * Item.quantity it + exactSum priceOf items)
    in Hsmall |- *.
  cbn [sumOfLines].
  rewrite (wholeLine_product priceOf it (priceOf (Item.price it) * Item.quantity it
                                         + exactSum priceOf items))
    by (try exact Hline; lia).
  rewrite IH by (try exact Hrest; lia).
  change (num_add ?x ?y) with (SFadd 53 1024 x y).
  now rewrite doubleOfZ_add by lia.
Qed.

(** C5. The order total is the sum over the cart lines of the line's
    snapshot price times its quantity, accumulated from 0 and from left to
    right on doubles.  A state with a table, a client type, a cart and no
    pending order creates an order whose [totalAmount] is this total, taken
    over the very items submitted with it.  Where every price reads as a
    whole number and the sum stays below 2^53 the total is exactly the sum,
    and so is the total over a merged item set; a price whose digits denote a
    whole number, such as 5.00, reads as that number. *)
Theorem total_is_double_sum_of_price_times_quantity :
  (forall (ordersList : list Order.t) (orderStep : OrderStep.t)
          (selectedTable : Table.t) (clientType : ClientType),
      OrderStep.selectedTable orderStep = Some selectedTable ->
      OrderStep.clientType orderStep = Some clientType ->
      OrderStep.orderItems orderStep <> [] ->
      find (isPendingFor (Table.id selectedTable)) ordersList = None ->
      exists orderData : OrderData.t double,
        handleSubmitOrder ordersList orderStep = createOrderMutation orderData
        /\ OrderData.items orderData = map toItem (OrderStep.orderItems orderStep)
        /\ OrderData.totalAmount orderData = calculateTotal orderStep
        /\ OrderData.totalAmount orderData
           = sumLeftToRight (OrderData.items orderData))
  /\ (forall (priceOf : string -> Z) (orderStep : OrderStep.t),
         let items := map toItem (OrderStep.orderItems orderStep) in
         (forall it, In it items -> wholeLine priceOf it) ->
         exactSum priceOf items < 2 ^ 53 ->
         calculateTotal (number := double) orderStep
         = doubleOfZ (exactSum priceOf items))
  /\ (forall (priceOf : string -> Z) (items cart : list Item.t),
         (forall it, In it (mergeItems items cart) -> wholeLine priceOf it) ->
         exactSum priceOf (mergeItems items cart) < 2 ^ 53 ->
         mergedTotalAmount (number := double) items cart
         = doubleOfZ (exactSum priceOf (mergeItems items cart)))
  /\ (forall (w : Z) (places : positive),
         0 < w < 2 ^ 53 ->
         decimalToDouble false (w * 10 ^ Zpos places) (Zneg places) = doubleOfZ w).
Proof.
  refine (conj _ (conj _ (conj _ _))).
  - intros ordersList orderStep selectedTable clientType Htable Htype Hcart Hfind.
    unfold handleSubmitOrder. rewrite Htable, Htype, Hfind.
    destruct (OrderStep.orderItems orderStep) as [| item cart] eqn:Hitems;
      [contradiction |].
    cbn [List.length Nat.eqb]. eexists. split; [reflexivity |].
    cbn [OrderData.items OrderData.totalAmount].
    rewrite calculateTotal_sumLeftToRight, Hitems. repeat split.
  - intros priceOf orderStep items Hwhole Hsmall.
    rewrite calculateTotal_sumLeftToRight. fold items. unfold sumLeftToRight.
    change num_zero with (doubleOfZ 0).
    now rewrite (sumLeftToRight_whole priceOf items Hwhole 0) by lia.
  - intros priceOf items cart Hwhole Hsmall. unfold mergedTotalAmount.
    now apply sumOfLines_whole.
  - intros w places Hw. exact (decimalToDouble_whole false w places Hw).
Qed.

(** ** The table grid, the submit guard, the product list and the billing mode *)

Section Screens.

Context {number : Type} `{JsArith number}.
Context {strings : JsString}.

(** C6 (amended). A table is shown free exactly when its status field is
    ["free"]; a table that is not free is shown addable, and can be selected,
    exactly when some order referencing it is pending; a table that is not free
    and has no pending order (its order is preparing or ready, say) is shown
    occupied, its button is disabled and a click changes nothing.  A merge
    request only ever names an order that is pending for the selected table. *)
Theorem table_look_follows_status_and_pending_orders
    (ordersList : list Order.t) (table : Table.t) :
  (tableLook ordersList table = look_free <-> Table.status table = "free")
  /\ (tableLook ordersList table = look_addable
      <-> Table.status table <> "free"
          /\ exists order,
               In order ordersList /\ Order.tableId order = Table.id table
               /\ Order.status order = "pending")
  /\ (tableLook ordersList table = look_occupied
      <-> Table.status table <> "free"
          /\ forall order,
               In order ordersList -> Order.tableId order = Table.id table ->
               Order.status order <> "pending")
  /\ (tableDisabled ordersList table = true
      <-> tableLook ordersList table = look_occupied)
  /\ (forall (creditClientsList : list CreditClient.t) (prev : OrderStep.t),
         tableLook ordersList table = look_occupied ->
         clickTable ordersList creditClientsList table prev = (prev, None))
  /\ (forall (creditClientsList : list CreditClient.t) (prev : OrderStep.t),
         tableLook ordersList table = look_addable ->
         OrderStep.step (fst (clickTable ordersList creditClientsList table prev))
         = step_products)
  /\ (forall (orderStep : OrderStep.t) (orderId : Z) (items : list Item.t),
         OrderStep.selectedTable orderStep = Some table ->
         handleSubmitOrder (number := number) ordersList orderStep
         = addItemsToOrderMutation orderId items ->
         exists order,
           In order ordersList /\ Order.id order = orderId
           /\ Order.tableId order = Table.id table
           /\ Order.status order = "pending").
Proof.
  assert (Hsome := hasPendingOrder_spec ordersList table).
  assert (Hnone : hasPendingOrder ordersList table = false
                  <-> forall order,
                        In order ordersList -> Order.tableId order = Table.id table ->
                        Order.status order <> "pending").
  { rewrite <- not_true_iff_false, Hsome. split.
    - intros Hno order Hin Htid Hst. apply Hno. now exists order.
    - intros Hall [order (Hin & Htid & Hst)]. now apply (Hall order). }
  assert (Hmerge : forall (orderStep : OrderStep.t) (orderId : Z) (items : list Item.t),
             OrderStep.selectedTable orderStep = Some table ->
             handleSubmitOrder (number := number) ordersList orderStep
             = addItemsToOrderMutation orderId items ->
             exists order,
               In order ordersList /\ Order.id order = orderId
               /\ Order.tableId order = Table.id table
               /\ Order.status order = "pending").
  { intros orderStep orderId items Htable Hsubmit.
    destruct (merge_targets_pending_order _ _ _ _ _ Htable Hsubmit)
      as (order & Hin & Hid & Htid & Hstatus & _).
    exists order. auto. }
  unfold clickTable, tableDisabled, tableLook.
  destruct (String.eqb_spec (Table.status table) "free") as [Hfree | Hbusy];
    [| destruct (hasPendingOrder ordersList table) eqn:Hpending ]; simpl;
    refine (conj _ (conj _ (conj _ (conj _ (conj _ (conj _ Hmerge)))))).
  (* status "free" *)
  - tauto.
  - split; [discriminate | intros [Hne _]; contradiction].
  - split; [discriminate | intros [Hne _]; contradiction].
  - split; discriminate.
  - discriminate.
  - discriminate.
  (* not free, a pending order *)
  - split; [discriminate | contradiction].
  - split; [intros _; split; [exact Hbusy | now apply Hsome] | reflexivity].
  - split; [discriminate | intros [_ Hall]].
    destruct (proj1 Hsome eq_refl) as [order (Hin & Htid & Hst)].
    exfalso. now apply (Hall order).
  - split; discriminate.
  - discriminate.
  - intros creditClientsList prev _. unfold handleTableSelection.
    unfold hasPendingOrder in Hpending. apply find_existsb in Hpending.
    destruct Hpending as [existingOrder Hfind]. rewrite Hfind. reflexivity.
  (* not free, no pending order *)
  - split; [discriminate | contradiction].
  - split; [discriminate | intros [_ Hex]].
    apply Hsome in Hex. discriminate.
  - split; [intros _; split; [exact Hbusy | now apply Hnone] | reflexivity].
  - split; reflexivity.
  - reflexivity.
  - discriminate.
Qed.

(** C7. Submission is rejected before any write when a required input is
    missing: with no table selected, no client type chosen or an empty cart,
    [handleSubmitOrder] issues neither request and shows the error toast. *)
Theorem submit_rejected_when_inputs_missing
    (ordersList : list Order.t) (orderStep : OrderStep.t) :
  OrderStep.selectedTable orderStep = None
  \/ OrderStep.clientType orderStep = None
  \/ OrderStep.orderItems orderStep = [] ->
  handleSubmitOrder (number := number) ordersList orderStep = toast validationToast
  /\ isWrite (handleSubmitOrder (number := number) ordersList orderStep) = false
  /\ Toast.title validationToast = "Erro"
  /\ Toast.variant validationToast = Some "destructive"
  /\ (forall createIsPending : bool,
         clickSubmit (number := number) ordersList orderStep createIsPending = None
         \/ clickSubmit (number := number) ordersList orderStep createIsPending
            = Some (toast validationToast)).
Proof.
  intros Hmissing.
  assert (Hsubmit : handleSubmitOrder (number := number) ordersList orderStep
                    = toast validationToast).
  { unfold handleSubmitOrder.
    destruct Hmissing as [Htable | [Htype | Hcart]].
    - now rewrite Htable.
    - rewrite Htype. now destruct (OrderStep.selectedTable orderStep).
    - rewrite Hcart.
      destruct (OrderStep.selectedTable orderStep); [| reflexivity].
      now destruct (OrderStep.clientType orderStep). }
  rewrite Hsubmit. repeat split.
  intros createIsPending. unfold clickSubmit.
  destruct (submitDisabled orderStep createIsPending); [now left | right].
  now rewrite Hsubmit.
Qed.

(** C8. The add-to-order button of a product is disabled exactly when the
    product's stock is 0 or less; a click on it then leaves the cart as it
    was, so the catalog creates no cart line for an out-of-stock product:
    every line a click puts in the cart that was not there before is a line
    of quantity 1 for the clicked product, whose stock is positive. *)
Theorem out_of_stock_product_cannot_be_added (product : Product.t) :
  (addDisabled product = true <-> Product.stock product <= 0)
  /\ (forall prev : OrderStep.t,
         Product.stock product <= 0 -> clickProductAdd product prev = prev)
  /\ (forall prev : OrderStep.t,
         0 < Product.stock product ->
         clickProductAdd product prev = handleProductAdd product prev
         /\ exists item,
              In item (OrderStep.orderItems (clickProductAdd product prev))
              /\ lineProductId item = Product.id product)
  /\ (forall (prev : OrderStep.t) (item : CartLine.t),
         In item (OrderStep.orderItems (clickProductAdd product prev)) ->
         (exists old,
             In old (OrderStep.orderItems prev)
             /\ CartLine.product item = CartLine.product old)
         \/ (item = {| CartLine.product := product; CartLine.quantity := 1 |}
             /\ 0 < Product.stock product)).
Proof.
  unfold clickProductAdd, addDisabled.
  destruct (Z.leb_spec (Product.stock product) 0) as [Hle | Hgt].
  - repeat split; try lia; try reflexivity.
    intros prev item Hin. left. now exists item.
  - repeat split; try lia; try discriminate.
    + unfold handleProductAdd.
      destruct (find (lineIs (Product.id product)) (OrderStep.orderItems prev))
        as [found |] eqn:Hfind; cbn [withOrderItems OrderStep.orderItems].
      * apply find_some in Hfind. destruct Hfind as [Hin Hid].
        exists {| CartLine.product := CartLine.product found;
                  CartLine.quantity := CartLine.quantity found + 1 |}.
        split; [| exact (proj1 (Z.eqb_eq _ _) Hid)].
        apply in_map_iff. exists found. now rewrite Hid.
      * exists {| CartLine.product := product; CartLine.quantity := 1 |}.
        split; [apply in_or_app; right; now left | reflexivity].
    + intros prev item. unfold handleProductAdd.
      destruct (find (lineIs (Product.id product)) (OrderStep.orderItems prev))
        as [found |]; cbn [withOrderItems OrderStep.orderItems]; intros Hin.
      * apply in_map_iff in Hin. destruct Hin as [old [<- Hin]].
        left. exists old. split; [exact Hin |].
        now destruct (lineIs (Product.id product) old).
      * apply in_app_or in Hin. destruct Hin as [Hin | [<- | []]].
        -- left. now exists item.
        -- right. now split.
Qed.

(** On a string of ASCII characters the engine's lowercasing is the plain one;
    in particular the empty string stays empty. *)
Lemma toLowerCase_empty {asciiLaw : @JsStringAscii strings} :
  toLowerCase "" = "".
Proof. now rewrite toLowerCase_ascii. Qed.

(** The test [clientName && (lowercased === one of the two names)]. *)
Lemma isManagerName_spec {asciiLaw : @JsStringAscii strings} (name : string) :
  isManagerName (Some name) = true
  <-> toLowerCase name = "carl malack" \/ toLowerCase name = "lucelle reis".
Proof.
  unfold isManagerName, truthyString, lowerNameIs.
  rewrite andb_true_iff, orb_true_iff, !String.eqb_eq, negb_true_iff. split.
  - now intros [_ Hname].
  - intros Hname. split; [| exact Hname].
    apply String.eqb_neq. intros ->. rewrite toLowerCase_empty in Hname.
    destruct Hname; discriminate.
Qed.

(** C9. The billing mode of an existing pending order is inferred from its
    fields: a set (non-null, non-zero) [creditClientId] gives credit;
    otherwise the order is manager exactly when its [clientName], lowercased
    by the engine, equals "carl malack" or "lucelle reis", and anonymous for
    every other name and for no name; for a name of ASCII characters that is:
    when the name is one of the two up to the case of its letters.
    [handleTableSelection] stores this mode. *)
Theorem billing_mode_inferred_from_fixed_names
    {asciiLaw : @JsStringAscii strings} (existingOrder : Order.t) :
  let isSet := truthyNumber (Order.creditClientId existingOrder) in
  let namesManager :=
    exists name,
      Order.clientName existingOrder = Some name
      /\ (toLowerCase name = "carl malack" \/ toLowerCase name = "lucelle reis") in
  (isSet = true
   <-> exists cid, Order.creditClientId existingOrder = Some cid /\ cid <> 0)
  /\ (isSet = true -> inferClientType existingOrder = credit)
  /\ (isSet = false -> (inferClientType existingOrder = manager <-> namesManager))
  /\ (isSet = false -> ~ namesManager -> inferClientType existingOrder = anonymous)
  /\ (forall name : string,
         isSet = false ->
         Order.clientName existingOrder = Some name ->
         isAscii name = true ->
         (inferClientType existingOrder = manager
          <-> lowerAsciiString name = "carl malack"
              \/ lowerAsciiString name = "lucelle reis")
         /\ (inferClientType existingOrder = anonymous
             <-> lowerAsciiString name <> "carl malack"
                 /\ lowerAsciiString name <> "lucelle reis"))
  /\ (forall (ordersList : list Order.t) (creditClientsList : list CreditClient.t)
             (table : Table.t) (prev : OrderStep.t),
         find (isPendingFor (Table.id table)) ordersList = Some existingOrder ->
         OrderStep.clientType
           (fst (handleTableSelection ordersList creditClientsList table prev))
         = Some (inferClientType existingOrder)).
Proof.
  intros isSet namesManager. subst isSet namesManager.
  assert (Hmanager : isManagerName (Order.clientName existingOrder) = true
                     <-> exists name,
                           Order.clientName existingOrder = Some name
                           /\ (toLowerCase name = "carl malack"
                               \/ toLowerCase name = "lucelle reis")).
  { destruct (Order.clientName existingOrder) as [name |].
    - rewrite isManagerName_spec. split.
      + intros Hname. now exists name.
      + intros [name' [Heq Hname]]. now inversion Heq; subst name'.
    - split; [discriminate | intros [name [Habs _]]; discriminate]. }
  unfold inferClientType.
  refine (conj _ (conj _ (conj _ (conj _ (conj _ _))))).
  - unfold truthyNumber. destruct (Order.creditClientId existingOrder) as [cid |].
    + rewrite negb_true_iff, Z.eqb_neq. split.
      * intros Hcid. now exists cid.
      * intros [cid' [Heq Hcid]]. now inversion Heq; subst.
    + split; [discriminate | intros [cid [Habs _]]; discriminate].
  - now intros ->.
  - intros ->. rewrite <- Hmanager.
    destruct (isManagerName (Order.clientName existingOrder));
      split; (reflexivity || discriminate).
  - intros -> Hnot.
    destruct (isManagerName (Order.clientName existingOrder)) eqn:Hm; [| reflexivity].
    exfalso. apply Hnot. now apply Hmanager.
  - intros name -> Hname Hascii. rewrite Hname.
    assert (Hm := isManagerName_spec name).
    rewrite (toLowerCase_ascii name Hascii) in Hm. destruct Hm as [Hm1 Hm2].
    destruct (isManagerName (Some name)); split; split.
    + intros _. now apply Hm1.
    + reflexivity.
    + discriminate.
    + intros [Hcarl Hlucelle]. destruct (Hm1 eq_refl); contradiction.
    + discriminate.
    + intros Hname'. apply Hm2 in Hname'. discriminate.
    + intros _. split; intros Hname'; [assert (Habs := Hm2 (or_introl Hname'))
                                      | assert (Habs := Hm2 (or_intror Hname'))];
        discriminate.
    + reflexivity.
  - intros ordersList creditClientsList table prev Hfind.
    unfold handleTableSelection. rewrite Hfind. reflexivity.
Qed.

End Screens.

(** ** Occupancy *)

Lemma orNumber_nonzero (x : option Z) (d : Z) : d <> 0 -> orNumber x d <> 0.
Proof.
  intros Hd. unfold orNumber. destruct x as [v |]; [| exact Hd].
  destruct (Z.eqb_spec v 0); assumption.
Qed.

Lemma jsDiv_finite (a b : Z) :
  b <> 0 -> jsDiv a b = Finite (inject_Z a / inject_Z b).
Proof.
  intros Hb. unfold jsDiv. apply Z.eqb_neq in Hb. now rewrite Hb.
Qed.

Lemma round_of_zero_ratio (b : Z) :
  Qfloor (inject_Z 0 / inject_Z b * inject_Z 100 + (1 # 2)) = 0.
Proof.
  transitivity (Qfloor (1 # 2)); [| reflexivity].
  apply Qfloor_comp. unfold Qdiv. rewrite !Qmult_0_l, Qplus_0_l. reflexivity.
Qed.

(** C10. The occupancy percentage is always a well-defined number: the
    denominator is 1 whenever [totalTables] is 0 or absent (and is the larger
    of [totalTables] and 1 for every count of tables), so it is never zero,
    the division is a finite ratio, the rounded percentage is an integer, and
    it is 0 when no table is occupied. *)
Theorem occupancy_percentage_is_well_defined (sessionStats : option SessionStats.t) :
  let occupied := orNumber (optField sessionStats SessionStats.occupiedTables) 0 in
  let total := optField sessionStats SessionStats.totalTables in
  occupancyDenominator sessionStats <> 0
  /\ (total = None \/ total = Some 0 -> occupancyDenominator sessionStats = 1)
  /\ (forall n, total = Some n -> 0 <= n ->
                occupancyDenominator sessionStats = Z.max n 1)
  /\ jsDiv occupied (occupancyDenominator sessionStats)
     = Finite (inject_Z occupied / inject_Z (occupancyDenominator sessionStats))
  /\ (exists percent : Z, occupancyPercent sessionStats = Finite (inject_Z percent))
  /\ (occupied = 0 -> occupancyPercent sessionStats = Finite (inject_Z 0)).
Proof.
  intros occupied total.
  assert (Hden : occupancyDenominator sessionStats <> 0)
    by (apply orNumber_nonzero; discriminate).
  refine (conj Hden (conj _ (conj _ (conj (jsDiv_finite _ _ Hden) (conj _ _))))).
  - unfold occupancyDenominator. fold total. intros [-> | ->]; reflexivity.
  - unfold occupancyDenominator. fold total. intros n -> Hn. unfold orNumber.
    destruct (Z.eqb_spec n 0); lia.
  - unfold occupancyPercent. rewrite (jsDiv_finite _ _ Hden).
    cbn [jsTimes100 mathRound]. eauto.
  - intros Hzero. unfold occupancyPercent. fold occupied.
    rewrite Hzero, (jsDiv_finite _ _ Hden). cbn [jsTimes100 mathRound].
    now rewrite round_of_zero_ratio.
Qed.

(** ** The sample lowercasing follows the law *)

Lemma lowerSample_ascii (s : string) :
  isAscii s = true -> lowerSample s = lowerAsciiString s.
Proof.
  induction s as [| c rest IH]; [reflexivity |].
  cbn [isAscii]. rewrite andb_true_iff. intros [Hc Hrest].
  specialize (IH Hrest).
  destruct c as [[] [] [] [] [] [] [] []]; try discriminate Hc;
    cbn [lowerSample lowerAsciiString]; now rewrite IH.
Qed.

#[export] Instance sampleStrings_ascii : @JsStringAscii sampleStrings.
Proof. split. exact lowerSample_ascii. Qed.

(** ** Sample runs *)

Lemma merge_request_carries_absolute_quantities_witness :
  let orderStep := atProducts table12 [line beer 3] in
  let sent := requestedItems (handleSubmitOrder (number := Q) sampleOrders orderStep) in
  find (isPendingFor (Table.id table12)) sampleOrders = Some order1
  /\ quantityOf 10 (storedItems order1) = Some 5
  /\ sent = [Item.mk 10 3 "5.00"]
  /\ quantityOf 10 (mergeItems (storedItems order1) sent) = Some 3.
Proof.
  intros orderStep sent.
  destruct (merge_request_carries_absolute_quantities
              (number := Q) sampleOrders orderStep table12 anonymous order1
              eq_refl eq_refl eq_refl)
    as (_ & _ & _ & _ & _ & Hmerged).
  split; [reflexivity |]. split; [reflexivity |]. split; [reflexivity |].
  apply (fun Hnd => Hmerged Hnd (line beer 3)).
  - repeat constructor. intros [].
  - left. reflexivity.
  - reflexivity.
Defined.

(** The line of the cart for the five beers already on the order is not part
    of the request: only the wine is sent. *)
Lemma unchanged_line_is_not_sent :
  let cart := [line beer 5; line wine 2] in
  let orderStep := atProducts table12 cart in
  find (isPendingFor (Table.id table12)) sampleOrders = Some order1
  /\ In (line beer 5) (OrderStep.orderItems orderStep)
  /\ includes (existingProductIds order1) (lineProductId (line beer 5)) = true
  /\ handleSubmitOrder (number := Q) sampleOrders orderStep
     = addItemsToOrderMutation 1 [toItem (line wine 2)]
  /\ ~ In (toItem (line beer 5))
          (requestedItems (handleSubmitOrder (number := Q) sampleOrders orderStep)).
Proof.
  intros cart orderStep.
  split; [reflexivity |]. split; [now left |]. split; [reflexivity |].
  split; [reflexivity |].
  intros [Habs | []]. discriminate.
Qed.

Lemma table_selection_routes_to_pending_order_witness :
  hasPendingOrder sampleOrders table12 = true
  /\ OrderStep.step
       (fst (handleTableSelection sampleOrders [] table12 initialOrderStep))
     = step_products
  /\ hasPendingOrder sampleOrders table7 = false
  /\ OrderStep.step
       (fst (handleTableSelection sampleOrders [] table7 initialOrderStep))
     = step_client
  /\ (forall orderData : OrderData.t Q,
         handleSubmitOrder sampleOrders (atProducts table12 [line wine 1])
         <> createOrderMutation orderData).
Proof.
  destruct (table_selection_routes_to_pending_order
              (number := Q) sampleOrders [] table12 initialOrderStep)
    as (Hpending & _ & _ & Hnocreate & _).
  destruct (Hpending eq_refl) as (existingOrder & _ & _ & _ & _ & Hstep & _).
  destruct (table_selection_routes_to_pending_order
              (number := Q) sampleOrders [] table7 initialOrderStep)
    as (_ & Hfree & _).
  destruct (Hfree eq_refl) as (Hstep7 & _).
  split; [reflexivity |]. split; [exact Hstep |]. split; [reflexivity |].
  split; [exact Hstep7 |].
  intros orderData. now apply Hnocreate.
Defined.

Lemma quantity_zero_or_less_removes_cart_line_witness :
  0 <= 0
  /\ OrderStep.orderItems
       (handleQuantityChange 10 0 (atProducts table12 [line beer 1; line wine 2]))
     = [line wine 2]
  /\ (forall it,
         In it (requestedItems
                  (handleSubmitOrder (number := Q) sampleOrders
                     (handleQuantityChange 10 0
                        (atProducts table12 [line beer 1; line wine 2])))) ->
         Item.productId it <> 10)
  /\ (exists items,
         handleSubmitOrder (number := Q) sampleOrders (atProducts table12 [line beer 0])
         = addItemsToOrderMutation 1 items
         /\ In (Item.mk 10 0 "5.00") items
         /\ quantityOf 10 (mergeItems (storedItems order1) items) = None).
Proof.
  assert (Hle : 0 <= 0) by discriminate.
  destruct (quantity_zero_or_less_removes_cart_line
              (number := Q) 10 0 (atProducts table12 [line beer 1; line wine 2]) Hle)
    as (_ & _ & Hfilter & Hsent & _ & Hmerge).
  refine (conj Hle (conj _ (conj (Hsent sampleOrders) _))).
  - rewrite Hfilter. reflexivity.
  - apply (Hmerge sampleOrders (atProducts table12 [line beer 0])
                  table12 anonymous order1 (line beer 0)
                  eq_refl eq_refl eq_refl).
    + repeat constructor. intros [].
    + now left.
    + reflexivity.
    + discriminate.
    + discriminate.
Defined.

(** The cart of table 5 starts from its pending order (five beers, one
    wine); the beers are driven to 0 and leave the cart; the submission finds
    nothing new, shows the warning and issues no request, so the order keeps
    its five beers.  With a new product in the cart (table 12) a request is
    issued, without a line for the beers, and the merged order still holds
    five of them. *)
Lemma line_removed_from_cart_stays_on_order :
  let selected := fst (handleTableSelection [order3] [] table5 initialOrderStep) in
  let next := handleQuantityChange 10 0 selected in
  OrderStep.orderItems selected = [line beer 5; line wine 1]
  /\ OrderStep.orderItems next = [line wine 1]
  /\ handleSubmitOrder (number := Q) [order3] next = toast nothingNewToast
  /\ isWrite (handleSubmitOrder (number := Q) [order3] next) = false
  /\ quantityOf 10 (storedItems order3) = Some 5
  /\ (let selected12 :=
        fst (handleTableSelection sampleOrders [] table12 initialOrderStep) in
      let next12 := handleQuantityChange 10 0 (handleProductAdd wine selected12) in
      OrderStep.orderItems next12 = [line wine 1]
      /\ handleSubmitOrder (number := Q) sampleOrders next12
         = addItemsToOrderMutation 1 [Item.mk 11 1 "3.00"]
      /\ quantityOf 10 (mergeItems (storedItems order1) [Item.mk 11 1 "3.00"])
         = Some 5).
Proof. repeat split. Qed.

Lemma unchanged_cart_gives_warning_without_request_witness :
  handleSubmitOrder (number := Q) sampleOrders (atProducts table12 [line beer 5])
  = toast nothingNewToast.
Proof.
  refine (proj1 (unchanged_cart_gives_warning_without_request
                   (number := Q) sampleOrders (atProducts table12 [line beer 5])
                   table12 anonymous order1 eq_refl eq_refl _ eq_refl _)).
  - discriminate.
  - intros item [<- | []]. exists (OrderItem.mk 100 5 "5.00" beer). now split.
Defined.

Lemma total_is_double_sum_of_price_times_quantity_witness :
  calculateTotal (number := double) (atProducts table7 [line beer 2; line wine 1])
  = doubleOfZ 13
  /\ parseFloat (number := double) "5.00" = doubleOfZ 5.
Proof.
  destruct total_is_double_sum_of_price_times_quantity as (_ & Hwhole & _ & Hread).
  split.
  - apply (Hwhole (fun price => if (price =? "5.00")%string then 5 else 3)
                  (atProducts table7 [line beer 2; line wine 1])).
    + intros it [<- | [<- | []]]; repeat split; discriminate.
    + reflexivity.
  - assert (Hfive : 0 < 5 < 2 ^ 53) by (split; reflexivity).
    exact (Hread 5 2%positive Hfive).
Defined.

(** Three items at 0.10 total 0.30000000000000004 on doubles: neither the
    sum 0.30, nor the double nearest to it, nor three times what the double
    of 0.10 stands for; and this is the [totalAmount] submitted with the new
    order. *)
Lemma total_of_three_tenths_is_not_their_sum :
  let cart := atProducts table7 [line gum 3] in
  let total := calculateTotal (number := double) cart in
  total = S754_finite false 5404319552844596 (-54)
  /\ parseFloat (number := double) "0.30" = S754_finite false 5404319552844595 (-54)
  /\ total <> parseFloat "0.30"
  /\ (calculateTotal (number := Q) cart == 3 # 10)%Q
  /\ (forall value, doubleValue total = Some value -> ~ (value == 3 # 10)%Q)
  /\ (forall value tenth,
         doubleValue total = Some value ->
         doubleValue (parseFloat "0.10") = Some tenth ->
         ~ (value == tenth * 3)%Q)
  /\ handleSubmitOrder [] cart
     = createOrderMutation
         {| OrderData.tableId := 7;
            OrderData.creditClientId := None;
            OrderData.clientName := Some "Ana"%string;
            OrderData.totalAmount := S754_finite false 5404319552844596 (-54);
            OrderData.notes := ""%string;
            OrderData.items := [Item.mk 13 3 "0.10"] |}.
Proof.
  cbv zeta. refine (conj _ (conj _ (conj _ (conj _ (conj _ (conj _ _)))))).
  - vm_compute. reflexivity.
  - vm_compute. reflexivity.
  - intros Habs. vm_compute in Habs. discriminate.
  - reflexivity.
  - intros value Hvalue. vm_compute in Hvalue. inversion Hvalue; subst value.
    intros Habs. vm_compute in Habs. discriminate.
  - intros value tenth Hvalue Htenth. vm_compute in Hvalue, Htenth.
    inversion Hvalue; subst value. inversion Htenth; subst tenth.
    intros Habs. vm_compute in Habs. discriminate.
  - vm_compute. reflexivity.
Qed.

Lemma table_look_follows_status_and_pending_orders_witness :
  tableLook sampleOrders table12 = look_addable
  /\ tableLook sampleOrders table9 = look_occupied
  /\ clickTable sampleOrders [] table9 initialOrderStep = (initialOrderStep, None).
Proof.
  destruct (table_look_follows_status_and_pending_orders
              (number := Q) sampleOrders table12)
    as (_ & Haddable & _).
  destruct (table_look_follows_status_and_pending_orders
              (number := Q) sampleOrders table9)
    as (_ & _ & Hoccupied & _ & Hclick & _).
  split.
  - apply Haddable. split; [discriminate |]. exists order1.
    split; [right; now left | now split].
  - assert (Hlook : tableLook sampleOrders table9 = look_occupied).
    { apply Hoccupied. split; [discriminate |].
      intros order [<- | [<- | []]]; simpl; intros Htid; discriminate. }
    split; [exact Hlook | now apply Hclick].
Defined.

(** Table 9 has no pending order (its only order is being prepared), and yet
    it is not shown free. *)
Lemma table_without_pending_order_is_not_shown_free :
  (forall order,
      In order sampleOrders -> Order.tableId order = Table.id table9 ->
      Order.status order <> "pending")
  /\ hasPendingOrder sampleOrders table9 = false
  /\ tableLook sampleOrders table9 = look_occupied
  /\ tableLook sampleOrders table9 <> look_free.
Proof.
  split; [| repeat split; discriminate].
  intros order [<- | [<- | []]]; simpl; intros Htid; discriminate.
Qed.

Lemma submit_rejected_when_inputs_missing_witness :
  handleSubmitOrder (number := Q) sampleOrders initialOrderStep = toast validationToast
  /\ handleSubmitOrder (number := Q) sampleOrders (atProducts table7 [])
     = toast validationToast.
Proof.
  split.
  - refine (proj1 (submit_rejected_when_inputs_missing
                     (number := Q) sampleOrders initialOrderStep _)).
    now left.
  - refine (proj1 (submit_rejected_when_inputs_missing
                     (number := Q) sampleOrders (atProducts table7 []) _)).
    right. now right.
Defined.

Lemma out_of_stock_product_cannot_be_added_witness :
  addDisabled juice = true
  /\ clickProductAdd juice (atProducts table7 []) = atProducts table7 []
  /\ clickProductAdd beer (atProducts table7 []) = atProducts table7 [line beer 1].
Proof.
  destruct (out_of_stock_product_cannot_be_added juice) as (Hdisabled & Hstay & _).
  destruct (out_of_stock_product_cannot_be_added beer) as (_ & _ & Hadd & _).
  assert (Hnone : Product.stock juice <= 0) by discriminate.
  assert (Hsome : 0 < Product.stock beer) by reflexivity.
  split; [now apply Hdisabled |]. split; [now apply Hstay |].
  rewrite (proj1 (Hadd (atProducts table7 []) Hsome)). reflexivity.
Defined.

Lemma billing_mode_inferred_from_fixed_names_witness :
  inferClientType order2 = manager
  /\ inferClientType order1 = anonymous
  /\ inferClientType (Order.mk 3 7 (Some 4) (Some "Carl Malack") "pending" None [])
     = credit
  /\ inferClientType (Order.mk 4 7 None (Some "LUCELLE Reis") "pending" None [])
     = manager
  /\ inferClientType (Order.mk 5 7 None (Some carlWithKelvinSign) "pending" None [])
     = manager.
Proof.
  destruct (billing_mode_inferred_from_fixed_names order2) as (_ & _ & Hmanager & _).
  destruct (billing_mode_inferred_from_fixed_names order1) as (_ & _ & _ & Hanon & _).
  destruct (billing_mode_inferred_from_fixed_names
              (Order.mk 3 7 (Some 4) (Some "Carl Malack") "pending" None []))
    as (_ & Hcredit & _).
  destruct (billing_mode_inferred_from_fixed_names
              (Order.mk 4 7 None (Some "LUCELLE Reis") "pending" None []))
    as (_ & _ & _ & _ & Hascii & _).
  destruct (billing_mode_inferred_from_fixed_names
              (Order.mk 5 7 None (Some carlWithKelvinSign) "pending" None []))
    as (_ & _ & Hkelvin & _).
  refine (conj _ (conj _ (conj _ (conj _ _)))).
  - apply (Hmanager eq_refl). exists "Carl Malack"%string. split; [reflexivity | now left].
  - apply (Hanon eq_refl). intros [name [Hname [Hlow | Hlow]]];
      inversion Hname; subst; discriminate.
  - now apply Hcredit.
  - apply (Hascii "LUCELLE Reis"%string eq_refl eq_refl eq_refl). now right.
  - apply (Hkelvin eq_refl). exists carlWithKelvinSign. split; [reflexivity | now left].
Defined.

Lemma occupancy_percentage_is_well_defined_witness :
  occupancyPercent (Some (SessionStats.mk (Some 0) (Some 0) (Some 0)))
  = Finite (inject_Z 0)
  /\ occupancyPercent None = Finite (inject_Z 0)
  /\ occupancyDenominator (Some (SessionStats.mk (Some 7) (Some 3) (Some 12)))
     = Z.max 12 1
  /\ occupancyPercent (Some (SessionStats.mk (Some 7) (Some 3) (Some 12)))
     = Finite (inject_Z 25).
Proof.
  destruct (occupancy_percentage_is_well_defined
              (Some (SessionStats.mk (Some 0) (Some 0) (Some 0))))
    as (_ & _ & _ & _ & _ & Hzero).
  destruct (occupancy_percentage_is_well_defined None) as (_ & _ & _ & _ & _ & Hnone).
  destruct (occupancy_percentage_is_well_defined
              (Some (SessionStats.mk (Some 7) (Some 3) (Some 12))))
    as (_ & _ & Hmax & _).
  split; [now apply Hzero |]. split; [now apply Hnone |].
  split; [apply (Hmax 12); [reflexivity | discriminate] | reflexivity].
Defined.

(** * More of the component: properties *)

(** ** The cart *)

Lemma map_keeps_product_ids (f : CartLine.t -> CartLine.t) (l : list CartLine.t) :
  (forall item, lineProductId (f item) = lineProductId item) ->
  map lineProductId (map f l) = map lineProductId l.
Proof.
  intros Hf. rewrite map_map. apply map_ext. exact Hf.
Qed.

Lemma find_lineIs_None (productId : Z) (l : list CartLine.t) :
  find (lineIs productId) l = None <-> ~ In productId (map lineProductId l).
Proof.
  induction l as [| item l IH]; simpl; [tauto |].
  unfold lineIs at 1, lineProductId at 1.
  destruct (Z.eqb_spec (Product.id (CartLine.product item)) productId) as [Heq | Hne].
  - split; [discriminate | intros Hno; exfalso; apply Hno; now left].
  - rewrite IH. tauto.
Qed.

Lemma setQuantity_ids (productId : Z) (g : Z -> Z) (l : list CartLine.t) :
  map lineProductId
      (map (fun item =>
              if lineIs productId item
              then {| CartLine.product := CartLine.product item;
                      CartLine.quantity := g (CartLine.quantity item) |}
              else item) l)
  = map lineProductId l.
Proof.
  apply map_keeps_product_ids. intros item. now destruct (lineIs productId item).
Qed.

(** X1. The cart keeps one line per product: from a cart without two lines
    for one product, adding a product, removing one and changing a quantity
    each give such a cart again; and selecting a table whose pending order has
    one item per product starts from such a cart. *)
Theorem cart_keeps_one_line_per_product {strings : JsString} (prev : OrderStep.t) :
  NoDup (map lineProductId (OrderStep.orderItems prev)) ->
  (forall product,
      NoDup (map lineProductId (OrderStep.orderItems (handleProductAdd product prev))))
  /\ (forall productId,
         NoDup (map lineProductId
                    (OrderStep.orderItems (handleProductRemove productId prev))))
  /\ (forall productId quantity,
         NoDup (map lineProductId
                    (OrderStep.orderItems
                       (handleQuantityChange productId quantity prev))))
  /\ (forall ordersList creditClientsList table existingOrder,
         find (isPendingFor (Table.id table)) ordersList = Some existingOrder ->
         NoDup (existingProductIds existingOrder) ->
         NoDup (map lineProductId
                    (OrderStep.orderItems
                       (fst (handleTableSelection ordersList creditClientsList
                                                  table prev))))).
Proof.
  intros Hnd. assert (Hremove : forall productId,
    NoDup (map lineProductId
               (OrderStep.orderItems (handleProductRemove productId prev)))).
  { intros productId. unfold handleProductRemove, withOrderItems.
    cbn [OrderStep.orderItems]. now apply filter_keeps_distinct_keys. }
  refine (conj _ (conj Hremove (conj _ _))).
  - intros product. unfold handleProductAdd.
    destruct (find (lineIs (Product.id product)) (OrderStep.orderItems prev))
      as [found |] eqn:Hfind; cbn [withOrderItems OrderStep.orderItems].
    + now rewrite (setQuantity_ids (Product.id product) (fun q => q + 1)).
    + rewrite map_app. simpl. apply NoDup_app; [exact Hnd | repeat constructor; intros [] |].
      intros a Hin [<- | []]. apply find_lineIs_None in Hfind. contradiction.
  - intros productId quantity. unfold handleQuantityChange.
    destruct (quantity <=? 0); [apply Hremove |].
    cbn [withOrderItems OrderStep.orderItems].
    now rewrite (setQuantity_ids productId (fun _ => quantity)).
  - intros ordersList creditClientsList table existingOrder Hfind Hids.
    unfold handleTableSelection. rewrite Hfind. cbn [fst OrderStep.orderItems].
    rewrite map_map. exact Hids.
Qed.

Lemma cart_keeps_one_line_per_product_witness :
  NoDup (map lineProductId
             (OrderStep.orderItems
                (handleProductAdd beer (atProducts table7 [line beer 1; line wine 2]))))
  /\ OrderStep.orderItems
       (handleProductAdd beer (atProducts table7 [line beer 1; line wine 2]))
     = [line beer 2; line wine 2].
Proof.
  assert (Hnd : NoDup (map lineProductId
                           (OrderStep.orderItems
                              (atProducts table7 [line beer 1; line wine 2])))).
  { repeat constructor; simpl; intuition discriminate. }
  split; [| reflexivity].
  exact (proj1 (cart_keeps_one_line_per_product _ Hnd) beer).
Defined.

(** X2. The cart never holds a line of quantity 0 or less: from a cart whose
    quantities are all positive, adding a product, removing one and changing
    a quantity to any value, positive or not, give such a cart again. *)
Theorem cart_quantities_stay_positive (prev : OrderStep.t) :
  Forall (fun item => 0 < CartLine.quantity item) (OrderStep.orderItems prev) ->
  (forall product,
      Forall (fun item => 0 < CartLine.quantity item)
             (OrderStep.orderItems (handleProductAdd product prev)))
  /\ (forall productId,
         Forall (fun item => 0 < CartLine.quantity item)
                (OrderStep.orderItems (handleProductRemove productId prev)))
  /\ (forall productId quantity,
         Forall (fun item => 0 < CartLine.quantity item)
                (OrderStep.orderItems (handleQuantityChange productId quantity prev))).
Proof.
  intros Hpos. rewrite Forall_forall in Hpos.
  assert (Hremove : forall productId,
             Forall (fun item => 0 < CartLine.quantity item)
                    (OrderStep.orderItems (handleProductRemove productId prev))).
  { intros productId. apply Forall_forall. intros item Hin.
    unfold handleProductRemove, withOrderItems in Hin.
    cbn [OrderStep.orderItems] in Hin. apply filter_In in Hin. now apply Hpos. }
  refine (conj _ (conj Hremove _)).
  - intros product. apply Forall_forall. intros item. unfold handleProductAdd.
    destruct (find (lineIs (Product.id product)) (OrderStep.orderItems prev));
      cbn [withOrderItems OrderStep.orderItems]; intros Hin.
    + apply in_map_iff in Hin. destruct Hin as [old [<- Hold]].
      specialize (Hpos old Hold).
      destruct (lineIs (Product.id product) old); simpl; lia.
    + apply in_app_or in Hin. destruct Hin as [Hin | [<- | []]];
        [now apply Hpos | reflexivity].
  - intros productId quantity. unfold handleQuantityChange.
    destruct (Z.leb_spec quantity 0) as [Hle | Hgt]; [apply Hremove |].
    apply Forall_forall. intros item. cbn [withOrderItems OrderStep.orderItems].
    intros Hin. apply in_map_iff in Hin. destruct Hin as [old [<- Hold]].
    specialize (Hpos old Hold). now destruct (lineIs productId old).
Qed.

Lemma cart_quantities_stay_positive_witness :
  Forall (fun item => 0 < CartLine.quantity item)
         (OrderStep.orderItems
            (handleQuantityChange 10 (-3) (atProducts table7 [line beer 1; line wine 2])))
  /\ OrderStep.orderItems
       (handleQuantityChange 10 (-3) (atProducts table7 [line beer 1; line wine 2]))
     = [line wine 2].
Proof.
  assert (Hpos : Forall (fun item => 0 < CartLine.quantity item)
                        (OrderStep.orderItems
                           (atProducts table7 [line beer 1; line wine 2]))).
  { repeat constructor. }
  split; [| reflexivity].
  exact (proj2 (proj2 (cart_quantities_stay_positive _ Hpos)) 10 (-3)).
Defined.

Lemma cartQuantity_cons (productId : Z) (item : CartLine.t) (l : list CartLine.t) :
  cartQuantity productId (item :: l)
  = if lineIs productId item then Some (CartLine.quantity item)
    else cartQuantity productId l.
Proof. unfold cartQuantity. simpl. now destruct (lineIs productId item). Qed.

Lemma cartQuantity_app (productId : Z) (l1 l2 : list CartLine.t) :
  cartQuantity productId (l1 ++ l2)
  = match cartQuantity productId l1 with
    | Some q => Some q
    | None => cartQuantity productId l2
    end.
Proof.
  induction l1 as [| item l1 IH]; [reflexivity |].
  simpl app. rewrite !cartQuantity_cons. now destruct (lineIs productId item).
Qed.

(** The quantity of a product after the quantities of the lines of
    [productId] went through [g]. *)
Lemma cartQuantity_setQuantity (productId other : Z) (g : Z -> Z) (l : list CartLine.t) :
  cartQuantity other
    (map (fun item =>
            if lineIs productId item
            then {| CartLine.product := CartLine.product item;
                    CartLine.quantity := g (CartLine.quantity item) |}
            else item) l)
  = if other =? productId then option_map g (cartQuantity other l)
    else cartQuantity other l.
Proof.
  induction l as [| item l IH]; simpl map.
  - now destruct (other =? productId).
  - rewrite !cartQuantity_cons, IH. unfold lineIs.
    destruct (Z.eqb_spec (Product.id (CartLine.product item)) productId) as [Hp | Hp];
      cbn [CartLine.product CartLine.quantity];
      destruct (Z.eqb_spec (Product.id (CartLine.product item)) other) as [Ho | Ho];
      destruct (Z.eqb_spec other productId) as [Hop | Hop];
      try reflexivity; congruence.
Qed.

(** X3. Adding a product raises the quantity the cart shows for it by
    exactly one, starting at 1 when the cart had no line for it, and leaves
    the quantity of every other product as it was. *)
Theorem add_raises_quantity_by_one (product : Product.t) (prev : OrderStep.t) :
  let next := OrderStep.orderItems (handleProductAdd product prev) in
  cartQuantity (Product.id product) next
  = Some (match cartQuantity (Product.id product) (OrderStep.orderItems prev) with
          | Some quantity => quantity + 1
          | None => 1
          end)
  /\ (forall other,
         other <> Product.id product ->
         cartQuantity other next = cartQuantity other (OrderStep.orderItems prev))
  /\ List.length next
     = match cartQuantity (Product.id product) (OrderStep.orderItems prev) with
       | Some _ => List.length (OrderStep.orderItems prev)
       | None => S (List.length (OrderStep.orderItems prev))
       end.
Proof.
  intros next. subst next. unfold handleProductAdd.
  destruct (find (lineIs (Product.id product)) (OrderStep.orderItems prev))
    as [found |] eqn:Hfind; cbn [withOrderItems OrderStep.orderItems].
  - assert (Hq : cartQuantity (Product.id product) (OrderStep.orderItems prev)
                 = Some (CartLine.quantity found))
      by (unfold cartQuantity; now rewrite Hfind).
    rewrite Hq, length_map. repeat split.
    + now rewrite (cartQuantity_setQuantity _ _ (fun q => q + 1)), Z.eqb_refl, Hq.
    + intros other Hother.
      rewrite (cartQuantity_setQuantity _ _ (fun q => q + 1)).
      apply Z.eqb_neq in Hother. now rewrite Hother.
  - assert (Hq : cartQuantity (Product.id product) (OrderStep.orderItems prev) = None)
      by (unfold cartQuantity; now rewrite Hfind).
    rewrite Hq, length_app, Nat.add_comm. repeat split.
    + rewrite cartQuantity_app, Hq.
      rewrite cartQuantity_cons. unfold lineIs. simpl. now rewrite Z.eqb_refl.
    + intros other Hother. rewrite cartQuantity_app.
      destruct (cartQuantity other (OrderStep.orderItems prev)); [reflexivity |].
      rewrite cartQuantity_cons. unfold lineIs. simpl.
      destruct (Z.eqb_spec (Product.id product) other); [congruence | reflexivity].
Qed.

(** X4. Changing a quantity to a positive value sets the quantity of a
    product that has a line and creates no line for one that has none: the
    cart is then exactly as before.  No other product is touched. *)
Theorem positive_quantity_change_updates_only_existing_line
    (productId quantity : Z) (prev : OrderStep.t) :
  0 < quantity ->
  let next := OrderStep.orderItems (handleQuantityChange productId quantity prev) in
  cartQuantity productId next
  = option_map (fun _ => quantity)
               (cartQuantity productId (OrderStep.orderItems prev))
  /\ (forall other,
         other <> productId ->
         cartQuantity other next = cartQuantity other (OrderStep.orderItems prev))
  /\ (cartQuantity productId (OrderStep.orderItems prev) = None ->
      next = OrderStep.orderItems prev)
  /\ List.length next = List.length (OrderStep.orderItems prev).
Proof.
  intros Hpos next. subst next. unfold handleQuantityChange.
  destruct (Z.leb_spec quantity 0) as [Hle | _]; [lia |].
  cbn [withOrderItems OrderStep.orderItems]. rewrite length_map.
  repeat split.
  - now rewrite (cartQuantity_setQuantity _ _ (fun _ => quantity)), Z.eqb_refl.
  - intros other Hother.
    rewrite (cartQuantity_setQuantity _ _ (fun _ => quantity)).
    apply Z.eqb_neq in Hother. now rewrite Hother.
  - unfold cartQuantity. intros Hnone.
    assert (Hfind : find (lineIs productId) (OrderStep.orderItems prev) = None)
      by (destruct (find (lineIs productId) (OrderStep.orderItems prev));
          [discriminate | reflexivity]).
    clear Hnone. induction (OrderStep.orderItems prev) as [| item l IH];
      [reflexivity |].
    simpl in Hfind |- *. destruct (lineIs productId item); [discriminate |].
    now rewrite IH.
Qed.

Lemma positive_quantity_change_updates_only_existing_line_witness :
  OrderStep.orderItems
    (handleQuantityChange 11 4 (atProducts table7 [line beer 1]))
  = [line beer 1]
  /\ cartQuantity 10
       (OrderStep.orderItems (handleQuantityChange 10 4 (atProducts table7 [line beer 1])))
     = Some 4.
Proof.
  assert (Hpos : 0 < 4) by reflexivity.
  split.
  - apply (positive_quantity_change_updates_only_existing_line
             11 4 (atProducts table7 [line beer 1]) Hpos).
    reflexivity.
  - exact (proj1 (positive_quantity_change_updates_only_existing_line
                    10 4 (atProducts table7 [line beer 1]) Hpos)).
Defined.

Lemma filter_other_lines_id (productId : Z) (l : list CartLine.t) :
  find (lineIs productId) l = None ->
  filter (fun item => negb (lineIs productId item)) l = l.
Proof.
  induction l as [| item l IH]; simpl; [reflexivity |].
  destruct (lineIs productId item); [discriminate |].
  intros Hnone. simpl. now rewrite IH.
Qed.

Lemma withOrderItems_same (prev : OrderStep.t) :
  withOrderItems prev (OrderStep.orderItems prev) = prev.
Proof. now destruct prev. Qed.

(** X5. Removing a product undoes adding it: when the cart had no line for
    the product, add then remove gives back the very state; in every case the
    cart is what removing alone would leave, and shows nothing for the
    product. *)
Theorem remove_undoes_add (product : Product.t) (prev : OrderStep.t) :
  let undone := handleProductRemove (Product.id product) (handleProductAdd product prev) in
  (cartQuantity (Product.id product) (OrderStep.orderItems prev) = None ->
   undone = prev)
  /\ OrderStep.orderItems undone
     = OrderStep.orderItems (handleProductRemove (Product.id product) prev)
  /\ cartQuantity (Product.id product) (OrderStep.orderItems undone) = None.
Proof.
  intros undone. subst undone.
  assert (Hsame : OrderStep.orderItems
                    (handleProductRemove (Product.id product)
                                         (handleProductAdd product prev))
                  = OrderStep.orderItems
                      (handleProductRemove (Product.id product) prev)).
  { unfold handleProductRemove, handleProductAdd.
    destruct (find (lineIs (Product.id product)) (OrderStep.orderItems prev));
      cbn [withOrderItems OrderStep.orderItems].
    - induction (OrderStep.orderItems prev) as [| item l IH]; [reflexivity |].
      simpl. destruct (lineIs (Product.id product) item) eqn:His.
      + unfold lineIs in His |- *. cbn [CartLine.product]. rewrite His. simpl.
        exact IH.
      + rewrite His. simpl. now rewrite IH.
    - rewrite filter_app. simpl. unfold lineIs at 2. simpl.
      rewrite Z.eqb_refl. simpl. apply app_nil_r. }
  refine (conj _ (conj Hsame _)).
  - intros Hnone. unfold cartQuantity in Hnone.
    assert (Hfind : find (lineIs (Product.id product)) (OrderStep.orderItems prev) = None)
      by (destruct (find (lineIs (Product.id product)) (OrderStep.orderItems prev));
          [discriminate | reflexivity]).
    unfold handleProductRemove, handleProductAdd. rewrite Hfind.
    destruct prev as [step table type client aname mname cart notes].
    unfold withOrderItems. cbn in Hfind |- *. f_equal.
    rewrite filter_app. simpl. unfold lineIs at 2. simpl. rewrite Z.eqb_refl. simpl.
    rewrite app_nil_r. now apply filter_other_lines_id.
  - rewrite Hsame. unfold handleProductRemove, withOrderItems, cartQuantity.
    cbn [OrderStep.orderItems].
    assert (Hnone : find (lineIs (Product.id product))
                         (filter (fun item => negb (lineIs (Product.id product) item))
                                 (OrderStep.orderItems prev)) = None).
    { induction (OrderStep.orderItems prev) as [| item l IH]; [reflexivity |].
      simpl. destruct (lineIs (Product.id product) item) eqn:His; simpl;
        [exact IH | now rewrite His]. }
    now rewrite Hnone.
Qed.

Lemma remove_undoes_add_witness :
  handleProductRemove 11 (handleProductAdd wine (atProducts table7 [line beer 2]))
  = atProducts table7 [line beer 2].
Proof.
  apply (remove_undoes_add wine (atProducts table7 [line beer 2])). reflexivity.
Defined.

(** X6. The plus and minus buttons of a line compose: in a cart with one line
    per product, plus and then minus on a line of positive quantity give the
    cart back; and minus on a line of quantity 1 removes the line instead of
    leaving it at 0. *)
Theorem plus_then_minus_restores_cart (item : CartLine.t) (prev : OrderStep.t) :
  In item (OrderStep.orderItems prev) ->
  NoDup (map lineProductId (OrderStep.orderItems prev)) ->
  0 < CartLine.quantity item ->
  let raised := {| CartLine.product := CartLine.product item;
                   CartLine.quantity := CartLine.quantity item + 1 |} in
  In raised (OrderStep.orderItems (clickPlus item prev))
  /\ OrderStep.orderItems (clickMinus raised (clickPlus item prev))
     = OrderStep.orderItems prev
  /\ (CartLine.quantity item = 1 ->
      cartQuantity (lineProductId item)
                   (OrderStep.orderItems (clickMinus item prev)) = None
      /\ OrderStep.orderItems (clickMinus item prev)
         = filter (fun other => negb (lineIs (lineProductId item) other))
                  (OrderStep.orderItems prev)).
Proof.
  intros Hin Hnd Hpos raised. subst raised.
  unfold clickPlus, clickMinus, handleQuantityChange. cbn [CartLine.product CartLine.quantity].
  destruct (Z.leb_spec (CartLine.quantity item + 1) 0) as [Hle | _]; [lia |].
  destruct (Z.leb_spec (CartLine.quantity item + 1 - 1) 0) as [Hle | _]; [lia |].
  cbn [withOrderItems OrderStep.orderItems].
  refine (conj _ (conj _ _)).
  - apply in_map_iff. exists item. split; [| exact Hin].
    unfold lineIs. now rewrite Z.eqb_refl.
  - rewrite map_map. rewrite <- (map_id (OrderStep.orderItems prev)) at 2.
    apply map_ext_in. intros other Hother.
    destruct (lineIs (Product.id (CartLine.product item)) other) eqn:His.
    + unfold lineIs in His |- *. cbn [CartLine.product]. rewrite His.
      apply Z.eqb_eq in His.
      assert (other = item) as ->
        by (apply (distinct_keys_injective lineProductId (OrderStep.orderItems prev));
            assumption).
      destruct item as [p q]. simpl. f_equal. lia.
    + now rewrite His.
  - intros Hone. rewrite Hone. cbn [Z.sub Z.add Z.leb Z.compare Z.opp Z.pos_sub].
    unfold handleProductRemove, withOrderItems, lineProductId.
    cbn [OrderStep.orderItems]. split; [| reflexivity].
    unfold cartQuantity.
    assert (Hnone : forall l,
               find (lineIs (Product.id (CartLine.product item)))
                    (filter (fun other =>
                               negb (lineIs (Product.id (CartLine.product item)) other)) l)
               = None).
    { induction l as [| other l IH]; [reflexivity |].
      simpl. destruct (lineIs (Product.id (CartLine.product item)) other) eqn:His; simpl;
        [exact IH | now rewrite His]. }
    now rewrite Hnone.
Qed.

Lemma plus_then_minus_restores_cart_witness :
  OrderStep.orderItems
    (clickMinus (line beer 3)
                (clickPlus (line beer 2) (atProducts table7 [line beer 2; line wine 1])))
  = [line beer 2; line wine 1]
  /\ OrderStep.orderItems
       (clickMinus (line wine 1) (atProducts table7 [line beer 2; line wine 1]))
     = [line beer 2].
Proof.
  assert (Hnd : NoDup (map lineProductId
                           (OrderStep.orderItems
                              (atProducts table7 [line beer 2; line wine 1])))).
  { repeat constructor; simpl; intuition discriminate. }
  split.
  - refine (proj1 (proj2 (plus_then_minus_restores_cart
                            (line beer 2) (atProducts table7 [line beer 2; line wine 1])
                            _ Hnd _))); [now left | reflexivity].
  - assert (Hone : 0 < CartLine.quantity (line wine 1)) by reflexivity.
    refine (eq_trans
              (proj2 (proj2 (proj2 (plus_then_minus_restores_cart
                                      (line wine 1)
                                      (atProducts table7 [line beer 2; line wine 1])
                                      _ Hnd Hone)) eq_refl))
              eq_refl).
    right. now left.
Defined.

(** ** Submitting a pre-populated cart *)

Section PrepopulatedFacts.

Context {number : Type} `{JsArith number}.
Context {strings : JsString}.

Lemma no_item_differs_from_itself (items : list OrderItem.t) :
  filter (fun item => negb (OrderItem.quantity item =? OrderItem.quantity item)) items
  = [].
Proof.
  induction items as [| item items IH]; [reflexivity |].
  simpl. rewrite Z.eqb_refl. exact IH.
Qed.

Lemma find_line_of_item (productId : Z) (items : list OrderItem.t) :
  find (lineIs productId)
       (map (fun item => {| CartLine.product := OrderItem.product item;
                            CartLine.quantity := OrderItem.quantity item |})
            items)
  = option_map
      (fun item => {| CartLine.product := OrderItem.product item;
                      CartLine.quantity := OrderItem.quantity item |})
      (find (fun item => Product.id (OrderItem.product item) =? productId) items).
Proof.
  induction items as [| item items IH]; [reflexivity |].
  simpl. unfold lineIs at 1. cbn [CartLine.product].
  destruct (Product.id (OrderItem.product item) =? productId);
    [reflexivity | exact IH].
Qed.

(** The line [handleTableSelection] makes of an item, at another quantity. *)
Lemma findExisting_own_item (existingOrder : Order.t) (item : OrderItem.t) (quantity : Z) :
  NoDup (existingProductIds existingOrder) ->
  In item (Order.items existingOrder) ->
  findExisting existingOrder
               {| CartLine.product := OrderItem.product item;
                  CartLine.quantity := quantity |}
  = Some item.
Proof.
  unfold findExisting, existingProductIds. cbn [CartLine.product].
  induction (Order.items existingOrder) as [| first rest IH]; simpl;
    intros Hnd Hin; [destruct Hin |].
  inversion Hnd as [| ? ? Hfresh Hrest]; subst.
  destruct Hin as [-> | Hin]; [now rewrite Z.eqb_refl |].
  destruct (Z.eqb_spec (Product.id (OrderItem.product first))
                       (Product.id (OrderItem.product item))) as [Heq | Hne];
    [| now apply IH].
  exfalso. apply Hfresh. rewrite Heq.
  apply (in_map (fun i => Product.id (OrderItem.product i))). exact Hin.
Qed.

(** What is sent when each item of the order stands in the cart at the
    quantity [quantityOf item]: the lines whose quantity differs. *)
Lemma itemsToAdd_of_order_lines (existingOrder : Order.t) (newQuantity : OrderItem.t -> Z) :
  NoDup (existingProductIds existingOrder) ->
  itemsToAdd existingOrder
    (map (fun item => {| CartLine.product := OrderItem.product item;
                         CartLine.quantity := newQuantity item |})
         (Order.items existingOrder))
  = map (fun item => toItem {| CartLine.product := OrderItem.product item;
                               CartLine.quantity := newQuantity item |})
        (filter (fun item => negb (newQuantity item =? OrderItem.quantity item))
                (Order.items existingOrder)).
Proof.
  intros Hnd. rewrite itemsToAdd_eq. unfold newItems, updatedItems.
  assert (Hon : forall l,
             incl l (Order.items existingOrder) ->
             filter (fun item =>
                       negb (includes (existingProductIds existingOrder)
                                      (Product.id (CartLine.product item))))
                    (map (fun item => {| CartLine.product := OrderItem.product item;
                                         CartLine.quantity := newQuantity item |}) l)
             = []
             /\ filter (quantityChanged existingOrder)
                  (filter (fun item =>
                             includes (existingProductIds existingOrder)
                                      (Product.id (CartLine.product item)))
                          (map (fun item =>
                                  {| CartLine.product := OrderItem.product item;
                                     CartLine.quantity := newQuantity item |}) l))
                = map (fun item => {| CartLine.product := OrderItem.product item;
                                      CartLine.quantity := newQuantity item |})
                      (filter (fun item =>
                                 negb (newQuantity item =? OrderItem.quantity item)) l)).
  { induction l as [| item l IH]; intros Hincl; [split; reflexivity |].
    assert (Hitem : In item (Order.items existingOrder)) by (apply Hincl; now left).
    destruct IH as [IHnew IHupd]; [intros x Hx; apply Hincl; now right |].
    assert (Hinc : includes (existingProductIds existingOrder)
                            (Product.id (OrderItem.product item)) = true).
    { apply (findExisting_includes existingOrder
               {| CartLine.product := OrderItem.product item;
                  CartLine.quantity := newQuantity item |}).
      exists item. now apply findExisting_own_item. }
    simpl. rewrite Hinc. simpl. split; [exact IHnew |].
    unfold quantityChanged at 1.
    rewrite (findExisting_own_item existingOrder item (newQuantity item) Hnd Hitem).
    cbn [CartLine.quantity].
    destruct (negb (newQuantity item =? OrderItem.quantity item)); simpl;
      now rewrite IHupd. }
  destruct (Hon (Order.items existingOrder) (incl_refl _)) as [Hnew Hupd].
  rewrite Hnew, Hupd. simpl. now rewrite map_map.
Qed.

(** X22. After a table with a pending order was selected in the grid (the
    order holding one item per product, and at least one), submitting the
    untouched cart sends nothing and shows the warning.  After one more click
    on a product of the catalog, the request holds that product alone: at
    quantity 1 if the order did not hold it, at one more than the order's
    quantity if it did; the other lines of the order are not sent again. *)
Theorem submitting_a_prepopulated_cart_sends_only_the_change
    (ordersList : list Order.t) (creditClientsList : list CreditClient.t)
    (table : Table.t) (prev : OrderStep.t) (existingOrder : Order.t)
    (product : Product.t) :
  find (isPendingFor (Table.id table)) ordersList = Some existingOrder ->
  NoDup (existingProductIds existingOrder) ->
  Order.items existingOrder <> [] ->
  let selected := fst (handleTableSelection ordersList creditClientsList table prev) in
  handleSubmitOrder (number := number) ordersList selected = toast nothingNewToast
  /\ handleSubmitOrder (number := number) ordersList (handleProductAdd product selected)
     = addItemsToOrderMutation
         (Order.id existingOrder)
         [match find (fun item => Product.id (OrderItem.product item) =? Product.id product)
                     (Order.items existingOrder) with
          | Some item =>
              {| Item.productId := Product.id product;
                 Item.quantity := OrderItem.quantity item + 1;
                 Item.price := Product.price (OrderItem.product item) |}
          | None =>
              {| Item.productId := Product.id product;
                 Item.quantity := 1;
                 Item.price := Product.price product |}
          end].
Proof.
  intros Hfind Hnd Hitems selected.
  assert (Hsel : OrderStep.selectedTable selected = Some table
                 /\ OrderStep.clientType selected = Some (inferClientType existingOrder)
                 /\ OrderStep.orderItems selected
                    = map (fun item => {| CartLine.product := OrderItem.product item;
                                          CartLine.quantity := OrderItem.quantity item |})
                          (Order.items existingOrder)).
  { subst selected. unfold handleTableSelection. rewrite Hfind. simpl. auto. }
  destruct Hsel as (Htable & Htype & Hcart).
  split.
  - rewrite (submit_on_existing _ _ _ _ _ Htable Htype Hfind), Hcart.
    rewrite (itemsToAdd_of_order_lines existingOrder OrderItem.quantity Hnd).
    rewrite no_item_differs_from_itself. destruct (Order.items existingOrder); [now exfalso | reflexivity].
  - assert (Hadded : OrderStep.selectedTable (handleProductAdd product selected) = Some table
                     /\ OrderStep.clientType (handleProductAdd product selected)
                        = Some (inferClientType existingOrder)).
    { unfold handleProductAdd.
      destruct (find (lineIs (Product.id product)) (OrderStep.orderItems selected));
        simpl; auto. }
    destruct Hadded as (Htable' & Htype').
    rewrite (submit_on_existing _ _ _ _ _ Htable' Htype' Hfind).
    unfold handleProductAdd. rewrite Hcart.
    rewrite find_line_of_item.
    destruct (find (fun item => Product.id (OrderItem.product item) =? Product.id product)
                   (Order.items existingOrder)) as [found |] eqn:Hfound;
      cbn [option_map withOrderItems OrderStep.orderItems].
    + (* the product is on the order: its line goes up by one *)
      rewrite map_map.
      assert (Hlines :
                map (fun item =>
                       if lineIs (Product.id product)
                                 {| CartLine.product := OrderItem.product item;
                                    CartLine.quantity := OrderItem.quantity item |}
                       then {| CartLine.product := OrderItem.product item;
                               CartLine.quantity := OrderItem.quantity item + 1 |}
                       else {| CartLine.product := OrderItem.product item;
                               CartLine.quantity := OrderItem.quantity item |})
                    (Order.items existingOrder)
                = map (fun item =>
                         {| CartLine.product := OrderItem.product item;
                            CartLine.quantity :=
                              if Product.id (OrderItem.product item) =? Product.id product
                              then OrderItem.quantity item + 1
                              else OrderItem.quantity item |})
                      (Order.items existingOrder)).
      { apply map_ext. intros item. unfold lineIs. cbn [CartLine.product].
        now destruct (Product.id (OrderItem.product item) =? Product.id product). }
      cbn [CartLine.product CartLine.quantity] in Hlines |- *.
      rewrite Hlines.
      rewrite (itemsToAdd_of_order_lines
                 existingOrder
                 (fun item =>
                    if Product.id (OrderItem.product item) =? Product.id product
                    then OrderItem.quantity item + 1
                    else OrderItem.quantity item) Hnd).
      assert (Honly :
                filter (fun item =>
                          negb ((if Product.id (OrderItem.product item) =? Product.id product
                                 then OrderItem.quantity item + 1
                                 else OrderItem.quantity item)
                                =? OrderItem.quantity item))
                       (Order.items existingOrder)
                = [found]).
      { clear - Hnd Hfound. unfold existingProductIds in Hnd.
        induction (Order.items existingOrder) as [| item l IH]; [discriminate |].
        simpl in Hfound, Hnd |- *. inversion Hnd as [| ? ? Hfresh Hrest]; subst.
        destruct (Z.eqb_spec (Product.id (OrderItem.product item)) (Product.id product))
          as [Heq | Hne].
        - inversion Hfound; subst found. clear Hfound.
          replace (OrderItem.quantity item + 1 =? OrderItem.quantity item) with false
            by (symmetry; apply Z.eqb_neq; lia).
          simpl. f_equal.
          assert (Hrestnone : forall l',
                     ~ In (Product.id (OrderItem.product item))
                          (map (fun i => Product.id (OrderItem.product i)) l') ->
                     filter (fun i =>
                               negb ((if Product.id (OrderItem.product i) =? Product.id product
                                      then OrderItem.quantity i + 1
                                      else OrderItem.quantity i)
                                     =? OrderItem.quantity i)) l' = []).
          { induction l' as [| i l' IH']; [reflexivity |]. simpl. intros Hno.
            destruct (Z.eqb_spec (Product.id (OrderItem.product i)) (Product.id product))
              as [Hi | Hi]; [exfalso; apply Hno; left; congruence |].
            rewrite Z.eqb_refl. simpl. apply IH'. tauto. }
          now apply Hrestnone.
        - rewrite Z.eqb_refl. simpl. now apply IH. }
      rewrite Honly. cbn [map List.length Nat.ltb Nat.leb].
      apply find_some in Hfound. destruct Hfound as [_ Hid].
      rewrite Hid. unfold toItem. cbn [CartLine.product CartLine.quantity].
      apply Z.eqb_eq in Hid. rewrite Hid.
      destruct (Order.items existingOrder); [now exfalso | reflexivity].
    + (* the product is new to the order *)
      rewrite itemsToAdd_eq. unfold newItems, updatedItems.
      rewrite !filter_app.
      assert (Hold := itemsToAdd_of_order_lines existingOrder OrderItem.quantity Hnd).
      rewrite itemsToAdd_eq in Hold. unfold newItems, updatedItems in Hold.
      rewrite no_item_differs_from_itself in Hold. simpl in Hold. apply app_eq_nil in Hold.
      destruct Hold as [Hnew Hupd].
      apply map_eq_nil in Hnew. apply map_eq_nil in Hupd.
      rewrite Hnew.
      assert (Hnot : includes (existingProductIds existingOrder) (Product.id product)
                     = false).
      { destruct (includes (existingProductIds existingOrder) (Product.id product))
          eqn:Hinc; [| reflexivity].
        apply (findExisting_includes existingOrder
                 {| CartLine.product := product; CartLine.quantity := 1 |}) in Hinc.
        destruct Hinc as [e He]. unfold findExisting in He. simpl in He. congruence. }
      simpl. rewrite Hnot. simpl. rewrite app_nil_r, Hupd.
      destruct (Order.items existingOrder); reflexivity.
Qed.

End PrepopulatedFacts.

Lemma submitting_a_prepopulated_cart_sends_only_the_change_witness :
  handleSubmitOrder (number := Q) sampleOrders
    (handleProductAdd beer (fst (handleTableSelection sampleOrders [] table12 initialOrderStep)))
  = addItemsToOrderMutation 1 [Item.mk 10 6 "5.00"].
Proof.
  assert (Hitems : Order.items order1 <> []) by discriminate.
  assert (Hnd : NoDup (existingProductIds order1))
    by (repeat constructor; intros []).
  exact (proj2 (submitting_a_prepopulated_cart_sends_only_the_change
                  (number := Q) sampleOrders [] table12 initialOrderStep order1 beer
                  eq_refl Hnd Hitems)).
Defined.

(** ** The URL pre-selection, the banner and the billing fields *)

Section FlowFacts.

Context {number : Type} `{JsArith number}.
Context {strings : JsString}.

Lemma itemsToAdd_single (existingOrder : Order.t) (item : CartLine.t) :
  itemsToAdd existingOrder [item]
  = match findExisting existingOrder item with
    | Some existingItem =>
        if CartLine.quantity item =? OrderItem.quantity existingItem
        then [] else [toItem item]
    | None => [toItem item]
    end.
Proof.
  rewrite itemsToAdd_eq. unfold newItems, updatedItems. simpl.
  destruct (findExisting existingOrder item) as [e |] eqn:He.
  - assert (Hinc : includes (existingProductIds existingOrder)
                            (Product.id (CartLine.product item)) = true)
      by (apply findExisting_includes; now exists e).
    rewrite Hinc. simpl. unfold quantityChanged. rewrite He.
    now destruct (CartLine.quantity item =? OrderItem.quantity e).
  - destruct (includes (existingProductIds existingOrder)
                       (Product.id (CartLine.product item))) eqn:Hinc; [| reflexivity].
    apply findExisting_includes in Hinc. destruct Hinc as [e He']. congruence.
Qed.

(** X7. A table pre-selected by the URL goes to the client step whether or
    not an order is pending for it, and the cart is not filled from that
    order.  When one is pending, choosing a client and adding a product once
    still never creates an order: the submission asks the pending order to
    hold the product at quantity 1, whatever quantity it held, or warns that
    nothing is new when it held exactly 1. *)
Theorem preselected_table_with_pending_order_is_merged
    (parseInt : string -> option Z) (param : string)
    (tablesList : list Table.t) (ordersList : list Order.t)
    (table : Table.t) (existingOrder : Order.t) (prev : OrderStep.t)
    (type : ClientType) (client : option CreditClient.t) (name managerName : string)
    (product : Product.t) :
  param <> "" ->
  parseInt param = Some (Table.id table) ->
  find (fun t => Table.id t =? Table.id table) tablesList = Some table ->
  find (isPendingFor (Table.id table)) ordersList = Some existingOrder ->
  OrderStep.orderItems prev = [] ->
  let selected := autoSelectTable parseInt (Some param) tablesList prev in
  let filled :=
    handleProductAdd product
                     (handleClientSelection type client name managerName selected) in
  let asked := {| CartLine.product := product; CartLine.quantity := 1 |} in
  OrderStep.step selected = step_client
  /\ OrderStep.selectedTable selected = Some table
  /\ OrderStep.orderItems selected = []
  /\ handleSubmitOrder (number := number) ordersList filled
     = match findExisting existingOrder asked with
       | Some existingItem =>
           if 1 =? OrderItem.quantity existingItem
           then toast nothingNewToast
           else addItemsToOrderMutation (Order.id existingOrder) [toItem asked]
       | None => addItemsToOrderMutation (Order.id existingOrder) [toItem asked]
       end
  /\ (forall orderData : OrderData.t number,
         handleSubmitOrder ordersList filled <> createOrderMutation orderData).
Proof.
  intros Hparam Hparse Htable Hpending Hcart selected filled asked.
  assert (Hselected : selected
                      = {| OrderStep.step := step_client;
                           OrderStep.selectedTable := Some table;
                           OrderStep.clientType := OrderStep.clientType prev;
                           OrderStep.selectedClient := OrderStep.selectedClient prev;
                           OrderStep.anonymousName := OrderStep.anonymousName prev;
                           OrderStep.managerName := OrderStep.managerName prev;
                           OrderStep.orderItems := OrderStep.orderItems prev;
                           OrderStep.notes := OrderStep.notes prev |}).
  { subst selected. unfold autoSelectTable.
    apply String.eqb_neq in Hparam. rewrite Hparam, Hparse, Htable.
    destruct tablesList; [discriminate | reflexivity]. }
  assert (Hfilled : OrderStep.selectedTable filled = Some table
                    /\ OrderStep.clientType filled = Some type
                    /\ OrderStep.orderItems filled = [asked]).
  { subst filled. rewrite Hselected. unfold handleProductAdd, handleClientSelection.
    cbn [OrderStep.orderItems]. rewrite Hcart. simpl. auto. }
  destruct Hfilled as (Hft & Hfc & Hfi).
  assert (Hsubmit := submit_on_existing (number := number)
                       ordersList filled table type existingOrder Hft Hfc Hpending).
  rewrite Hfi, itemsToAdd_single in Hsubmit. cbn [CartLine.quantity asked] in Hsubmit.
  assert (Hresult : handleSubmitOrder (number := number) ordersList filled
     = match findExisting existingOrder asked with
       | Some existingItem =>
           if 1 =? OrderItem.quantity existingItem
           then toast nothingNewToast
           else addItemsToOrderMutation (Order.id existingOrder) [toItem asked]
       | None => addItemsToOrderMutation (Order.id existingOrder) [toItem asked]
       end).
  { rewrite Hsubmit. destruct (findExisting existingOrder asked) as [e |];
      [destruct (1 =? OrderItem.quantity e) |]; reflexivity. }
  rewrite Hselected. cbn [OrderStep.step OrderStep.selectedTable OrderStep.orderItems].
  refine (conj eq_refl (conj eq_refl (conj Hcart (conj Hresult _)))).
  intros orderData. rewrite Hresult.
  destruct (findExisting existingOrder asked) as [e |];
    [destruct (1 =? OrderItem.quantity e) |]; discriminate.
Qed.

(** X8. With a table, a client type and a cart line, the banner of the
    product step is shown exactly when submitting will not create an order
    but address the pending one, and hidden exactly when it will create one.
    While the orders query has no data the banner's test fails outright,
    whereas a submission, reading the empty list, creates an order. *)
Theorem banner_shown_iff_submission_merges
    (orders : list Order.t) (orderStep : OrderStep.t)
    (selectedTable : Table.t) (clientType : ClientType) :
  OrderStep.selectedTable orderStep = Some selectedTable ->
  OrderStep.clientType orderStep = Some clientType ->
  OrderStep.orderItems orderStep <> [] ->
  (existingOrderBanner (Some orders) orderStep = Some true
   <-> forall orderData : OrderData.t number,
         handleSubmitOrder (ordersListOf (Some orders)) orderStep
         <> createOrderMutation orderData)
  /\ (existingOrderBanner (Some orders) orderStep = Some false
      <-> exists orderData : OrderData.t number,
            handleSubmitOrder (ordersListOf (Some orders)) orderStep
            = createOrderMutation orderData)
  /\ existingOrderBanner None orderStep = None
  /\ (exists orderData : OrderData.t number,
         handleSubmitOrder (ordersListOf None) orderStep
         = createOrderMutation orderData).
Proof.
  intros Htable Htype Hcart.
  assert (Hbanner : existingOrderBanner (Some orders) orderStep
                    = Some (existsb (isPendingFor (Table.id selectedTable)) orders)).
  { unfold existingOrderBanner. rewrite Htable. reflexivity. }
  assert (Hcreate : forall ordersList,
             find (isPendingFor (Table.id selectedTable)) ordersList = None ->
             exists orderData : OrderData.t number,
               handleSubmitOrder ordersList orderStep = createOrderMutation orderData).
  { intros ordersList Hnone. unfold handleSubmitOrder.
    rewrite Htable, Htype, Hnone.
    destruct (OrderStep.orderItems orderStep); [now exfalso |].
    cbn [List.length Nat.eqb]. eauto. }
  rewrite Hbanner. cbn [ordersListOf].
  destruct (find (isPendingFor (Table.id selectedTable)) orders)
    as [existingOrder |] eqn:Hfind.
  - assert (Hex : existsb (isPendingFor (Table.id selectedTable)) orders = true)
      by (apply find_existsb; eauto).
    assert (Hnot : forall orderData : OrderData.t number,
               handleSubmitOrder orders orderStep <> createOrderMutation orderData).
    { intros orderData Hsubmit. apply create_needs_no_pending_order in Hsubmit.
      destruct Hsubmit as (t & ct & Ht & _ & Hnone & _).
      rewrite Htable in Ht. inversion Ht; subst. congruence. }
    rewrite Hex.
    refine (conj (conj (fun _ => Hnot) (fun _ => eq_refl))
                 (conj (conj _ _) (conj eq_refl (Hcreate [] eq_refl)))).
    + discriminate.
    + intros [orderData Hsubmit]. exfalso. exact (Hnot orderData Hsubmit).
  - assert (Hex : existsb (isPendingFor (Table.id selectedTable)) orders = false)
      by now apply find_None_existsb.
    rewrite Hex. destruct (Hcreate orders Hfind) as [orderData Hsubmit].
    refine (conj (conj _ _)
                 (conj (conj (fun _ => ex_intro _ orderData Hsubmit) (fun _ => eq_refl))
                       (conj eq_refl (Hcreate [] eq_refl)))).
    + discriminate.
    + intros Hnot. exfalso. exact (Hnot orderData Hsubmit).
Qed.

Lemma create_carries_billing (ordersList : list Order.t) (orderStep : OrderStep.t)
    (orderData : OrderData.t number) :
  handleSubmitOrder ordersList orderStep = createOrderMutation orderData ->
  exists clientType,
    OrderStep.clientType orderStep = Some clientType
    /\ OrderData.creditClientId orderData
       = match clientType with
         | credit => option_map CreditClient.id (OrderStep.selectedClient orderStep)
         | _ => None
         end
    /\ OrderData.clientName orderData
       = match clientType with
         | anonymous => Some (OrderStep.anonymousName orderStep)
         | manager => Some (OrderStep.managerName orderStep)
         | credit => None
         end.
Proof.
  unfold handleSubmitOrder.
  destruct (OrderStep.selectedTable orderStep) as [selectedTable |]; [| discriminate].
  destruct (OrderStep.clientType orderStep) as [clientType |]; [| discriminate].
  destruct (List.length (OrderStep.orderItems orderStep) =? 0)%nat; [discriminate |].
  destruct (find (isPendingFor (Table.id selectedTable)) ordersList).
  - destruct (0 <? List.length _)%nat; discriminate.
  - intros Heq. inversion Heq; subst. exists clientType. auto.
Qed.

(** X9. A new order carries the client the way it was chosen: the id of the
    credit client and no name for credit, the typed name for anonymous, the
    manager's name for manager.  Read back from an order with these two
    fields, the billing mode is credit for a credit client with a non-zero id;
    it is manager exactly when the manager's name, lowercased by the engine,
    is one of the two known names; and an anonymous order comes back anonymous
    exactly when the typed name is not, lowercased by the engine, one of those
    names: otherwise it comes back as manager. *)
Theorem billing_mode_round_trip
    {asciiLaw : @JsStringAscii strings}
    (ordersList : list Order.t) (prev : OrderStep.t)
    (type : ClientType) (client : option CreditClient.t) (name managerName : string)
    (orderData : OrderData.t number) (stored : Order.t) :
  let known s := toLowerCase s = "carl malack" \/ toLowerCase s = "lucelle reis" in
  handleSubmitOrder ordersList
                    (handleClientSelection type client name managerName prev)
  = createOrderMutation orderData ->
  Order.creditClientId stored = OrderData.creditClientId orderData ->
  Order.clientName stored = OrderData.clientName orderData ->
  match type with
  | credit =>
      OrderData.creditClientId orderData = option_map CreditClient.id client
      /\ OrderData.clientName orderData = None
      /\ (forall c, client = Some c -> CreditClient.id c <> 0 ->
                    inferClientType stored = credit)
      /\ (client = None -> inferClientType stored = anonymous)
  | manager =>
      OrderData.creditClientId orderData = None
      /\ OrderData.clientName orderData = Some managerName
      /\ (inferClientType stored = manager <-> known managerName)
  | anonymous =>
      OrderData.creditClientId orderData = None
      /\ OrderData.clientName orderData = Some name
      /\ (inferClientType stored = anonymous <-> ~ known name)
      /\ (inferClientType stored = manager <-> known name)
  end.
Proof.
  intros known Hsubmit Hid Hname. subst known.
  apply create_carries_billing in Hsubmit.
  destruct Hsubmit as (type' & Htype & Hdid & Hdname).
  cbn [handleClientSelection OrderStep.clientType OrderStep.selectedClient
       OrderStep.anonymousName OrderStep.managerName] in Htype, Hdid, Hdname.
  inversion Htype; subst type'. clear Htype.
  rewrite Hdid in Hid. rewrite Hdname in Hname.
  assert (Hnamed := isManagerName_spec).
  unfold inferClientType. rewrite Hid, Hname.
  destruct type; refine (conj Hdid (conj Hdname _)).
  - cbn [truthyNumber]. rewrite <- Hnamed.
    destruct (isManagerName (Some name)); split; split;
      try discriminate; try reflexivity; intros Habs; now exfalso.
  - split.
    + intros c -> Hc. simpl. apply Z.eqb_neq in Hc. now rewrite Hc.
    + intros ->. reflexivity.
  - cbn [truthyNumber]. rewrite <- Hnamed.
    destruct (isManagerName (Some managerName)); split;
      try discriminate; reflexivity.
Qed.

End FlowFacts.

Lemma preselected_table_with_pending_order_is_merged_witness :
  let selected :=
    autoSelectTable (fun _ => Some 12) (Some "12") [table7; table12] initialOrderStep in
  OrderStep.step selected = step_client
  /\ handleSubmitOrder (number := Q) sampleOrders
       (handleProductAdd beer (handleClientSelection anonymous None "Ana" "" selected))
     = addItemsToOrderMutation 1 [Item.mk 10 1 "5.00"].
Proof.
  assert (Hparam : "12"%string <> ""%string) by discriminate.
  destruct (preselected_table_with_pending_order_is_merged
              (number := Q) (fun _ => Some 12) "12" [table7; table12] sampleOrders
              table12 order1 initialOrderStep anonymous None "Ana" "" beer
              Hparam eq_refl eq_refl eq_refl eq_refl)
    as (Hstep & _ & _ & Hsubmit & _).
  split; [exact Hstep | exact Hsubmit].
Defined.

Lemma banner_shown_iff_submission_merges_witness :
  existingOrderBanner (Some sampleOrders) (atProducts table12 [line wine 1]) = Some true
  /\ (forall orderData : OrderData.t Q,
         handleSubmitOrder sampleOrders (atProducts table12 [line wine 1])
         <> createOrderMutation orderData).
Proof.
  assert (Hcart : OrderStep.orderItems (atProducts table12 [line wine 1]) <> [])
    by discriminate.
  destruct (banner_shown_iff_submission_merges
              (number := Q) sampleOrders (atProducts table12 [line wine 1])
              table12 anonymous eq_refl eq_refl Hcart)
    as (Hshown & _).
  split; [reflexivity | now apply Hshown].
Defined.

Lemma billing_mode_round_trip_witness :
  inferClientType (Order.mk 9 7 None (Some "Carl Malack") "pending" None []) = manager
  /\ inferClientType (Order.mk 9 7 None (Some carlWithKelvinSign) "pending" None [])
     = manager
  /\ OrderStep.clientType
       (handleClientCreated (CreditClient.mk 4 "Rui" "0.00") (atProducts table7 []))
     = Some credit.
Proof.
  refine (conj _ (conj _ eq_refl)).
  - assert (Hround := billing_mode_round_trip
              (number := Q) sampleOrders (atProducts table7 [line beer 1])
              manager None "" "Carl Malack"
              {| OrderData.tableId := 7;
                 OrderData.creditClientId := None;
                 OrderData.clientName := Some "Carl Malack"%string;
                 OrderData.totalAmount := (500 # 100)%Q;
                 OrderData.notes := ""%string;
                 OrderData.items := [Item.mk 10 1 "5.00"] |}
              (Order.mk 9 7 None (Some "Carl Malack") "pending" None [])
              eq_refl eq_refl eq_refl).
    apply Hround. now left.
  - assert (Hround := billing_mode_round_trip
              (number := Q) sampleOrders (atProducts table7 [line beer 1])
              anonymous None carlWithKelvinSign ""
              {| OrderData.tableId := 7;
                 OrderData.creditClientId := None;
                 OrderData.clientName := Some carlWithKelvinSign;
                 OrderData.totalAmount := (500 # 100)%Q;
                 OrderData.notes := ""%string;
                 OrderData.items := [Item.mk 10 1 "5.00"] |}
              (Order.mk 9 7 None (Some carlWithKelvinSign) "pending" None [])
              eq_refl eq_refl eq_refl).
    apply Hround. now left.
Defined.

(** ** Grouping *)

Section GroupFacts.

Context {A : Type} (key : A -> string).

Lemma groupAt_pushAt (k : string) (x : A) (acc : list (string * list A)) (wanted : string) :
  groupAt wanted (pushAt k x acc)
  = if (wanted =? k)%string then groupAt k acc ++ [x] else groupAt wanted acc.
Proof.
  unfold groupAt. induction acc as [| [k' xs] acc IH]; simpl.
  - rewrite (String.eqb_sym k wanted). now destruct (wanted =? k)%string.
  - destruct (String.eqb_spec k' k) as [Hk | Hk]; simpl.
    + rewrite Hk, (String.eqb_sym k wanted).
      destruct (String.eqb_spec wanted k) as [Hw | Hw]; reflexivity.
    + destruct (String.eqb_spec k' wanted) as [Hw | Hw]; simpl.
      * rewrite <- Hw. apply String.eqb_neq in Hk. now rewrite Hk.
      * exact IH.
Qed.

Lemma keys_pushAt (k : string) (x : A) (acc : list (string * list A)) :
  forall wanted, In wanted (map fst (pushAt k x acc)) <-> wanted = k \/ In wanted (map fst acc).
Proof.
  induction acc as [| [k' xs] acc IH]; intros wanted; simpl.
  - intuition congruence.
  - destruct (String.eqb_spec k' k) as [-> | Hk]; simpl.
    + intuition congruence.
    + rewrite IH. tauto.
Qed.

Lemma NoDup_pushAt (k : string) (x : A) (acc : list (string * list A)) :
  NoDup (map fst acc) -> NoDup (map fst (pushAt k x acc)).
Proof.
  induction acc as [| [k' xs] acc IH]; simpl; intros Hnd.
  - repeat constructor. intros [].
  - inversion Hnd as [| ? ? Hfresh Hrest]; subst.
    destruct (String.eqb_spec k' k) as [-> | Hk]; simpl; [exact Hnd |].
    constructor; [| now apply IH].
    rewrite keys_pushAt. intros [-> | Hin]; [now apply Hk | now apply Hfresh].
Qed.

Lemma nonempty_pushAt (k : string) (x : A) (acc : list (string * list A)) :
  (forall entry, In entry acc -> snd entry <> []) ->
  forall entry, In entry (pushAt k x acc) -> snd entry <> [].
Proof.
  induction acc as [| [k' xs] acc IH]; simpl; intros Hall entry.
  - intros [<- | []]. discriminate.
  - destruct (String.eqb_spec k' k) as [-> | Hk]; simpl.
    + intros [<- | Hin]; [| apply Hall; now right].
      simpl. intros Habs. now apply app_eq_nil in Habs.
    + intros [<- | Hin]; [apply (Hall (k', xs)); now left |].
      apply IH; [| exact Hin]. intros e He. apply Hall. now right.
Qed.

(** The state of the accumulator after the rest of the list went through the
    [reduce]. *)
Lemma groupInto_from (l : list A) (acc grouped : list (string * list A)) :
  fold_left
    (fun acc x =>
       match acc with
       | Some acc =>
           if isInherited (key x) then None else Some (pushAt (key x) x acc)
       | None => None
       end)
    l (Some acc) = Some grouped ->
  NoDup (map fst acc) ->
  (forall entry, In entry acc -> snd entry <> []) ->
  NoDup (map fst grouped)
  /\ (forall entry, In entry grouped -> snd entry <> [])
  /\ (forall wanted, groupAt wanted grouped = groupAt wanted acc ++ filter (keyIs key wanted) l)
  /\ (forall x, In x l -> isInherited (key x) = false).
Proof.
  revert acc. induction l as [| x l IH]; intros acc Hfold Hnd Hne; simpl in Hfold.
  - inversion Hfold; subst.
    refine (conj Hnd (conj Hne (conj _ _))).
    + intros wanted. now rewrite app_nil_r.
    + intros x [].
  - destruct (isInherited (key x)) eqn:Hx.
    + exfalso. clear -Hfold. induction l as [| y l IH]; simpl in Hfold;
        [discriminate | auto].
    + destruct (IH _ Hfold (NoDup_pushAt _ _ _ Hnd) (nonempty_pushAt _ _ _ Hne))
        as (Hnd' & Hne' & Hat & Hok).
      refine (conj Hnd' (conj Hne' (conj _ _))).
      * intros wanted. rewrite Hat, groupAt_pushAt. simpl. unfold keyIs at 2.
        rewrite (String.eqb_sym (key x) wanted).
        destruct (String.eqb_spec wanted (key x)) as [-> | Hw];
          [now rewrite <- app_assoc | reflexivity].
      * intros y [<- | Hy]; [exact Hx | now apply Hok].
Qed.

Lemma groupInto_None (l : list A) :
  groupInto key l = None <-> exists x, In x l /\ isInherited (key x) = true.
Proof.
  unfold groupInto. generalize (@nil (string * list A)) as acc.
  induction l as [| x l IH]; intros acc; simpl.
  - split; [discriminate | intros [x [[] _]]].
  - destruct (isInherited (key x)) eqn:Hx.
    + split; [intros _; exists x; auto |]. intros _. clear.
      induction l as [| y l IH]; simpl; auto.
    + rewrite IH. split; intros [y [Hy Hin]]; exists y; [auto |].
      destruct Hy as [<- | Hy]; [congruence | auto].
Qed.

Lemma groupAt_entry (grouped : list (string * list A)) (k : string) (xs : list A) :
  NoDup (map fst grouped) -> In (k, xs) grouped -> groupAt k grouped = xs.
Proof.
  unfold groupAt. induction grouped as [| [k' ys] grouped IH]; simpl;
    intros Hnd Hin; [destruct Hin |].
  inversion Hnd as [| ? ? Hfresh Hrest]; subst.
  destruct Hin as [Heq | Hin].
  - inversion Heq; subst. now rewrite String.eqb_refl.
  - destruct (String.eqb_spec k' k) as [-> | Hk]; [| now apply IH].
    exfalso. apply Hfresh. change k with (fst (k, xs)). now apply in_map.
Qed.

Lemma groupAt_nonempty_entry (grouped : list (string * list A)) (k : string) :
  groupAt k grouped <> [] -> In (k, groupAt k grouped) grouped.
Proof.
  unfold groupAt.
  destruct (find (fun entry => (fst entry =? k)%string) grouped) as [[k' xs] |] eqn:Hfind;
    [| intros Habs; now exfalso].
  intros _. apply find_some in Hfind. destruct Hfind as [Hin Heq].
  simpl in Heq. apply String.eqb_eq in Heq. now subst.
Qed.

(** What a successful grouping holds. *)
Lemma groupInto_Some (l : list A) (grouped : list (string * list A)) :
  groupInto key l = Some grouped ->
  NoDup (map fst grouped)
  /\ (forall k xs, In (k, xs) grouped -> xs <> [] /\ xs = filter (keyIs key k) l)
  /\ (forall x, In x l -> In (key x, filter (keyIs key (key x)) l) grouped)
  /\ (forall x, In x l -> isInherited (key x) = false).
Proof.
  intros Hgroup. unfold groupInto in Hgroup.
  destruct (groupInto_from l [] grouped Hgroup (NoDup_nil _))
    as (Hnd & Hne & Hat & Hok); [intros entry [] |].
  refine (conj Hnd (conj _ (conj _ Hok))).
  - intros k xs Hin. split; [exact (Hne (k, xs) Hin) |].
    rewrite <- (groupAt_entry grouped k xs Hnd Hin). apply Hat.
  - intros x Hx.
    assert (Hfilter : groupAt (key x) grouped = filter (keyIs key (key x)) l)
      by apply Hat.
    rewrite <- Hfilter. apply groupAt_nonempty_entry. rewrite Hfilter.
    intros Habs.
    assert (Hin : In x (filter (keyIs key (key x)) l))
      by (apply filter_In; split; [exact Hx | unfold keyIs; apply String.eqb_refl]).
    rewrite Habs in Hin. destruct Hin.
Qed.

End GroupFacts.

(** *** The sort of a group of tables *)

Lemma insertByNumber_In (table other : Table.t) (sorted : list Table.t) :
  In other (insertByNumber table sorted) <-> other = table \/ In other sorted.
Proof.
  induction sorted as [| next rest IH]; simpl.
  - intuition congruence.
  - destruct (Table.number table <=? Table.number next); simpl.
    + intuition congruence.
    + rewrite IH. intuition congruence.
Qed.

Lemma insertByNumber_Permutation (table : Table.t) (sorted : list Table.t) :
  Permutation (insertByNumber table sorted) (table :: sorted).
Proof.
  induction sorted as [| next rest IH]; simpl; [reflexivity |].
  destruct (Table.number table <=? Table.number next); [reflexivity |].
  rewrite IH. apply perm_swap.
Qed.

Lemma insertByNumber_Sorted (table : Table.t) (sorted : list Table.t) :
  Sorted byNumber sorted -> Sorted byNumber (insertByNumber table sorted).
Proof.
  induction sorted as [| next rest IH]; simpl; intros Hs.
  - repeat constructor.
  - destruct (Z.leb_spec (Table.number table) (Table.number next)) as [Hle | Hgt].
    + constructor; [exact Hs | constructor; exact Hle].
    + inversion Hs as [| ? ? Hrest Hhd]; subst.
      constructor; [now apply IH |].
      destruct rest as [| after rest']; simpl.
      * constructor. unfold byNumber. lia.
      * inversion Hhd; subst.
        destruct (Table.number table <=? Table.number after);
          constructor; [unfold byNumber; lia | assumption].
Qed.

Lemma insertByNumber_stable (n : Z) (table : Table.t) (sorted : list Table.t) :
  filter (numberIs n) (insertByNumber table sorted)
  = filter (numberIs n) (table :: sorted).
Proof.
  induction sorted as [| next rest IH]; [reflexivity |].
  simpl insertByNumber.
  destruct (Z.leb_spec (Table.number table) (Table.number next)) as [Hle | Hgt];
    [reflexivity |].
  simpl filter in IH |- *. rewrite IH. unfold numberIs.
  destruct (Z.eqb_spec (Table.number table) n) as [Ht | Ht]; [| reflexivity].
  destruct (Z.eqb_spec (Table.number next) n) as [Hn | Hn]; [lia | reflexivity].
Qed.

Lemma sortByNumber_facts (tables : list Table.t) :
  Sorted byNumber (sortByNumber tables)
  /\ Permutation (sortByNumber tables) tables
  /\ (forall n, filter (numberIs n) (sortByNumber tables) = filter (numberIs n) tables).
Proof.
  induction tables as [| table tables (Hs & Hp & Hst)]; simpl.
  - repeat split; constructor.
  - refine (conj (insertByNumber_Sorted _ _ Hs) (conj _ _)).
    + rewrite insertByNumber_Permutation. now constructor.
    + intros n. rewrite insertByNumber_stable. simpl. now rewrite Hst.
Qed.

(** X10. When the grouping of the tables succeeds, every location that has a
    table has exactly one group; the group holds exactly the tables of that
    location, in ascending order of their number, tables of equal number in
    the order of the list; and no group is empty. *)
Theorem tables_are_grouped_by_location_and_sorted
    (tables : list Table.t) (grouped : list (string * list Table.t)) :
  groupTablesByLocation tables = Some grouped ->
  NoDup (map fst grouped)
  /\ (forall location group,
         In (location, group) grouped ->
         group <> []
         /\ Sorted byNumber group
         /\ Permutation group (filter (keyIs Table.location location) tables)
         /\ (forall n,
                filter (numberIs n) group
                = filter (numberIs n) (filter (keyIs Table.location location) tables)))
  /\ (forall table,
         In table tables ->
         exists group, In (Table.location table, group) grouped /\ In table group).
Proof.
  unfold groupTablesByLocation.
  destruct (groupInto Table.location tables) as [raw |] eqn:Hraw; [| discriminate].
  intros Heq. inversion Heq; subst grouped. clear Heq.
  destruct (groupInto_Some Table.location tables raw Hraw) as (Hnd & Hgroups & Hall & _).
  refine (conj _ (conj _ _)).
  - rewrite map_map. simpl. exact Hnd.
  - intros location group Hin. apply in_map_iff in Hin.
    destruct Hin as [[k xs] [Heq Hin]]. simpl in Heq. inversion Heq; subst. clear Heq.
    destruct (Hgroups _ _ Hin) as [Hne Hxs].
    destruct (sortByNumber_facts xs) as (Hs & Hp & Hst).
    refine (conj _ (conj Hs (conj _ _))).
    + intros Habs. apply Hne. apply Permutation_nil. now rewrite <- Hp, Habs.
    + now rewrite Hp, Hxs at 1.
    + intros n. now rewrite Hst, Hxs at 1.
  - intros table Hin.
    exists (sortByNumber (filter (keyIs Table.location (Table.location table)) tables)).
    split.
    + apply in_map_iff.
      exists (Table.location table,
              filter (keyIs Table.location (Table.location table)) tables).
      split; [reflexivity | now apply Hall].
    + destruct (sortByNumber_facts
                  (filter (keyIs Table.location (Table.location table)) tables))
        as (_ & Hp & _).
      apply (Permutation_in _ (Permutation_sym Hp)).
      apply filter_In. split; [exact Hin | unfold keyIs; apply String.eqb_refl].
Qed.

Lemma tables_are_grouped_by_location_and_sorted_witness :
  groupTablesByLocation [table12; table7; Table.mk 3 3 2 "main_hall" "free"]
  = Some [("main_hall"%string, [Table.mk 3 3 2 "main_hall" "free"; table12]);
          ("terrace"%string, [table7])]
  /\ Sorted byNumber [Table.mk 3 3 2 "main_hall" "free"; table12].
Proof.
  split; [reflexivity |].
  exact (proj1 (proj2 (proj1 (proj2
           (tables_are_grouped_by_location_and_sorted
              [table12; table7; Table.mk 3 3 2 "main_hall" "free"] _ eq_refl))
           "main_hall"%string _ (or_introl eq_refl)))).
Defined.

(** X11. When the grouping of the products succeeds, every category name
    that some product has gets exactly one group, holding exactly the products
    of that name in the order of the catalog, and no group is empty; a product
    whose category id is null or matches no category goes under "Outros". *)
Theorem products_are_grouped_by_category_name
    (categoriesList : list Category.t) (products : list CatalogProduct.t)
    (grouped : list (string * list CatalogProduct.t)) :
  groupProductsByCategory categoriesList products = Some grouped ->
  NoDup (map fst grouped)
  /\ (forall name group,
         In (name, group) grouped ->
         group <> []
         /\ group = filter (keyIs (categoryNameOf categoriesList) name) products)
  /\ (forall product,
         In product products ->
         In (categoryNameOf categoriesList product,
             filter (keyIs (categoryNameOf categoriesList)
                           (categoryNameOf categoriesList product))
                    products)
            grouped)
  /\ (forall product,
         (forall c, In c categoriesList ->
                    CatalogProduct.categoryId product <> Some (Category.id c)) ->
         categoryNameOf categoriesList product = "Outros").
Proof.
  intros Hgroup.
  destruct (groupInto_Some _ _ _ Hgroup) as (Hnd & Hgroups & Hall & _).
  refine (conj Hnd (conj Hgroups (conj Hall _))).
  intros product Hnone. unfold categoryNameOf.
  destruct (find _ categoriesList) as [c |] eqn:Hfind; [| reflexivity].
  apply find_some in Hfind. destruct Hfind as [Hin Hid].
  exfalso. apply (Hnone c Hin).
  destruct (CatalogProduct.categoryId product) as [cid |]; [| discriminate].
  apply Z.eqb_eq in Hid. now subst.
Qed.

(** X12. Either grouping fails, with the [TypeError] of [push] on something
    that is not an array, exactly when some key (a table's location, a
    product's category name) is the name of a property that plain objects
    inherit, such as "constructor" or "toString". *)
Theorem grouping_fails_exactly_on_inherited_keys :
  (forall tables : list Table.t,
      groupTablesByLocation tables = None
      <-> exists table,
            In table tables /\ In (Table.location table) inheritedKeys)
  /\ (forall (categoriesList : list Category.t) (products : list CatalogProduct.t),
         groupProductsByCategory categoriesList products = None
         <-> exists product,
               In product products
               /\ In (categoryNameOf categoriesList product) inheritedKeys).
Proof.
  assert (Hinherited : forall key, isInherited key = true <-> In key inheritedKeys).
  { intros key. unfold isInherited. rewrite existsb_exists. split.
    - intros [k [Hin Heq]]. apply String.eqb_eq in Heq. now subst.
    - intros Hin. exists key. split; [exact Hin | apply String.eqb_refl]. }
  split.
  - intros tables. unfold groupTablesByLocation.
    transitivity (groupInto Table.location tables = None).
    + destruct (groupInto Table.location tables); simpl; split; congruence.
    + rewrite groupInto_None. split; intros [x [Hin Hx]]; exists x;
        (split; [exact Hin | now apply Hinherited]).
  - intros categoriesList products. unfold groupProductsByCategory.
    rewrite groupInto_None. split; intros [x [Hin Hx]]; exists x;
      (split; [exact Hin | now apply Hinherited]).
Qed.

(** ** The category options and the product filter *)

Lemma distinct_In (l : list string) (s : string) : In s (distinct l) <-> In s l.
Proof.
  induction l as [| first rest IH]; simpl; [tauto |].
  rewrite filter_In, IH, negb_true_iff, String.eqb_neq.
  destruct (string_dec first s) as [-> | Hne]; [tauto |].
  split; [tauto |]. intros [Habs | Hin]; [contradiction | right; split; congruence].
Qed.

Lemma distinct_NoDup (l : list string) : NoDup (distinct l).
Proof.
  induction l as [| first rest IH]; simpl; constructor.
  - rewrite filter_In, negb_true_iff, String.eqb_neq. tauto.
  - now apply NoDup_filter.
Qed.

Section ProductListFacts.

Variable trim : string -> string.
Variable lowerCase : string -> string.
Variable codeUnitLeb : string -> string -> bool.

Lemma insertString_In (s other : string) (sorted : list string) :
  In other (insertString codeUnitLeb s sorted) <-> other = s \/ In other sorted.
Proof.
  induction sorted as [| next rest IH]; simpl.
  - intuition congruence.
  - destruct (codeUnitLeb s next); simpl; [| rewrite IH]; intuition congruence.
Qed.

Lemma insertString_NoDup (s : string) (sorted : list string) :
  ~ In s sorted -> NoDup sorted -> NoDup (insertString codeUnitLeb s sorted).
Proof.
  induction sorted as [| next rest IH]; simpl; intros Hfresh Hnd.
  - repeat constructor. intros [].
  - destruct (codeUnitLeb s next); [now constructor |].
    inversion Hnd as [| ? ? Hnext Hrest]; subst.
    constructor; [| apply IH; tauto].
    rewrite insertString_In. intros [-> | Hin]; tauto.
Qed.

Lemma sorted_strings_facts (l : list string) :
  NoDup l ->
  NoDup (fold_right (insertString codeUnitLeb) [] l)
  /\ forall s, In s (fold_right (insertString codeUnitLeb) [] l) <-> In s l.
Proof.
  induction l as [| first rest IH]; simpl; intros Hnd; [split; [constructor | tauto] |].
  inversion Hnd as [| ? ? Hfresh Hrest]; subst.
  destruct (IH Hrest) as [Hnd' Hin']. split.
  - apply insertString_NoDup; [now rewrite Hin' | exact Hnd'].
  - intros s. rewrite insertString_In, Hin'. intuition congruence.
Qed.

(** X13. The category selector offers each category name of the catalog
    once, and nothing else; and with a blank search, choosing an entry shows a
    non-empty list exactly for the names it offers (and, for "all", whenever
    the catalog is not empty): no offered category leads to an empty list. *)
Theorem category_options_are_the_names_with_products
    (categoriesList : list Category.t) (productsList : list CatalogProduct.t) :
  let options := getCategoryOptions codeUnitLeb categoriesList productsList in
  NoDup options
  /\ (forall name,
         In name options
         <-> exists product,
               In product productsList
               /\ categoryNameOf categoriesList product = name)
  /\ (forall searchQuery selectedCategory,
         trim searchQuery = "" ->
         (filterProducts trim lowerCase categoriesList searchQuery selectedCategory
                         productsList <> []
          <-> In selectedCategory options
              \/ (selectedCategory = "all" /\ productsList <> []))).
Proof.
  intros options. subst options. unfold getCategoryOptions.
  destruct (sorted_strings_facts
              (distinct (map (categoryNameOf categoriesList) productsList))
              (distinct_NoDup _)) as [Hnd Hin].
  assert (Hnames : forall name,
             In name (fold_right (insertString codeUnitLeb) []
                        (distinct (map (categoryNameOf categoriesList) productsList)))
             <-> exists product,
                   In product productsList
                   /\ categoryNameOf categoriesList product = name).
  { intros name. rewrite Hin, distinct_In, in_map_iff.
    split; intros [p [Hp Hq]]; exists p; tauto. }
  refine (conj Hnd (conj Hnames _)).
  intros searchQuery selectedCategory Hblank. unfold filterProducts.
  rewrite Hblank. simpl.
  destruct (String.eqb_spec selectedCategory "all") as [-> | Hcat]; simpl.
  - split; [intros Hne | intros [Hopt | [_ Hne]]; [| exact Hne]].
    + right. now split.
    + apply Hnames in Hopt. destruct Hopt as [p [Hp _]]. intros Habs.
      rewrite Habs in Hp. destruct Hp.
  - rewrite Hnames. split.
    + intros Hne. left.
      destruct (filter _ productsList) as [| p rest] eqn:Hf; [now exfalso |].
      assert (Hp : In p (filter
                (fun product =>
                   (categoryNameOf categoriesList product =? selectedCategory)%string)
                productsList)) by (rewrite Hf; now left).
      apply filter_In in Hp. destruct Hp as [Hp Hname].
      apply String.eqb_eq in Hname. now exists p.
    + intros [[p [Hp Hname]] | [Habs _]]; [| contradiction].
      intros Hempty.
      assert (Hin' : In p (filter
                (fun product =>
                   (categoryNameOf categoriesList product =? selectedCategory)%string)
                productsList))
        by (apply filter_In; split; [exact Hp | now apply String.eqb_eq]).
      rewrite Hempty in Hin'. destruct Hin'.
Qed.

End ProductListFacts.

(** ** The stock badge *)

(** X14. The stock badge agrees with the add button and with the stock:
    for a minimum stock that is not negative, a product whose add button is
    disabled has the red badge and a product with the green badge can be
    added; and between two products of equal minimum stock, the one with more
    stock never has the worse badge. *)
Theorem stock_badge_agrees_with_add_button (product : Product.t) :
  (0 <= Product.minStock product ->
   (addDisabled product = true -> stockBadge product = badge_red)
   /\ (stockBadge product = badge_green -> addDisabled product = false))
  /\ (forall other : Product.t,
         Product.minStock other = Product.minStock product ->
         Product.stock product <= Product.stock other ->
         (stockBadge other = badge_red -> stockBadge product = badge_red)
         /\ (stockBadge product = badge_green -> stockBadge other = badge_green)).
Proof.
  unfold stockBadge, addDisabled. split.
  - intros Hmin.
    destruct (Z.leb_spec (Product.stock product) 0);
      destruct (Z.leb_spec (Product.stock product) (Product.minStock product));
      destruct (Z.leb_spec (Product.stock product) (Product.minStock product * 2));
      split; intros; try reflexivity; try discriminate; lia.
  - intros other Hmin Hstock. rewrite Hmin.
    destruct (Z.leb_spec (Product.stock other) (Product.minStock product));
      destruct (Z.leb_spec (Product.stock other) (Product.minStock product * 2));
      destruct (Z.leb_spec (Product.stock product) (Product.minStock product));
      destruct (Z.leb_spec (Product.stock product) (Product.minStock product * 2));
      split; intros; try reflexivity; try discriminate; lia.
Qed.

Lemma stock_badge_agrees_with_add_button_witness :
  addDisabled juice = true /\ stockBadge juice = badge_red
  /\ stockBadge beer = badge_green.
Proof.
  assert (Hmin : 0 <= Product.minStock juice) by discriminate.
  split; [reflexivity |]. split; [| reflexivity].
  exact (proj1 (proj1 (stock_badge_agrees_with_add_button juice) Hmin) eq_refl).
Defined.

(** ** The occupancy figure *)

Lemma rounded_percentage (occupied total : Z) :
  0 < total ->
  Qfloor (inject_Z occupied / inject_Z total * inject_Z 100 + (1 # 2))
  = (200 * occupied + total) / (2 * total).
Proof.
  intros Htotal. destruct total as [| p | p]; try lia.
  transitivity (Qfloor ((200 * occupied + Z.pos p) # (2 * p))); [| reflexivity].
  apply Qfloor_comp. unfold Qeq, Qdiv, Qmult, Qplus, Qinv, inject_Z.
  cbn [Qnum Qden]. rewrite !Pos2Z.inj_mul. ring.
Qed.

Lemma sameDouble_eq (x y : double) : sameDouble x y = true -> x = y.
Proof.
  destruct x as [a | a | | a m e], y as [b | b | | b m' e']; simpl; try discriminate.
  - intros Hsame. now apply eqb_prop in Hsame; subst.
  - intros Hsame. now apply eqb_prop in Hsame; subst.
  - reflexivity.
  - rewrite !andb_true_iff, Pos.eqb_eq, Z.eqb_eq. intros [[Hsame ->] ->].
    now apply eqb_prop in Hsame; subst.
Qed.

Lemma percentShown_spec (occupied total percent : Z) :
  percentShown occupied total = Some percent ->
  percentOnDoubles occupied total = doubleOfZ percent
  /\ (percent = nearestPercent occupied total
      \/ (halfwayPercent occupied total = true
          /\ percent = nearestPercent occupied total - 1)).
Proof.
  unfold percentShown.
  destruct (sameDouble (percentOnDoubles occupied total)
                       (doubleOfZ (nearestPercent occupied total))) eqn:Hnearest.
  - intros Hsome. inversion Hsome; subst percent.
    split; [now apply sameDouble_eq | now left].
  - destruct (halfwayPercent occupied total); [| discriminate].
    destruct (sameDouble (percentOnDoubles occupied total)
                         (doubleOfZ (nearestPercent occupied total - 1))) eqn:Hbelow;
      [| discriminate].
    intros Hsome. inversion Hsome; subst percent.
    split; [now apply sameDouble_eq | now right].
Qed.

Lemma tablesChecked_spec (most : nat) (occupied total : Z) :
  tablesChecked most = true ->
  0 < total <= Z.of_nat most -> 0 <= occupied <= total ->
  exists percent, percentShown occupied total = Some percent.
Proof.
  intros Hchecked Htotal Hoccupied.
  unfold tablesChecked in Hchecked. rewrite forallb_forall in Hchecked.
  specialize (Hchecked (Z.to_nat (total - 1))).
  rewrite in_seq, forallb_forall in Hchecked.
  assert (Hroom : (0 <= Z.to_nat (total - 1) < 0 + most)%nat) by lia.
  specialize (Hchecked Hroom (Z.to_nat occupied)).
  rewrite in_seq in Hchecked.
  assert (Hin : (0 <= Z.to_nat occupied < 0 + S (S (Z.to_nat (total - 1))))%nat) by lia.
  specialize (Hchecked Hin).
  replace (Z.of_nat (Z.to_nat occupied)) with occupied in Hchecked by lia.
  replace (Z.of_nat (S (Z.to_nat (total - 1)))) with total in Hchecked by lia.
  destruct (percentShown occupied total) as [percent |]; [| discriminate].
  now exists percent.
Qed.

(** Every room of at most 100 tables, at every occupancy, by computation. *)
Lemma rooms_checked : tablesChecked 100 = true.
Proof. vm_compute. reflexivity. Qed.

Lemma percentShown_checked (occupied total : Z) :
  0 < total <= 100 -> 0 <= occupied <= total ->
  exists percent, percentShown occupied total = Some percent.
Proof.
  intros Htotal Hoccupied.
  apply (tablesChecked_spec 100 occupied total rooms_checked); [| exact Hoccupied].
  split; [apply Htotal |]. apply (Z.le_trans _ 100); [apply Htotal | discriminate].
Qed.

Lemma nearestPercent_le (occupied more total : Z) :
  0 < total -> occupied <= more ->
  nearestPercent occupied total <= nearestPercent more total.
Proof. intros Htotal Hmore. unfold nearestPercent. apply Z.div_le_mono; lia. Qed.

(** Below a halfway value the nearest integer is at least one less. *)
Lemma nearestPercent_below_halfway (occupied more total : Z) :
  0 < total -> occupied < more -> halfwayPercent more total = true ->
  nearestPercent occupied total <= nearestPercent more total - 1.
Proof.
  unfold nearestPercent, halfwayPercent. intros Htotal Hmore Hhalf.
  apply Z.eqb_eq in Hhalf.
  assert (Hexact : 200 * more + total = 2 * total * ((200 * more + total) / (2 * total)))
    by (apply Z.div_exact; lia).
  assert (Hlt : (200 * occupied + total) / (2 * total)
                < (200 * more + total) / (2 * total)).
  { apply Z.div_lt_upper_bound; lia. }
  lia.
Qed.

(** X15. On doubles, with at most 100 tables and an occupied count between 0
    and the total, the occupancy figure is a whole number between 0 and 100:
    the integer nearest to 100 x occupied / total, or, where that value lies
    halfway between two integers, possibly the one below (23 tables of 40
    show as 57, not 58); it is 0 for an empty room, 100 for a full one, and
    does not fall when more tables are occupied.  With a total of 0 or absent
    it is 100 times the occupied count: 3 occupied tables out of 0 show as
    300 %. *)
Theorem occupancy_percentage_on_doubles (sessionStats : option SessionStats.t) :
  let occupied := orNumber (optField sessionStats SessionStats.occupiedTables) 0 in
  (forall total,
      optField sessionStats SessionStats.totalTables = Some total ->
      0 < total <= 100 ->
      0 <= occupied <= total ->
      exists percent,
        occupancyPercentDouble sessionStats = doubleOfZ percent
        /\ (percent = nearestPercent occupied total
            \/ (halfwayPercent occupied total = true
                /\ percent = nearestPercent occupied total - 1))
        /\ occupancyPercent sessionStats
           = Finite (inject_Z (nearestPercent occupied total))
        /\ 0 <= percent <= 100
        /\ (occupied = total -> percent = 100)
        /\ (occupied = 0 -> percent = 0)
        /\ (forall more,
               occupied <= more <= total ->
               exists percent',
                 percentOnDoubles more total = doubleOfZ percent'
                 /\ percent <= percent'))
  /\ (occupancyDenominator sessionStats = 1 ->
      0 <= occupied -> 100 * occupied < 2 ^ 53 ->
      occupancyPercentDouble sessionStats = doubleOfZ (100 * occupied)).
Proof.
  intros occupied. split.
  - intros total Htotal Hroom Hrange.
    assert (Hden : occupancyDenominator sessionStats = total).
    { unfold occupancyDenominator. rewrite Htotal. unfold orNumber.
      destruct (Z.eqb_spec total 0); [lia | reflexivity]. }
    destruct (percentShown_checked occupied total Hroom Hrange) as [percent Hshown].
    apply percentShown_spec in Hshown. destruct Hshown as [Hdouble Hpercent].
    assert (Hlow : 0 <= nearestPercent occupied total)
      by (unfold nearestPercent; apply Z.div_pos; lia).
    assert (Hhigh : nearestPercent occupied total <= 100)
      by (unfold nearestPercent; apply Z.lt_succ_r, Z.div_lt_upper_bound; lia).
    assert (Hfull : nearestPercent total total = 100).
    { unfold nearestPercent.
      replace (200 * total + total) with (total + 100 * (2 * total)) by ring.
      rewrite Z.div_add by lia. now rewrite Z.div_small by lia. }
    assert (Hhalf : halfwayPercent occupied total = true ->
                    0 < occupied < total /\ 1 <= nearestPercent occupied total).
    { intros Hhalf. unfold halfwayPercent in Hhalf. apply Z.eqb_eq in Hhalf.
      assert (Hexact := Z.div_exact (200 * occupied + total) (2 * total) ltac:(lia)).
      apply Hexact in Hhalf. fold (nearestPercent occupied total) in Hhalf.
      assert (0 < nearestPercent occupied total) by nia.
      assert (occupied <> 0) by nia.
      assert (occupied <> total) by (intros ->; rewrite Hfull in Hhalf; lia).
      lia. }
    exists percent. refine (conj _ (conj Hpercent (conj _ (conj _ (conj _ (conj _ _)))))).
    + unfold occupancyPercentDouble. fold occupied. now rewrite Hden.
    + unfold occupancyPercent. fold occupied. rewrite Hden.
      rewrite jsDiv_finite by lia. cbn [jsTimes100 mathRound].
      now rewrite rounded_percentage by lia.
    + destruct Hpercent as [-> | [Hhalfway ->]]; [lia |].
      destruct (Hhalf Hhalfway). lia.
    + intros Heq. destruct Hpercent as [-> | [Hhalfway ->]].
      * now rewrite Heq.
      * destruct (Hhalf Hhalfway). lia.
    + intros Heq. destruct Hpercent as [-> | [Hhalfway ->]].
      * rewrite Heq. unfold nearestPercent. rewrite Z.mul_0_r, Z.add_0_l.
        apply Z.div_small. lia.
      * destruct (Hhalf Hhalfway). lia.
    + intros more Hmore.
      destruct (Z.eq_dec occupied more) as [<- | Hne];
        [exists percent; split; [exact Hdouble | lia] |].
      destruct (percentShown_checked more total Hroom ltac:(lia)) as [percent' Hshown'].
      apply percentShown_spec in Hshown'. destruct Hshown' as [Hdouble' Hpercent'].
      exists percent'. split; [exact Hdouble' |].
      assert (Hle := nearestPercent_le occupied more total ltac:(lia) ltac:(lia)).
      destruct Hpercent' as [-> | [Hhalfway' ->]].
      * destruct Hpercent as [-> | [_ ->]]; lia.
      * assert (Hstep := nearestPercent_below_halfway occupied more total
                           ltac:(lia) ltac:(lia) Hhalfway').
        destruct Hpercent as [-> | [_ ->]]; lia.
  - intros Hden Hnonneg Hsmall. unfold occupancyPercentDouble. fold occupied.
    rewrite Hden. unfold percentOnDoubles.
    rewrite doubleOfZ_div_one by lia.
    rewrite doubleOfZ_mul by (try split; try lia; reflexivity).
    rewrite (Z.mul_comm occupied 100). apply mathRoundDouble_whole. lia.
Qed.

Lemma occupancy_percentage_on_doubles_witness :
  occupancyPercentDouble (Some (SessionStats.mk None (Some 3) (Some 0)))
  = doubleOfZ 300
  /\ occupancyPercentDouble (Some (SessionStats.mk None (Some 23) (Some 40)))
     = doubleOfZ 57
  /\ occupancyPercent (Some (SessionStats.mk None (Some 23) (Some 40)))
     = Finite (inject_Z 58)
  /\ exists percent,
       occupancyPercentDouble (Some (SessionStats.mk None (Some 5) (Some 12)))
       = doubleOfZ percent
       /\ 0 <= percent <= 100.
Proof.
  assert (Hthree : 0 <= 3) by discriminate.
  assert (Hsmall : 100 * 3 < 2 ^ 53) by reflexivity.
  assert (Hroom40 : 0 < 40 <= 100) by (split; [reflexivity | discriminate]).
  assert (Hrange40 : 0 <= 23 <= 40) by (split; discriminate).
  assert (Hroom12 : 0 < 12 <= 100) by (split; [reflexivity | discriminate]).
  assert (Hrange12 : 0 <= 5 <= 12) by (split; discriminate).
  refine (conj _ (conj _ _)).
  - exact (proj2 (occupancy_percentage_on_doubles
                    (Some (SessionStats.mk None (Some 3) (Some 0))))
                 eq_refl Hthree Hsmall).
  - reflexivity.
  - destruct (proj1 (occupancy_percentage_on_doubles
                       (Some (SessionStats.mk None (Some 23) (Some 40))))
                    40 eq_refl Hroom40 Hrange40)
      as (percent & _ & _ & Hexact & _).
    split; [exact Hexact |].
    destruct (proj1 (occupancy_percentage_on_doubles
                       (Some (SessionStats.mk None (Some 5) (Some 12))))
                    12 eq_refl Hroom12 Hrange12)
      as (percent12 & Hpercent & _ & _ & Hbounds & _).
    exists percent12. split; assumption.
Defined.

(** ** The routes *)

Lemma cleanLocation_idempotent (location : string) :
  cleanLocation (cleanLocation location) = cleanLocation location.
Proof.
  induction location as [| c rest IH]; [reflexivity |].
  simpl. destruct ((c =? "039")%char || (c =? "034")%char)%bool eqn:Hc; [exact IH |].
  simpl. rewrite Hc. now rewrite IH.
Qed.

Ltac route_cases :=
  repeat match goal with
         | |- context [String.eqb ?a ?b] =>
             destruct (String.eqb a b) eqn:?; cbn [orb negb fst snd]
         end.

(** X16. Pages are kept apart by role.  A user whose role is manager is
    never rendered the orders, tables, credits or cashier dashboard pages; a
    user of any other role is never rendered the manager dashboard or the
    inventory; and nobody is rendered any page but the login page or the
    loading screen before being authenticated and loaded. *)
Theorem pages_are_kept_apart_by_role (auth : Auth.t) (location : string) :
  let page := fst (Router auth location) in
  (page = Page.Orders \/ page = Page.Tables \/ page = Page.Credits
   \/ page = Page.Dashboard ->
   exists role, Auth.user auth = Some role /\ role <> "manager")
  /\ (page = Page.ManagerDashboard \/ page = Page.Inventory ->
      Auth.user auth = Some "manager"%string)
  /\ (page <> Page.Login -> page <> Page.Loading ->
      Auth.isAuthenticated auth = true /\ Auth.isLoading auth = false).
Proof.
  intros page. subst page. unfold Router.
  destruct (Auth.isLoading auth); cbn [fst].
  { repeat split; try discriminate; try (intros [H | [H | [H | H]]]; discriminate);
      try (intros [H | H]; discriminate); intros; congruence. }
  destruct (Auth.isAuthenticated auth); cbn [negb fst].
  2: { repeat split; try discriminate; try (intros [H | [H | [H | H]]]; discriminate);
         try (intros [H | H]; discriminate); intros; congruence. }
  destruct (Auth.user auth) as [role |]; cbn [fst].
  2: { repeat split; try discriminate; try (intros [H | [H | [H | H]]]; discriminate);
         try (intros [H | H]; discriminate); intros; congruence. }
  unfold AuthenticatedRoutes.
  destruct (String.eqb_spec role "manager") as [-> | Hrole].
  - route_cases;
      (split; [intros [H | [H | [H | H]]]; discriminate | split; [reflexivity || (intros [H | H]; discriminate) | auto]]).
  - route_cases;
      (split; [intros _; exists role; split; [reflexivity | exact Hrole]
              | split; [intros [H | H]; discriminate | auto]]).
Qed.

(** X17. Redirects settle in one step and quotes do not matter: when a
    route schedules a redirect, the target renders the same page for the same
    role and schedules no further redirect; and a location is routed like the
    same location without its quote characters. *)
Theorem redirects_settle_in_one_step (role location : string) :
  (forall page target,
      AuthenticatedRoutes role location = (page, Some target) ->
      AuthenticatedRoutes role target = (page, None))
  /\ AuthenticatedRoutes role (cleanLocation location) = AuthenticatedRoutes role location.
Proof.
  split.
  - intros page target. unfold AuthenticatedRoutes at 1.
    destruct (String.eqb_spec role "manager") as [-> | Hrole].
    + route_cases; intros Heq; inversion Heq; subst; reflexivity.
    + apply String.eqb_neq in Hrole.
      route_cases; intros Heq; inversion Heq; subst;
        unfold AuthenticatedRoutes; rewrite Hrole; reflexivity.
  - unfold AuthenticatedRoutes. now rewrite cleanLocation_idempotent.
Qed.

Lemma redirects_settle_in_one_step_witness :
  AuthenticatedRoutes "cashier" "/inventory" = (Page.Dashboard, Some "/dashboard"%string)
  /\ AuthenticatedRoutes "cashier" "/dashboard" = (Page.Dashboard, None).
Proof.
  split; [reflexivity |].
  exact (proj1 (redirects_settle_in_one_step "cashier" "/inventory")
               Page.Dashboard "/dashboard"%string eq_refl).
Defined.

Lemma pages_are_kept_apart_by_role_witness :
  fst (Router (Auth.mk true false (Some "manager"%string)) "/orders")
  = Page.ManagerDashboard
  /\ fst (Router (Auth.mk false false None) "/orders") = Page.Login.
Proof.
  destruct (pages_are_kept_apart_by_role
              (Auth.mk true false (Some "cashier"%string)) "/orders")
    as (Hcashier & _).
  destruct (Hcashier (or_introl eq_refl)) as [role [Hrole Hnot]].
  split; reflexivity.
Defined.

(** ** The server *)

(** X18. A logged line never exceeds 80 code units: a line of at most 80
    is logged as it is; a longer one is cut to its first 79 code units
    followed by the ellipsis, 80 in all. *)
Theorem log_line_is_at_most_80_units {unit : Type} (ellipsis : unit)
    (logLine : list unit) :
  (List.length (truncateLogLine ellipsis logLine) <= 80)%nat
  /\ ((List.length logLine <= 80)%nat -> truncateLogLine ellipsis logLine = logLine)
  /\ ((80 < List.length logLine)%nat ->
      List.length (truncateLogLine ellipsis logLine) = 80%nat
      /\ firstn 79 (truncateLogLine ellipsis logLine) = firstn 79 logLine
      /\ nth_error (truncateLogLine ellipsis logLine) 79 = Some ellipsis).
Proof.
  unfold truncateLogLine.
  destruct (Nat.ltb_spec 80 (List.length logLine)) as [Hlong | Hshort].
  - assert (Hfirst : List.length (firstn 79 logLine) = 79%nat)
      by (rewrite length_firstn; lia).
    repeat split; try lia.
    + rewrite length_app, Hfirst. cbn [List.length]. lia.
    + rewrite length_app, Hfirst. reflexivity.
    + rewrite firstn_app, Hfirst, Nat.sub_diag, firstn_O, app_nil_r, firstn_firstn.
      now rewrite Nat.min_id.
    + rewrite nth_error_app2 by lia. rewrite Hfirst, Nat.sub_diag. reflexivity.
  - repeat split; try lia; auto.
Qed.

Lemma log_line_is_at_most_80_units_witness :
  truncateLogLine 0%nat (seq 1 100) = seq 1 79 ++ [0%nat]
  /\ List.length (truncateLogLine 0%nat (seq 1 100)) = 80%nat.
Proof.
  assert (Hlong : (80 < List.length (seq 1 100))%nat)
    by (apply Nat.ltb_lt; reflexivity).
  split; [reflexivity |].
  exact (proj1 (proj2 (proj2 (log_line_is_at_most_80_units 0%nat (seq 1 100))) Hlong)).
Defined.

(** X19. In production the message of an error only reaches the client for
    a validation error: two errors with the same code and name get the very
    same response unless the handler answers 400, and the 400 answer always
    carries the message.  A refused database connection is answered 503
    whatever the name of the error. *)
Theorem error_message_only_leaves_with_validation_errors
    (isProduction : bool) (err : ServerError.t) :
  (isProduction = true ->
   ErrorResponse.status (errorHandler isProduction err) <> 400 ->
   forall message,
     errorHandler isProduction
                  (ServerError.mk (ServerError.code err) (ServerError.name err) message)
     = errorHandler isProduction err)
  /\ (ErrorResponse.status (errorHandler isProduction err) = 400 ->
      ErrorResponse.error (errorHandler isProduction err) = ServerError.message err
      /\ ServerError.name err = Some "ValidationError"%string
      /\ ServerError.code err <> Some "ECONNREFUSED"%string)
  /\ (ServerError.code err = Some "ECONNREFUSED"%string ->
      errorHandler isProduction err
      = ErrorResponse.mk 503 "Database connection failed"
                         "Service temporarily unavailable")
  /\ In (ErrorResponse.status (errorHandler isProduction err)) [503; 400; 500].
Proof.
  unfold errorHandler. cbn [ServerError.code ServerError.name ServerError.message].
  destruct (fieldIs (ServerError.code err) "ECONNREFUSED") eqn:Hcode;
    [| destruct (fieldIs (ServerError.name err) "ValidationError") eqn:Hname];
    cbn [ErrorResponse.status ErrorResponse.error].
  - repeat split; try discriminate; simpl; auto.
  - refine (conj _ (conj _ (conj _ _))).
    + intros _ Habs. now exfalso.
    + intros _. split; [reflexivity |]. split.
      * unfold fieldIs in Hname. destruct (ServerError.name err) as [n |];
          [| discriminate]. apply String.eqb_eq in Hname. now subst.
      * intros Hc. rewrite Hc in Hcode. discriminate.
    + intros Hc. rewrite Hc in Hcode. discriminate.
    + simpl. auto.
  - refine (conj _ (conj _ (conj _ _))).
    + intros -> _ message. reflexivity.
    + discriminate.
    + intros Hc. rewrite Hc in Hcode. discriminate.
    + simpl. auto.
Qed.

Lemma error_message_only_leaves_with_validation_errors_witness :
  errorHandler true (ServerError.mk None (Some "Error"%string) "relation orders missing")
  = errorHandler true (ServerError.mk None (Some "Error"%string) "").
Proof.
  symmetry.
  refine (proj1 (error_message_only_leaves_with_validation_errors
                   true (ServerError.mk None (Some "Error"%string)
                                        "relation orders missing"))
                eq_refl _ ""%string).
  discriminate.
Defined.

(** ** The connection pool *)

Lemma dbStep_invariant (db : Db.t) (call : DbCall) :
  (Db.endCalls db = if Db.isShuttingDown db then 1 else 0)%nat ->
  (Db.endCalls (dbStep db call) = if Db.isShuttingDown (dbStep db call) then 1 else 0)%nat
  /\ (Db.isShuttingDown db = true -> dbStep db call = db)
  /\ (forall endFails, call = callShutdownPool endFails ->
                       Db.isShuttingDown (dbStep db call) = true).
Proof.
  intros Hinv. destruct call as [| endFails]; simpl.
  - repeat split; auto. discriminate.
  - unfold shutdownPool. destruct (Db.isShuttingDown db) eqn:Hflag; simpl.
    + rewrite Hflag. auto.
    + rewrite Hinv. repeat split; auto. discriminate.
Qed.

Lemma dbRun_from (calls : list DbCall) (db : Db.t) :
  (Db.endCalls db = if Db.isShuttingDown db then 1 else 0)%nat ->
  let final := fold_left dbStep calls db in
  (Db.endCalls final = if Db.isShuttingDown final then 1 else 0)%nat
  /\ (Db.isShuttingDown final = true
      <-> Db.isShuttingDown db = true
          \/ exists endFails, In (callShutdownPool endFails) calls).
Proof.
  revert db. induction calls as [| call calls IH]; intros db Hinv; simpl.
  - split; [exact Hinv |]. split; [auto | intros [H | [e []]]; exact H].
  - destruct (dbStep_invariant db call Hinv) as (Hinv' & Hstay & Hset).
    destruct (IH _ Hinv') as (Hfinal & Hflag). split; [exact Hfinal |].
    rewrite Hflag. split.
    + intros [Hstep | [e He]]; [| right; exists e; now right].
      destruct call as [| e]; simpl in Hstep; [now left |].
      right. exists e. now left.
    + intros [Hdb | [e [He | He]]].
      * left. now rewrite (Hstay Hdb).
      * left. now apply (Hset e).
      * right. now exists e.
Qed.

(** X20. Whatever sequence of [getPool] and [shutdownPool] calls the module
    receives, [pool.end] is called at most once, and exactly once as soon as
    one shutdown was asked; from then on [getPool] fails for good, also when
    closing the pool failed, and further shutdowns return without touching
    the pool. *)
Theorem pool_is_closed_at_most_once (calls : list DbCall) :
  let db := dbRun calls in
  (Db.endCalls db <= 1)%nat
  /\ (Db.endCalls db = 1%nat
      <-> exists endFails, In (callShutdownPool endFails) calls)
  /\ (getPool db = None
      <-> exists endFails, In (callShutdownPool endFails) calls)
  /\ (getPool db = None ->
      forall more, getPool (fold_left dbStep more db) = None
                   /\ fold_left dbStep more db = db)
  /\ (getPool db = None -> forall endFails, shutdownPool endFails db = (db, true)).
Proof.
  intros db. subst db. unfold dbRun.
  destruct (dbRun_from calls dbStart eq_refl) as (Hcount & Hflag).
  cbn zeta in Hcount, Hflag.
  assert (Hasked : Db.isShuttingDown (fold_left dbStep calls dbStart) = true
                   <-> exists endFails, In (callShutdownPool endFails) calls).
  { rewrite Hflag. simpl. split; [intros [H | H]; [discriminate | exact H] | auto]. }
  assert (Hpool : forall db, getPool db = None <-> Db.isShuttingDown db = true).
  { intros db. unfold getPool. destruct (Db.isShuttingDown db); split;
      try reflexivity; discriminate. }
  refine (conj _ (conj _ (conj _ (conj _ _)))).
  - rewrite Hcount. destruct (Db.isShuttingDown _); lia.
  - rewrite <- Hasked, Hcount. destruct (Db.isShuttingDown _); split;
      try reflexivity; discriminate.
  - now rewrite Hpool.
  - intros Hclosed more. apply Hpool in Hclosed.
    assert (Hsame : fold_left dbStep more (fold_left dbStep calls dbStart)
                    = fold_left dbStep calls dbStart).
    { generalize dependent (fold_left dbStep calls dbStart). intros db _ _ _ Hclosed.
      induction more as [| call more IH]; simpl; [reflexivity |].
      destruct call as [| e]; simpl; [exact IH |].
      unfold shutdownPool. rewrite Hclosed. exact IH. }
    rewrite Hsame. split; [now apply Hpool | reflexivity].
  - intros Hclosed endFails. apply Hpool in Hclosed. unfold shutdownPool.
    now rewrite Hclosed.
Qed.

Lemma pool_is_closed_at_most_once_witness :
  getPool (dbRun [callGetPool; callShutdownPool true; callShutdownPool false]) = None
  /\ Db.endCalls (dbRun [callGetPool; callShutdownPool true; callShutdownPool false])
     = 1%nat.
Proof.
  destruct (pool_is_closed_at_most_once
              [callGetPool; callShutdownPool true; callShutdownPool false])
    as (_ & Hcount & Hclosed & _).
  assert (Hasked : exists endFails,
             In (callShutdownPool endFails)
                [callGetPool; callShutdownPool true; callShutdownPool false])
    by (exists true; right; now left).
  split; [now apply Hclosed | now apply Hcount].
Defined.

(** ** The inventory *)

(** X21. The low-stock alert lists exactly the products whose badge reads
    "low", in the order of the catalog: a product is in the list if and only
    if it is in the catalog and [getStockStatus] gives it the low status. *)
Theorem low_stock_list_matches_low_badges
    (reachesFourFifths : Z -> Z -> bool) (products : list InventoryProduct.t) :
  (forall product,
      In product (lowStockProducts products)
      <-> In product products
          /\ getStockStatus reachesFourFifths product = stock_low)
  /\ lowStockProducts products
     = filter (fun product =>
                 match getStockStatus reachesFourFifths product with
                 | stock_low => true
                 | _ => false
                 end)
              products
  /\ (List.length (lowStockProducts products) <= List.length products)%nat.
Proof.
  assert (Hsame : forall product,
             match InventoryProduct.stock product, InventoryProduct.minStock product with
             | Some stock, Some minStock => stock <=? minStock
             | _, _ => false
             end
             = match getStockStatus reachesFourFifths product with
               | stock_low => true
               | _ => false
               end).
  { intros product. unfold getStockStatus.
    destruct (InventoryProduct.stock product) as [stock |]; [| reflexivity].
    destruct (InventoryProduct.minStock product) as [minStock |].
    - destruct (stock <=? minStock); [reflexivity |].
      destruct (InventoryProduct.maxStock product) as [maxStock |]; [| reflexivity].
      now destruct (reachesFourFifths stock maxStock).
    - destruct (InventoryProduct.maxStock product) as [maxStock |]; [| reflexivity].
      now destruct (reachesFourFifths stock maxStock). }
  unfold lowStockProducts. refine (conj _ (conj _ _)).
  - intros product. rewrite filter_In, Hsame.
    destruct (getStockStatus reachesFourFifths product);
      split; intros [Hin Hst]; split; try assumption; try reflexivity; discriminate.
  - apply filter_ext. exact Hsame.
  - apply filter_length_le.
Qed.

(** ** More sample runs *)

Lemma add_raises_quantity_by_one_witness :
  cartQuantity 10 (OrderStep.orderItems
                     (handleProductAdd beer (atProducts table7 [line beer 2; line wine 1])))
  = Some 3
  /\ cartQuantity 11 (OrderStep.orderItems
                       (handleProductAdd beer (atProducts table7 [line beer 2; line wine 1])))
     = Some 1.
Proof.
  destruct (add_raises_quantity_by_one
              beer (atProducts table7 [line beer 2; line wine 1]))
    as (Hadded & Hother & _).
  split; [exact Hadded |].
  refine (eq_trans (Hother 11 _) eq_refl). discriminate.
Defined.

Lemma products_are_grouped_by_category_name_witness :
  groupProductsByCategory sampleCategories sampleCatalog
  = Some [("Bebidas"%string,
           [CatalogProduct.mk beer None (Some 1); CatalogProduct.mk wine None (Some 1)]);
          ("Outros"%string,
           [CatalogProduct.mk juice (Some "Sumo de laranja"%string) None])]
  /\ categoryNameOf sampleCategories
                    (CatalogProduct.mk juice (Some "Sumo de laranja"%string) None)
     = "Outros"%string.
Proof.
  split; [reflexivity |].
  refine (proj2 (proj2 (proj2 (products_are_grouped_by_category_name
                                 sampleCategories sampleCatalog _ eq_refl))) _ _).
  intros c Hin. discriminate.
Defined.

Lemma grouping_fails_exactly_on_inherited_keys_witness :
  groupTablesByLocation [table7; Table.mk 1 1 2 "constructor" "free"] = None.
Proof.
  apply (proj1 grouping_fails_exactly_on_inherited_keys).
  exists (Table.mk 1 1 2 "constructor" "free"). split; [right; now left | now left].
Defined.

Lemma category_options_are_the_names_with_products_witness :
  getCategoryOptions String.leb sampleCategories sampleCatalog
  = ["Bebidas"; "Outros"]%string
  /\ filterProducts (fun s => s) (fun s => s) sampleCategories "" "Outros" sampleCatalog
     <> [].
Proof.
  split; [reflexivity |].
  apply (proj2 (proj2 (category_options_are_the_names_with_products
                         (fun s => s) (fun s => s) String.leb
                         sampleCategories sampleCatalog))
               ""%string "Outros"%string eq_refl).
  left. right. now left.
Defined.

Lemma low_stock_list_matches_low_badges_witness :
  In (InventoryProduct.mk 2 (Some 1) (Some 5) None)
     (lowStockProducts [InventoryProduct.mk 1 None (Some 5) None;
                        InventoryProduct.mk 2 (Some 1) (Some 5) None;
                        InventoryProduct.mk 3 (Some 9) (Some 5) (Some 10)]).
Proof.
  apply (proj1 (low_stock_list_matches_low_badges
                  (fun stock maxStock => 4 * maxStock <=? 5 * stock)
                  [InventoryProduct.mk 1 None (Some 5) None;
                   InventoryProduct.mk 2 (Some 1) (Some 5) None;
                   InventoryProduct.mk 3 (Some 9) (Some 5) (Some 10)])).
  split; [right; now left | reflexivity].
Defined.
